(** * Aspect and pattern engine: a shallow embedding and its properties

    The development follows [astro_core.c] (angular distance, sign
    tables), [astro_types.h] (records, enumerations, error codes),
    [astro_aspects.c] (orb table, aspect detection, aspect set builders,
    pattern detection, strength), and the callers of the engine in
    [astro_chart.c] (chart queries, element and modality balance, synastry),
    [astro_transits.c] (current transits, strength, filters) and
    [mythic_transits.c] (importance, sort).

    Conventions of the embedding.
    - A C [double] is idealised as an exact rational ([Q]).  Rounding,
      infinities and NaN are outside the model; every literal of the source
      (8.0, 0.5, 0.01, 180.0, 360.0) is embedded exactly.  The concrete
      inputs used in examples are small integers, on which binary64
      arithmetic is exact as well.
    - A C [int] and the integer-valued enumerations used as array indices
      ([AstroPlanet], [AstroSign]) are [Z].
    - A pointer argument is an [option]: [None] is the NULL pointer and
      [Some v] a pointer to an object holding [v].  An out-parameter is
      returned next to the status code.
    - An input array together with its element count is the [list] of those
      elements.  An output array filled through [out[count++] = x] is the list
      of the entries written so far, in index order, so that [count] is its
      length; the caller-supplied capacity stays a separate [Z].  A store the
      source performs past the capacity of a caller's array is listed like
      any other store: what it overwrites belongs to the caller and is
      outside the model.
    - A store past the last slot of an array that is a member of a record
      falls on the members declared after it.  This is modelled for the
      participant array of a pattern record, member by member (see
      [store_participant]).
    - The process-wide orb table is passed explicitly. *)

From Stdlib Require Import ZArith QArith Qabs List String Ascii Bool Lia Lqa.
From Stdlib Require Import DecimalString.
From Stdlib Require Import Sorted Permutation.
Import ListNotations.

Set Implicit Arguments.

(** ** Doubles *)

Definition double := Q.

Definition fabs (x : double) : double := Qabs x.

(** [x <= y] and [x < y] on doubles, as the C comparisons that yield 0 or 1. *)
Definition dle (x y : double) : bool := Qle_bool x y.
Definition dlt (x y : double) : bool := negb (Qle_bool y x).

(** ** astro_types.h *)

Definition ASTRO_MAX_PLANETS : Z := 23.
Definition ASTRO_MAX_NAME_LEN : nat := 64.

Definition AstroPlanet := Z.
Definition AstroSign := Z.

(** The enumerators of [AstroPlanet] are 0 .. 22. *)
Definition valid_planet (p : AstroPlanet) : Prop := (0 <= p <= 22)%Z.

Inductive AstroAspectType : Set :=
| ASTRO_ASPECT_CONJUNCTION
| ASTRO_ASPECT_OPPOSITION
| ASTRO_ASPECT_TRINE
| ASTRO_ASPECT_SQUARE
| ASTRO_ASPECT_SEXTILE
| ASTRO_ASPECT_QUINCUNX
| ASTRO_ASPECT_SEMISEXTILE
| ASTRO_ASPECT_SEMISQUARE
| ASTRO_ASPECT_SESQUIQUADRATE
| ASTRO_ASPECT_QUINTILE
| ASTRO_ASPECT_BIQUINTILE.

(** The integer value of each enumerator, which is its target angle. *)
Definition aspect_value (t : AstroAspectType) : Z :=
  match t with
  | ASTRO_ASPECT_CONJUNCTION => 0
  | ASTRO_ASPECT_OPPOSITION => 180
  | ASTRO_ASPECT_TRINE => 120
  | ASTRO_ASPECT_SQUARE => 90
  | ASTRO_ASPECT_SEXTILE => 60
  | ASTRO_ASPECT_QUINCUNX => 150
  | ASTRO_ASPECT_SEMISEXTILE => 30
  | ASTRO_ASPECT_SEMISQUARE => 45
  | ASTRO_ASPECT_SESQUIQUADRATE => 135
  | ASTRO_ASPECT_QUINTILE => 72
  | ASTRO_ASPECT_BIQUINTILE => 144
  end.

(** [a == b] on aspect types compares the enumerators' values. *)
Definition aspect_type_eqb (a b : AstroAspectType) : bool :=
  (aspect_value a =? aspect_value b)%Z.

(** The fields of [AstroPlanetPosition] that the aspect engine reads
    (latitude, distance, their speeds, sign position, house and the
    retrograde flag are never read by it). *)
Record AstroPlanetPosition : Set := mkPosition {
  planet : AstroPlanet;
  longitude : double;
  longitude_speed : double;
  sign : AstroSign;
  name : string
}.

Record AstroAspect : Set := mkAspect {
  planet1 : AstroPlanet;
  planet2 : AstroPlanet;
  aspect_type : AstroAspectType;
  orb : double;
  difference : double;
  is_applying : Z;
  is_exact : Z;
  aspect_name : string
}.

(** [AstroErrorCode], the enumerators the engine returns. *)
Definition ASTRO_OK : Z := 0.
Definition ASTRO_ERROR_CALCULATION : Z := -4.
Definition ASTRO_ERROR_INVALID_PLANET : Z := -5.
Definition ASTRO_ERROR_NULL_POINTER : Z := -7.

(** [snprintf (buf, size, ...)] stores at most [size - 1] characters. *)
Definition snprintf (size : nat) (s : string) : string :=
  substring 0 (size - 1) s.

(** ** astro_core.c *)

Module AstroCore.

Definition astro_core_angular_distance (lon1 lon2 : double) : double :=
  let diff := fabs (lon2 - lon1) in
  if dlt 180 diff then 360 - diff else diff.

Definition sign_names : list string :=
  ["Aries"; "Taurus"; "Gemini"; "Cancer"; "Leo"; "Virgo";
   "Libra"; "Scorpio"; "Sagittarius"; "Capricorn"; "Aquarius"; "Pisces"]%string.

Definition astro_core_get_sign_name (s : AstroSign) : string :=
  if ((0 <=? s) && (s <? 12))%Z then nth (Z.to_nat s) sign_names "Unknown"%string
  else "Unknown"%string.

End AstroCore.

Export AstroCore.

(** ** astro_aspects.h, astro_aspects.c *)

Module AstroAspects.

Record AstroAspectConfig : Set := mkConfig {
  cfg_aspect_type : AstroAspectType;
  default_orb : double;
  tight_orb : double;
  is_major : Z
}.

Inductive AstroPatternType : Set :=
| ASTRO_PATTERN_GRAND_TRINE
| ASTRO_PATTERN_T_SQUARE
| ASTRO_PATTERN_GRAND_CROSS
| ASTRO_PATTERN_YOD
| ASTRO_PATTERN_KITE
| ASTRO_PATTERN_STELLIUM
| ASTRO_PATTERN_MYSTIC_RECTANGLE.

(** [AstroPattern], in the order of its members: [pattern_type], the array
    [planets[6]], [num_planets], [element], [description[256]].  The first
    four are words of the same size (enumerations and [int]), laid out one
    after the other, so the word behind the last slot of [planets] is
    [num_planets] and the next one is [element].

    [planets] lists the slots [planets[0]], [planets[1]], ... that were
    stored, in index order: at most [PATTERN_SLOTS] of them.  [num_planets]
    is the value the field holds.  [element] is the value stored in that
    field, [None] when the engine left the caller's value in place. *)
Record AstroPattern : Set := mkPattern {
  pattern_type : AstroPatternType;
  planets : list AstroPlanet;
  num_planets : Z;
  element : option Z;
  description : string
}.

(** The length of [AstroPattern.planets]. *)
Definition PATTERN_SLOTS : Z := 6.

(** *** Module-level aspect configuration *)

(** The initial value of the static table [g_aspect_configs]. *)
Definition g_aspect_configs : list AstroAspectConfig :=
  [ mkConfig ASTRO_ASPECT_CONJUNCTION 8 3 1;
    mkConfig ASTRO_ASPECT_OPPOSITION 8 3 1;
    mkConfig ASTRO_ASPECT_TRINE 8 3 1;
    mkConfig ASTRO_ASPECT_SQUARE 8 3 1;
    mkConfig ASTRO_ASPECT_SEXTILE 6 2 1;
    mkConfig ASTRO_ASPECT_QUINCUNX 3 1 0;
    mkConfig ASTRO_ASPECT_SEMISEXTILE 3 1 0;
    mkConfig ASTRO_ASPECT_SEMISQUARE 3 1 0;
    mkConfig ASTRO_ASPECT_SESQUIQUADRATE 3 1 0;
    mkConfig ASTRO_ASPECT_QUINTILE 2 (1 # 2) 0;
    mkConfig ASTRO_ASPECT_BIQUINTILE 2 (1 # 2) 0 ].

(** The table as the process holds it at some moment. *)
Definition configs := list AstroAspectConfig.

(** [get_aspect_config]: a pointer to the first entry of that type, or NULL. *)
Fixpoint get_aspect_config (cfg : configs) (t : AstroAspectType)
  : option AstroAspectConfig :=
  match cfg with
  | [] => None
  | c :: rest =>
      if aspect_type_eqb (cfg_aspect_type c) t then Some c
      else get_aspect_config rest t
  end.

(** [astro_aspects_set_orb]: stores through the pointer [get_aspect_config]
    returned, when it is not NULL. *)
Fixpoint astro_aspects_set_orb (cfg : configs) (t : AstroAspectType)
  (o : double) : configs :=
  match cfg with
  | [] => []
  | c :: rest =>
      if aspect_type_eqb (cfg_aspect_type c) t
      then mkConfig (cfg_aspect_type c) o (tight_orb c) (is_major c) :: rest
      else c :: astro_aspects_set_orb rest t o
  end.

Definition astro_aspects_get_orb (cfg : configs) (t : AstroAspectType) : double :=
  match get_aspect_config cfg t with
  | Some c => default_orb c
  | None => 0
  end.

(** [astro_aspects_reset_orbs] assigns all eleven entries. *)
Definition astro_aspects_reset_orbs (cfg : configs) : configs := g_aspect_configs.

(** The tables the process can hold: the initial one and whatever the two
    mutators make of it. *)
Inductive reachable : configs -> Prop :=
| reach_init : reachable g_aspect_configs
| reach_set_orb : forall cfg t o,
    reachable cfg -> reachable (astro_aspects_set_orb cfg t o)
| reach_reset : forall cfg,
    reachable cfg -> reachable (astro_aspects_reset_orbs cfg).

(** The order in which the families are registered in the table. *)
Definition registration_order : list AstroAspectType :=
  [ ASTRO_ASPECT_CONJUNCTION; ASTRO_ASPECT_OPPOSITION; ASTRO_ASPECT_TRINE;
    ASTRO_ASPECT_SQUARE; ASTRO_ASPECT_SEXTILE; ASTRO_ASPECT_QUINCUNX;
    ASTRO_ASPECT_SEMISEXTILE; ASTRO_ASPECT_SEMISQUARE;
    ASTRO_ASPECT_SESQUIQUADRATE; ASTRO_ASPECT_QUINTILE;
    ASTRO_ASPECT_BIQUINTILE ].

(** *** Aspect interpretation (the part the detector calls) *)

Definition astro_aspects_get_name (t : AstroAspectType) : string :=
  match t with
  | ASTRO_ASPECT_CONJUNCTION => "conjunction"
  | ASTRO_ASPECT_OPPOSITION => "opposition"
  | ASTRO_ASPECT_TRINE => "trine"
  | ASTRO_ASPECT_SQUARE => "square"
  | ASTRO_ASPECT_SEXTILE => "sextile"
  | ASTRO_ASPECT_QUINCUNX => "quincunx"
  | ASTRO_ASPECT_SEMISEXTILE => "semi-sextile"
  | ASTRO_ASPECT_SEMISQUARE => "semi-square"
  | ASTRO_ASPECT_SESQUIQUADRATE => "sesquiquadrate"
  | ASTRO_ASPECT_QUINTILE => "quintile"
  | ASTRO_ASPECT_BIQUINTILE => "biquintile"
  end%string.

(** *** Aspect calculations *)

(** The distance between the computed separation and a family's target. *)
Definition orb_diff (angular_dist : double) (config : AstroAspectConfig) : double :=
  fabs (angular_dist - inject_Z (aspect_value (cfg_aspect_type config))).

(** The loop of [astro_aspects_check_aspect] over the table entries. *)
Fixpoint check_aspect_scan (angular_dist : double) (cfg : configs)
  : option (AstroAspectType * double) :=
  match cfg with
  | [] => None
  | config :: rest =>
      let diff := orb_diff angular_dist config in
      if dle diff (default_orb config)
      then Some (cfg_aspect_type config, diff)
      else check_aspect_scan angular_dist rest
  end.

(** [astro_aspects_check_aspect]: [Some (aspect_type, orb)] is the return
    value 1 with the two out-parameters, [None] the return value 0. *)
Definition astro_aspects_check_aspect (cfg : configs) (lon1 lon2 : double)
  : option (AstroAspectType * double) :=
  check_aspect_scan (astro_core_angular_distance lon1 lon2) cfg.

(** Return values: 1 applying, 0 separating, -1 stationary (or NULL input). *)
Definition astro_aspects_is_applying (pos1 pos2 : option AstroPlanetPosition)
  (aspect : option AstroAspect) : Z :=
  match pos1, pos2, aspect with
  | Some p1, Some p2, Some a =>
      let speed_diff := (longitude_speed p1 - longitude_speed p2)%Q in
      if dlt (fabs speed_diff) (1 # 100) then (-1)%Z
      else
        let target_angle := inject_Z (aspect_value (aspect_type a)) in
        let current_angle :=
          astro_core_angular_distance (longitude p1) (longitude p2) in
        if dlt 0 speed_diff
        then (if dlt current_angle target_angle then 1 else 0)%Z
        else (if dlt target_angle current_angle then 1 else 0)%Z
  | _, _, _ => (-1)%Z
  end.

(** [astro_aspects_calc_aspect]: the status code and the record [*aspect]
    holds after the call.  The entry looked up for the tight orb is
    dereferenced unchecked in the source; [check_found_config] below shows the
    lookup cannot fail there, so the last branch is dead. *)
Definition astro_aspects_calc_aspect (cfg : configs)
  (pos1 pos2 : option AstroPlanetPosition) (aspect : option AstroAspect)
  : Z * option AstroAspect :=
  match pos1, pos2, aspect with
  | Some p1, Some p2, Some a0 =>
      if (planet p1 =? planet p2)%Z then (ASTRO_ERROR_INVALID_PLANET, aspect)
      else
        match astro_aspects_check_aspect cfg (longitude p1) (longitude p2) with
        | Some (ty, o) =>
            let a1 :=
              mkAspect (planet p1) (planet p2) ty
                (astro_core_angular_distance (longitude p1) (longitude p2))
                o (is_applying a0) (is_exact a0) (aspect_name a0) in
            let applying := astro_aspects_is_applying pos1 pos2 (Some a1) in
            let exact :=
              match get_aspect_config cfg ty with
              | Some config => if dle o (tight_orb config) then 1%Z else 0%Z
              | None => 0%Z
              end in
            let nm :=
              snprintf ASTRO_MAX_NAME_LEN
                (name p1 ++ " " ++ astro_aspects_get_name ty ++ " " ++ name p2) in
            (ASTRO_OK,
             Some (mkAspect (planet1 a1) (planet2 a1) (aspect_type a1)
                     (orb a1) (difference a1) applying exact nm))
        | None => (ASTRO_ERROR_CALCULATION, aspect)
        end
  | _, _, _ => (ASTRO_ERROR_NULL_POINTER, aspect)
  end.

(** *** Aspect set builders *)

(** The local [AstroAspect aspect;] of the two builders.  Its fields are
    indeterminate in C; [astro_aspects_calc_aspect] stores every field on
    success and the builders read it on success only, so the value chosen here
    never reaches an output ([calc_aspect_ok_any_buffer]). *)
Definition aspect_uninit : AstroAspect :=
  mkAspect 0%Z 0%Z ASTRO_ASPECT_CONJUNCTION 0 0 0%Z 0%Z EmptyString.

(** [count], the number of entries stored so far. *)
Definition count_of (A : Type) (out : list A) : Z := Z.of_nat (List.length out).

(** One evaluation of the body shared by the inner loops:
    [if (calc_aspect (&a, &b, &aspect) == ASTRO_OK) aspects[count++] = aspect;] *)
Definition store_aspect (cfg : configs) (a b : AstroPlanetPosition)
  (out : list AstroAspect) : list AstroAspect :=
  match astro_aspects_calc_aspect cfg (Some a) (Some b) (Some aspect_uninit) with
  | (code, Some aspect) =>
      if (code =? ASTRO_OK)%Z then out ++ [aspect] else out
  | (_, None) => out
  end.

(** [for (j = ...; j < n && count < max_aspects; j++)] over the bodies [js]
    paired with the fixed body [a], which comes first in the call. *)
Fixpoint aspects_inner (cfg : configs) (a : AstroPlanetPosition)
  (js : list AstroPlanetPosition) (max_aspects : Z) (out : list AstroAspect)
  : list AstroAspect :=
  match js with
  | [] => out
  | b :: js' =>
      if (count_of out <? max_aspects)%Z
      then aspects_inner cfg a js' max_aspects (store_aspect cfg a b out)
      else out
  end.

(** The outer loop of [astro_aspects_calc_all]: body [i] against the bodies
    [i + 1 ..]. *)
Fixpoint calc_all_loop (cfg : configs) (positions : list AstroPlanetPosition)
  (max_aspects : Z) (out : list AstroAspect) : list AstroAspect :=
  match positions with
  | [] => out
  | a :: rest =>
      if (count_of out <? max_aspects)%Z
      then calc_all_loop cfg rest max_aspects
             (aspects_inner cfg a rest max_aspects out)
      else out
  end.

(** The outer loop of [astro_aspects_calc_between_charts]: every transit body
    against every natal body, the transit body first. *)
Fixpoint between_charts_loop (cfg : configs)
  (natal_positions transit_positions : list AstroPlanetPosition)
  (max_aspects : Z) (out : list AstroAspect) : list AstroAspect :=
  match transit_positions with
  | [] => out
  | t :: rest =>
      if (count_of out <? max_aspects)%Z
      then between_charts_loop cfg natal_positions rest max_aspects
             (aspects_inner cfg t natal_positions max_aspects out)
      else out
  end.

(** What a builder leaves behind: the status code, the entries stored in the
    output array and the value of [*num_aspects]. *)
Record built (A : Type) : Type := mkBuilt {
  status : Z;
  stored : list A;
  num_stored : option Z
}.

Definition astro_aspects_calc_all (cfg : configs)
  (positions : option (list AstroPlanetPosition))
  (aspects : option (list AstroAspect)) (max_aspects : Z)
  (num_aspects : option Z) : built AstroAspect :=
  match positions, aspects, num_aspects with
  | Some ps, Some _, Some _ =>
      let out := calc_all_loop cfg ps max_aspects [] in
      mkBuilt ASTRO_OK out (Some (count_of out))
  | _, _, _ => mkBuilt ASTRO_ERROR_NULL_POINTER [] num_aspects
  end.

Definition astro_aspects_calc_between_charts (cfg : configs)
  (natal_positions transit_positions : option (list AstroPlanetPosition))
  (aspects : option (list AstroAspect)) (max_aspects : Z)
  (num_aspects : option Z) : built AstroAspect :=
  match natal_positions, transit_positions, aspects, num_aspects with
  | Some natal, Some transit, Some _, Some _ =>
      let out := between_charts_loop cfg natal transit max_aspects [] in
      mkBuilt ASTRO_OK out (Some (count_of out))
  | _, _, _, _ => mkBuilt ASTRO_ERROR_NULL_POINTER [] num_aspects
  end.

(** *** Aspect patterns *)

Definition is_trine (a : AstroAspect) : bool :=
  aspect_type_eqb (aspect_type a) ASTRO_ASPECT_TRINE.
Definition is_opposition (a : AstroAspect) : bool :=
  aspect_type_eqb (aspect_type a) ASTRO_ASPECT_OPPOSITION.
Definition is_square (a : AstroAspect) : bool :=
  aspect_type_eqb (aspect_type a) ASTRO_ASPECT_SQUARE.

(** [positions[p].name], the array being indexed by a planet identifier.
    An index outside the list reads memory the model does not describe; the
    name is then taken to be empty.  No property below depends on it. *)
Definition position_name (positions : list AstroPlanetPosition)
  (p : AstroPlanet) : string :=
  if (p <? 0)%Z then EmptyString
  else match nth_error positions (Z.to_nat p) with
       | Some x => name x
       | None => EmptyString
       end.

(** [third_planet]: -1 unless the second trine shares a body with the first.
    (With an unsigned enumeration type the -1 wraps to a value no body
    carries and the test [third_planet >= 0] always passes; for identifiers
    within the enumeration the search that follows then finds nothing, which
    is the signed behaviour embedded here.) *)
Definition third_planet_of (p1 p2 p3a p3b : AstroPlanet) : AstroPlanet :=
  if ((p3a =? p1) || (p3a =? p2))%Z then p3b
  else if ((p3b =? p1) || (p3b =? p2))%Z then p3a
  else (-1)%Z.

(** The condition of the [k] loop, "check third side of triangle". *)
Definition third_side (p1 p2 third_planet : AstroPlanet) (ak : AstroAspect)
  : bool :=
  is_trine ak &&
  (((planet1 ak =? p1) && (planet2 ak =? third_planet)) ||
   ((planet2 ak =? p1) && (planet1 ak =? third_planet)) ||
   ((planet1 ak =? p2) && (planet2 ak =? third_planet)) ||
   ((planet2 ak =? p2) && (planet1 ak =? third_planet)))%Z.

Definition grand_trine_pattern (positions : list AstroPlanetPosition)
  (p1 p2 third_planet : AstroPlanet) : AstroPattern :=
  mkPattern ASTRO_PATTERN_GRAND_TRINE [p1; p2; third_planet] 3 None
    (snprintf 256
       ("Grand Trine: " ++ position_name positions p1 ++ ", " ++
        position_name positions p2 ++ ", " ++
        position_name positions third_planet)).

(** The body of the [j] loop of the Grand Trine scan.  The [k] loop stores
    one pattern at the first [k] that satisfies its condition and breaks;
    what it stores does not depend on [k], hence [existsb]. *)
Definition grand_trine_step (positions : list AstroPlanetPosition)
  (aspects : list AstroAspect) (ai aj : AstroAspect)
  (out : list AstroPattern) : list AstroPattern :=
  if is_trine aj then
    let p1 := planet1 ai in
    let p2 := planet2 ai in
    let third_planet := third_planet_of p1 p2 (planet1 aj) (planet2 aj) in
    if (0 <=? third_planet)%Z then
      if existsb (third_side p1 p2 third_planet) aspects
      then out ++ [grand_trine_pattern positions p1 p2 third_planet]
      else out
    else out
  else out.

(** [for (j = i + 1; j < num_aspects; j++)]: no capacity test. *)
Fixpoint grand_trine_inner (positions : list AstroPlanetPosition)
  (aspects : list AstroAspect) (ai : AstroAspect) (js : list AstroAspect)
  (out : list AstroPattern) : list AstroPattern :=
  match js with
  | [] => out
  | aj :: js' =>
      grand_trine_inner positions aspects ai js'
        (grand_trine_step positions aspects ai aj out)
  end.

(** [for (i = 0; i < num_aspects && count < max_patterns; i++)]; [from_i]
    is [aspects[i ..]]. *)
Fixpoint grand_trine_loop (positions : list AstroPlanetPosition)
  (aspects from_i : list AstroAspect) (max_patterns : Z)
  (out : list AstroPattern) : list AstroPattern :=
  match from_i with
  | [] => out
  | ai :: rest =>
      if (count_of out <? max_patterns)%Z
      then grand_trine_loop positions aspects rest max_patterns
             (if is_trine ai
              then grand_trine_inner positions aspects ai rest out
              else out)
      else out
  end.

(** The condition of the [k] loop, "check if sq2 is square to the other
    planet". *)
Definition square_to_pair (p1 p2 sq2 : AstroPlanet) (ak : AstroAspect) : bool :=
  is_square ak &&
  (((planet1 ak =? sq2) && ((planet2 ak =? p1) || (planet2 ak =? p2))) ||
   ((planet2 ak =? sq2) && ((planet1 ak =? p1) || (planet1 ak =? p2))))%Z.

Definition t_square_pattern (positions : list AstroPlanetPosition)
  (p1 p2 sq2 : AstroPlanet) : AstroPattern :=
  mkPattern ASTRO_PATTERN_T_SQUARE [p1; p2; sq2] 3 None
    (snprintf 256
       ("T-Square: " ++ position_name positions p1 ++ " opp " ++
        position_name positions p2 ++ ", both square " ++
        position_name positions sq2)).

(** The body of the [j] loop of the T-Square scan. *)
Definition t_square_step (positions : list AstroPlanetPosition)
  (aspects : list AstroAspect) (ai aj : AstroAspect)
  (out : list AstroPattern) : list AstroPattern :=
  if is_square aj then
    let p1 := planet1 ai in
    let p2 := planet2 ai in
    let sq1 := planet1 aj in
    let sq2 := planet2 aj in
    if (((sq1 =? p1) || (sq1 =? p2)) && negb (sq2 =? p1) && negb (sq2 =? p2))%Z
    then
      if existsb (square_to_pair p1 p2 sq2) aspects
      then out ++ [t_square_pattern positions p1 p2 sq2]
      else out
    else out
  else out.

(** [for (j = 0; j < num_aspects; j++)]: no capacity test. *)
Fixpoint t_square_inner (positions : list AstroPlanetPosition)
  (aspects : list AstroAspect) (ai : AstroAspect) (js : list AstroAspect)
  (out : list AstroPattern) : list AstroPattern :=
  match js with
  | [] => out
  | aj :: js' =>
      t_square_inner positions aspects ai js'
        (t_square_step positions aspects ai aj out)
  end.

Fixpoint t_square_loop (positions : list AstroPlanetPosition)
  (aspects from_i : list AstroAspect) (max_patterns : Z)
  (out : list AstroPattern) : list AstroPattern :=
  match from_i with
  | [] => out
  | ai :: rest =>
      if (count_of out <? max_patterns)%Z
      then t_square_loop positions aspects rest max_patterns
             (if is_opposition ai
              then t_square_inner positions aspects ai aspects out
              else out)
      else out
  end.

(** [for (i = 0; i < num_planets && num_in_sign < ASTRO_MAX_PLANETS; i++)]:
    the indices of the bodies in sign [s], [from_i] being [positions[i ..]]. *)
Fixpoint collect_in_sign (s : Z) (from_i : list AstroPlanetPosition) (i : Z)
  (planets_in_sign : list Z) : list Z :=
  match from_i with
  | [] => planets_in_sign
  | p :: rest =>
      if (count_of planets_in_sign <? ASTRO_MAX_PLANETS)%Z
      then collect_in_sign s rest (i + 1)
             (if (sign p =? s)%Z then planets_in_sign ++ [i] else planets_in_sign)
      else planets_in_sign
  end.

(** [positions[i].planet] for a collected index (always within the list). *)
Definition planet_at (positions : list AstroPlanetPosition) (i : Z) : AstroPlanet :=
  match nth_error positions (Z.to_nat i) with
  | Some p => planet p
  | None => 0%Z
  end.

(** ["%d"] *)
Definition decimal (n : Z) : string := NilZero.string_of_int (Z.to_int n).

(** [patterns[count].planets[i] = id], for the [i] the participant loop
    reaches ([i] counts up from 0, so slot [i] is the next one of [planets]).
    The array has six slots and the loop runs to [num_in_sign], which can be
    as large as ASTRO_MAX_PLANETS: index 6 is the word of [num_planets],
    index 7 the word of [element], and the indices from 8 on are the first
    bytes of [description] (at most sixty of its 256), which the [snprintf]
    that follows the loop writes anew from its first byte; what is left of
    them lies behind the terminator of that text.  No store leaves the
    record. *)
Definition store_participant (i : nat) (id : AstroPlanet) (p : AstroPattern)
  : AstroPattern :=
  if (i <? 6)%nat then
    mkPattern (pattern_type p) (planets p ++ [id]) (num_planets p) (element p)
      (description p)
  else if (i =? 6)%nat then
    mkPattern (pattern_type p) (planets p) id (element p) (description p)
  else if (i =? 7)%nat then
    mkPattern (pattern_type p) (planets p) (num_planets p) (Some id)
      (description p)
  else p.

(** [for (i = 0; i < num_in_sign; i++)
       patterns[count].planets[i] = positions[planets_in_sign[i]].planet;]
    with [ids] the identifiers still to be stored, from index [i] on. *)
Fixpoint store_participants (ids : list AstroPlanet) (i : nat)
  (p : AstroPattern) : AstroPattern :=
  match ids with
  | [] => p
  | id :: rest => store_participants rest (S i) (store_participant i id p)
  end.

(** The body of the sign loop.  The stores are made in the order of the
    source: [pattern_type], then [num_planets = num_in_sign], then the
    participants, then the description (which prints the local
    [num_in_sign], not the field). *)
Definition stellium_step (positions : list AstroPlanetPosition) (s : Z)
  (out : list AstroPattern) : list AstroPattern :=
  let planets_in_sign := collect_in_sign s positions 0 [] in
  let num_in_sign := count_of planets_in_sign in
  if (3 <=? num_in_sign)%Z then
    let p0 := mkPattern ASTRO_PATTERN_STELLIUM [] num_in_sign None EmptyString in
    let p1 :=
      store_participants (map (planet_at positions) planets_in_sign) 0 p0 in
    out ++
    [mkPattern (pattern_type p1) (planets p1) (num_planets p1) (element p1)
       (snprintf 256
          ("Stellium in " ++ astro_core_get_sign_name s ++ " (" ++
           decimal num_in_sign ++ " planets)"))]
  else out.

(** [for (sign = 0; sign < 12 && count < max_patterns; sign++)] *)
Fixpoint stellium_loop (positions : list AstroPlanetPosition) (signs : list Z)
  (max_patterns : Z) (out : list AstroPattern) : list AstroPattern :=
  match signs with
  | [] => out
  | s :: rest =>
      if (count_of out <? max_patterns)%Z
      then stellium_loop positions rest max_patterns (stellium_step positions s out)
      else out
  end.

Definition all_signs : list Z := [0; 1; 2; 3; 4; 5; 6; 7; 8; 9; 10; 11]%Z.

(** The three scans in sequence, sharing [count]. *)
Definition find_patterns_scans (positions : list AstroPlanetPosition)
  (aspects : list AstroAspect) (max_patterns : Z) : list AstroPattern :=
  let out1 := grand_trine_loop positions aspects aspects max_patterns [] in
  let out2 := t_square_loop positions aspects aspects max_patterns out1 in
  stellium_loop positions all_signs max_patterns out2.

Definition astro_aspects_find_patterns
  (positions : option (list AstroPlanetPosition))
  (aspects : option (list AstroAspect))
  (patterns : option (list AstroPattern)) (max_patterns : Z)
  (num_patterns : option Z) : built AstroPattern :=
  match positions, aspects, patterns, num_patterns with
  | Some ps, Some asp, Some _, Some _ =>
      let out := find_patterns_scans ps asp max_patterns in
      mkBuilt ASTRO_OK out (Some (count_of out))
  | _, _, _, _ => mkBuilt ASTRO_ERROR_NULL_POINTER [] num_patterns
  end.

End AstroAspects.

Export AstroAspects.

(** * Vocabulary of the statements *)

(** A family qualifies when its target angle is within its default orb of
    the separation. *)
Definition within_orb (angular_dist : double) (c : AstroAspectConfig) : Prop :=
  (orb_diff angular_dist c <= default_orb c)%Q.

(** The two bodies and the family of an aspect record. *)
Definition edge (a : AstroAspect) : AstroPlanet * AstroPlanet * AstroAspectType :=
  (planet1 a, planet2 a, aspect_type a).

(** An aspect of family [t] between the bodies [x] and [y], in either order. *)
Definition connects (t : AstroAspectType) (x y : AstroPlanet) (a : AstroAspect)
  : Prop :=
  aspect_type a = t /\
  ((planet1 a = x /\ planet2 a = y) \/ (planet1 a = y /\ planet2 a = x)).

Arguments connects t x%_Z y%_Z a.

(** The family, the participants and the participant count of a pattern. *)
Definition shape (p : AstroPattern) : AstroPatternType * list AstroPlanet * Z :=
  (pattern_type p, planets p, num_planets p).

Definition is_grand_trine (p : AstroPattern) : bool :=
  match pattern_type p with ASTRO_PATTERN_GRAND_TRINE => true | _ => false end.

(** What the scans do guarantee about a stored pattern: three participants
    and the count 3 for a Grand Trine or a T-Square; between three and six
    participant slots for a Stellium, whose count field is not constrained
    (see [store_participant]). *)
Definition participants_ok (p : AstroPattern) : Prop :=
  match pattern_type p with
  | ASTRO_PATTERN_GRAND_TRINE | ASTRO_PATTERN_T_SQUARE =>
      num_planets p = 3%Z /\ List.length (planets p) = 3%nat
  | ASTRO_PATTERN_STELLIUM =>
      (3 <= List.length (planets p) <= Z.to_nat PATTERN_SLOTS)%nat
  | _ => False
  end.

(** ** Concrete charts used in the examples *)

Definition body (id : AstroPlanet) (lon speed : double) (sg : AstroSign)
  (nm : string) : AstroPlanetPosition := mkPosition id lon speed sg nm.

Arguments body id%_Z lon%_Q speed%_Q sg%_Z nm%_string.

(** Sun 0, Moon 120, Mercury 240: mutually in trine. *)
Definition chart_grand_trine : list AstroPlanetPosition :=
  [ body 0 0 1 0 "Sun"; body 1 120 13 4 "Moon"; body 2 240 (3 # 2) 8 "Mercury" ].

(** Sun 0, Moon 113, Mercury 247: the Sun is in trine with the other two,
    which are 134 apart (a sesquiquadrate, not a trine). *)
Definition chart_two_trines : list AstroPlanetPosition :=
  [ body 0 0 1 0 "Sun"; body 1 113 13 3 "Moon"; body 2 247 (3 # 2) 8 "Mercury" ].

(** Sun 0 opposite Moon 175; Mercury 95 is square to the Sun and 80 from the
    Moon (no aspect). *)
Definition chart_one_square : list AstroPlanetPosition :=
  [ body 0 0 1 0 "Sun"; body 1 175 13 5 "Moon"; body 2 95 (3 # 2) 3 "Mercury" ].

(** Seven bodies between 10 and 16 degrees, all in Aries. *)
Definition chart_seven_in_aries : list AstroPlanetPosition :=
  [ body 0 10 1 0 "Sun"; body 1 11 13 0 "Moon"; body 2 12 (3 # 2) 0 "Mercury";
    body 3 13 1 0 "Venus"; body 4 14 (1 # 2) 0 "Mars";
    body 5 15 (1 # 10) 0 "Jupiter"; body 6 16 (1 # 20) 0 "Saturn" ].

(** The ten planets in the order of their identifiers: the Sun to Jupiter
    and Pluto in Aries, Saturn in Cancer, Uranus in Libra, Neptune in
    Capricorn.  Pluto is the seventh body of Aries. *)
Definition chart_pluto_seventh_in_aries : list AstroPlanetPosition :=
  [ body 0 10 1 0 "Sun"; body 1 11 13 0 "Moon"; body 2 12 (3 # 2) 0 "Mercury";
    body 3 13 1 0 "Venus"; body 4 14 (1 # 2) 0 "Mars";
    body 5 15 (1 # 10) 0 "Jupiter"; body 6 100 (1 # 20) 3 "Saturn";
    body 7 190 (1 # 50) 6 "Uranus"; body 8 280 (1 # 100) 9 "Neptune";
    body 9 16 (1 # 200) 0 "Pluto" ].

(** The aspect set of a chart under the built-in orbs, in a buffer of
    ASTRO_MAX_ASPECTS entries. *)
Definition aspects_of (chart : list AstroPlanetPosition) : list AstroAspect :=
  stored (astro_aspects_calc_all g_aspect_configs (Some chart) (Some []) 50
            (Some 0%Z)).

(** The patterns of a chart and an aspect set, for a given capacity. *)
Definition patterns_of (chart : list AstroPlanetPosition)
  (aspects : list AstroAspect) (max_patterns : Z) : built AstroPattern :=
  astro_aspects_find_patterns (Some chart) (Some aspects) (Some [])
    max_patterns (Some 0%Z).

(** * The rest of the engine: sign tables, interpretation, chart queries *)

(** ** astro_types.h, astro_core.c: elements, modalities, planet names *)

Module AstroSigns.

Inductive AstroElement : Set :=
| ASTRO_ELEMENT_FIRE
| ASTRO_ELEMENT_EARTH
| ASTRO_ELEMENT_AIR
| ASTRO_ELEMENT_WATER.

Inductive AstroModality : Set :=
| ASTRO_MODALITY_CARDINAL
| ASTRO_MODALITY_FIXED
| ASTRO_MODALITY_MUTABLE.

(** The values of the enumerators. *)
Definition element_value (e : AstroElement) : Z :=
  match e with
  | ASTRO_ELEMENT_FIRE => 0
  | ASTRO_ELEMENT_EARTH => 1
  | ASTRO_ELEMENT_AIR => 2
  | ASTRO_ELEMENT_WATER => 3
  end.

Definition modality_value (m : AstroModality) : Z :=
  match m with
  | ASTRO_MODALITY_CARDINAL => 0
  | ASTRO_MODALITY_FIXED => 1
  | ASTRO_MODALITY_MUTABLE => 2
  end.

Definition astro_core_get_sign_element (s : AstroSign) : AstroElement :=
  match s with
  | 0 | 4 | 8 => ASTRO_ELEMENT_FIRE
  | 1 | 5 | 9 => ASTRO_ELEMENT_EARTH
  | 2 | 6 | 10 => ASTRO_ELEMENT_AIR
  | 3 | 7 | 11 => ASTRO_ELEMENT_WATER
  | _ => ASTRO_ELEMENT_FIRE
  end%Z.

Definition astro_core_get_sign_modality (s : AstroSign) : AstroModality :=
  match s with
  | 0 | 3 | 6 | 9 => ASTRO_MODALITY_CARDINAL
  | 1 | 4 | 7 | 10 => ASTRO_MODALITY_FIXED
  | 2 | 5 | 8 | 11 => ASTRO_MODALITY_MUTABLE
  | _ => ASTRO_MODALITY_CARDINAL
  end%Z.

Definition planet_names : list string :=
  ["Sun"; "Moon"; "Mercury"; "Venus"; "Mars"; "Jupiter"; "Saturn";
   "Uranus"; "Neptune"; "Pluto"; "Mean Node"; "True Node";
   "Mean Apogee"; "Osc. Apogee"; "Earth"; "Chiron"; "Pholus";
   "Ceres"; "Pallas"; "Juno"; "Vesta"; "Intp. Apogee"; "Intp. Perigee"]%string.

Definition astro_core_get_planet_name (p : AstroPlanet) : string :=
  if ((0 <=? p) && (p <? ASTRO_MAX_PLANETS))%Z
  then nth (Z.to_nat p) planet_names "Unknown"%string
  else "Unknown"%string.

End AstroSigns.

Export AstroSigns.

(** ** astro_aspects.c: aspect interpretation *)

Module AstroInterpretation.

(** 1 harmonious, 0 challenging, -1 neutral. *)
Definition astro_aspects_is_harmonious (t : AstroAspectType) : Z :=
  match t with
  | ASTRO_ASPECT_TRINE | ASTRO_ASPECT_SEXTILE
  | ASTRO_ASPECT_QUINTILE | ASTRO_ASPECT_BIQUINTILE => 1
  | ASTRO_ASPECT_SQUARE | ASTRO_ASPECT_OPPOSITION | ASTRO_ASPECT_SEMISQUARE
  | ASTRO_ASPECT_SESQUIQUADRATE | ASTRO_ASPECT_QUINCUNX => 0
  | ASTRO_ASPECT_CONJUNCTION | ASTRO_ASPECT_SEMISEXTILE => -1
  end%Z.

(** [astro_aspects_get_strength].  The quotient is the exact one; a zero
    default orb, where the C division yields an infinity or a NaN, is
    excluded by hypothesis wherever the quotient matters. *)
Definition astro_aspects_get_strength (cfg : configs)
  (aspect : option AstroAspect) : double :=
  match aspect with
  | None => 0
  | Some a =>
      match get_aspect_config cfg (aspect_type a) with
      | None => 0
      | Some config =>
          let strength := (1 - difference a / default_orb config)%Q in
          if dlt strength 0 then 0 else strength
      end
  end.

End AstroInterpretation.

Export AstroInterpretation.

(** ** astro_chart.h, astro_chart.c *)

Module AstroChartModule.

Definition ASTRO_MAX_ASPECTS : Z := 50.
Definition ASTRO_ERROR_OUT_OF_RANGE : Z := -8.

(** The fields of [AstroChart] the functions below read or store: the
    first [num_planets] entries of [planets] and the first [num_aspects]
    entries of [aspects]. *)
Record AstroChart : Set := mkChart {
  chart_planets : list AstroPlanetPosition;
  chart_aspects : list AstroAspect
}.

Record AstroElementBalance : Set := mkElementBalance {
  fire_count : Z;
  earth_count : Z;
  air_count : Z;
  water_count : Z;
  dominant_element : AstroElement
}.

Record AstroModalityBalance : Set := mkModalityBalance {
  cardinal_count : Z;
  fixed_count : Z;
  mutable_count : Z;
  dominant_modality : AstroModality
}.

(** [AstroSynastry]; the two chart pointers are the charts themselves. *)
Record AstroSynastry : Set := mkSynastry {
  syn_chart1 : AstroChart;
  syn_chart2 : AstroChart;
  syn_aspects : list AstroAspect;
  compatibility_score : double
}.

(** [astro_chart_update_aspects]: the status code and the chart after the
    call. *)
Definition astro_chart_update_aspects (cfg : configs) (chart : option AstroChart)
  : Z * option AstroChart :=
  match chart with
  | None => (ASTRO_ERROR_NULL_POINTER, None)
  | Some c =>
      let r := astro_aspects_calc_all cfg (Some (chart_planets c))
                 (Some (chart_aspects c)) ASTRO_MAX_ASPECTS
                 (Some (count_of (chart_aspects c))) in
      (status r, Some (mkChart (chart_planets c) (stored r)))
  end.

(** The loop of [astro_chart_get_planet]. *)
Fixpoint get_planet_scan (ps : list AstroPlanetPosition) (p : AstroPlanet)
  : option AstroPlanetPosition :=
  match ps with
  | [] => None
  | x :: rest => if (planet x =? p)%Z then Some x else get_planet_scan rest p
  end.

(** [astro_chart_get_planet]: the body the returned pointer designates, or
    [None] for NULL. *)
Definition astro_chart_get_planet (chart : option AstroChart) (p : AstroPlanet)
  : option AstroPlanetPosition :=
  match chart with
  | None => None
  | Some c => get_planet_scan (chart_planets c) p
  end.

(** The loop the selecting functions share,
    [for (i = 0; i < n && count < max; i++) if (test (in[i])) out[count++] = conv (in[i]);]
    An output array of pointers into the input is the list of the elements
    pointed to. *)
Fixpoint select_loop (A B : Type) (test : A -> bool) (conv : A -> B)
  (items : list A) (max : Z) (out : list B) : list B :=
  match items with
  | [] => out
  | x :: rest =>
      if (count_of out <? max)%Z
      then select_loop test conv rest max (if test x then out ++ [conv x] else out)
      else out
  end.

Definition astro_chart_get_planets_in_sign (chart : option AstroChart)
  (s : AstroSign) (planets_out : option (list AstroPlanetPosition))
  (max_planets : Z) (num_planets_out : option Z) : built AstroPlanetPosition :=
  match chart, planets_out, num_planets_out with
  | Some c, Some _, Some _ =>
      let out := select_loop (fun x => (sign x =? s)%Z) (fun x => x)
                   (chart_planets c) max_planets [] in
      mkBuilt ASTRO_OK out (Some (count_of out))
  | _, _, _ => mkBuilt ASTRO_ERROR_NULL_POINTER [] num_planets_out
  end.

Definition astro_chart_get_planet_aspects (chart : option AstroChart)
  (p : AstroPlanet) (aspects_out : option (list AstroAspect))
  (max_aspects : Z) (num_aspects_out : option Z) : built AstroAspect :=
  match chart, aspects_out, num_aspects_out with
  | Some c, Some _, Some _ =>
      let out := select_loop
                   (fun a => ((planet1 a =? p) || (planet2 a =? p))%Z)
                   (fun a => a) (chart_aspects c) max_aspects [] in
      mkBuilt ASTRO_OK out (Some (count_of out))
  | _, _, _ => mkBuilt ASTRO_ERROR_NULL_POINTER [] num_aspects_out
  end.

(** The counting loop of [astro_chart_analyze_elements], from the zeroed
    record. *)
Fixpoint count_elements (ps : list AstroPlanetPosition)
  (b : AstroElementBalance) : AstroElementBalance :=
  match ps with
  | [] => b
  | x :: rest =>
      count_elements rest
        (match astro_core_get_sign_element (sign x) with
         | ASTRO_ELEMENT_FIRE =>
             mkElementBalance (fire_count b + 1) (earth_count b) (air_count b)
               (water_count b) (dominant_element b)
         | ASTRO_ELEMENT_EARTH =>
             mkElementBalance (fire_count b) (earth_count b + 1) (air_count b)
               (water_count b) (dominant_element b)
         | ASTRO_ELEMENT_AIR =>
             mkElementBalance (fire_count b) (earth_count b) (air_count b + 1)
               (water_count b) (dominant_element b)
         | ASTRO_ELEMENT_WATER =>
             mkElementBalance (fire_count b) (earth_count b) (air_count b)
               (water_count b + 1) (dominant_element b)
         end)
  end.

Definition astro_chart_analyze_elements (chart : option AstroChart)
  (balance : option AstroElementBalance) : Z * option AstroElementBalance :=
  match chart, balance with
  | Some c, Some _ =>
      let b := count_elements (chart_planets c)
                 (mkElementBalance 0 0 0 0 ASTRO_ELEMENT_FIRE) in
      let max_count := fire_count b in
      let dominant := ASTRO_ELEMENT_FIRE in
      let '(max_count, dominant) :=
        if (max_count <? earth_count b)%Z
        then (earth_count b, ASTRO_ELEMENT_EARTH) else (max_count, dominant) in
      let '(max_count, dominant) :=
        if (max_count <? air_count b)%Z
        then (air_count b, ASTRO_ELEMENT_AIR) else (max_count, dominant) in
      let '(max_count, dominant) :=
        if (max_count <? water_count b)%Z
        then (water_count b, ASTRO_ELEMENT_WATER) else (max_count, dominant) in
      (ASTRO_OK,
       Some (mkElementBalance (fire_count b) (earth_count b) (air_count b)
               (water_count b) dominant))
  | _, _ => (ASTRO_ERROR_NULL_POINTER, balance)
  end.

Fixpoint count_modalities (ps : list AstroPlanetPosition)
  (b : AstroModalityBalance) : AstroModalityBalance :=
  match ps with
  | [] => b
  | x :: rest =>
      count_modalities rest
        (match astro_core_get_sign_modality (sign x) with
         | ASTRO_MODALITY_CARDINAL =>
             mkModalityBalance (cardinal_count b + 1) (fixed_count b)
               (mutable_count b) (dominant_modality b)
         | ASTRO_MODALITY_FIXED =>
             mkModalityBalance (cardinal_count b) (fixed_count b + 1)
               (mutable_count b) (dominant_modality b)
         | ASTRO_MODALITY_MUTABLE =>
             mkModalityBalance (cardinal_count b) (fixed_count b)
               (mutable_count b + 1) (dominant_modality b)
         end)
  end.

Definition astro_chart_analyze_modalities (chart : option AstroChart)
  (balance : option AstroModalityBalance) : Z * option AstroModalityBalance :=
  match chart, balance with
  | Some c, Some _ =>
      let b := count_modalities (chart_planets c)
                 (mkModalityBalance 0 0 0 ASTRO_MODALITY_CARDINAL) in
      let max_count := cardinal_count b in
      let dominant := ASTRO_MODALITY_CARDINAL in
      let '(max_count, dominant) :=
        if (max_count <? fixed_count b)%Z
        then (fixed_count b, ASTRO_MODALITY_FIXED) else (max_count, dominant) in
      let dominant :=
        if (max_count <? mutable_count b)%Z
        then ASTRO_MODALITY_MUTABLE else dominant in
      (ASTRO_OK,
       Some (mkModalityBalance (cardinal_count b) (fixed_count b)
               (mutable_count b) dominant))
  | _, _ => (ASTRO_ERROR_NULL_POINTER, balance)
  end.

(** The scoring loop of [astro_chart_calc_synastry]. *)
Fixpoint synastry_score (cfg : configs) (aspects : list AstroAspect)
  (score : double) : double :=
  match aspects with
  | [] => score
  | a :: rest =>
      synastry_score cfg rest
        (if (astro_aspects_is_harmonious (aspect_type a) =? 1)%Z
         then (score + 5 * astro_aspects_get_strength cfg (Some a))%Q
         else if (astro_aspects_is_harmonious (aspect_type a) =? 0)%Z
              then (score - 3 * astro_aspects_get_strength cfg (Some a))%Q
              else score)
  end.

(** [astro_chart_calc_synastry]: the first chart's bodies are passed as the
    natal positions, the second chart's as the transit positions. *)
Definition astro_chart_calc_synastry (cfg : configs)
  (chart1 chart2 : option AstroChart) (synastry : option AstroSynastry)
  : Z * option AstroSynastry :=
  match chart1, chart2, synastry with
  | Some c1, Some c2, Some _ =>
      let r := astro_aspects_calc_between_charts cfg
                 (Some (chart_planets c1)) (Some (chart_planets c2))
                 (Some []) ASTRO_MAX_ASPECTS (Some 0%Z) in
      if negb (status r =? ASTRO_OK)%Z
      then (status r, Some (mkSynastry c1 c2 (stored r) 0))
      else
        let score := synastry_score cfg (stored r) 50 in
        let score := if dlt score 0 then 0%Q else score in
        let score := if dlt 100 score then 100%Q else score in
        (ASTRO_OK, Some (mkSynastry c1 c2 (stored r) score))
  | _, _, _ => (ASTRO_ERROR_NULL_POINTER, synastry)
  end.

End AstroChartModule.

Export AstroChartModule.


(** ** astro_transits.h, astro_transits.c *)

Module AstroTransits.

Record AstroDateTime : Set := mkDateTime {
  year : Z;
  month : Z;
  day : Z;
  hour : Z;
  minute : Z;
  second : double;
  timezone_offset : double;
  julian_day : double
}.

Record AstroTransit : Set := mkTransit {
  transiting_planet : AstroPlanet;
  natal_planet : AstroPlanet;
  transit_aspect_type : AstroAspectType;
  event_time : AstroDateTime;
  transit_orb : double;
  transit_is_exact : Z;
  transit_description : string
}.

(** One iteration of the conversion loop of [astro_transits_calc_current]. *)
Definition transit_of_aspect (transit_time : AstroDateTime) (a : AstroAspect)
  : AstroTransit :=
  mkTransit (planet1 a) (planet2 a) (aspect_type a) transit_time
    (difference a) (is_exact a)
    (snprintf 256
       ("Transit " ++ astro_core_get_planet_name (planet1 a) ++ " " ++
        astro_aspects_get_name (aspect_type a) ++ " natal " ++
        astro_core_get_planet_name (planet2 a))).

Section Ephemeris.

(** [astro_core_calc_planets (datetime, 0, positions, &num_planets)] reaches
    the ephemeris library; it is taken as given: the status code and the
    positions it stores. *)
Variable astro_core_calc_planets :
  AstroDateTime -> Z * list AstroPlanetPosition.

(** [astro_transits_calc_current].  The call of
    [astro_aspects_calc_between_charts] passes the transit positions in the
    place of its first array and the natal chart's bodies in the place of its
    second. *)
Definition astro_transits_calc_current (cfg : configs)
  (natal_chart : option AstroChart) (transit_time : option AstroDateTime)
  (transits : option (list AstroTransit)) (max_transits : Z)
  (num_transits : option Z) : built AstroTransit :=
  match natal_chart, transit_time, transits, num_transits with
  | Some natal, Some time, Some _, Some _ =>
      let '(result, transit_positions) := astro_core_calc_planets time in
      if negb (result =? ASTRO_OK)%Z
      then mkBuilt result [] num_transits
      else
        let r := astro_aspects_calc_between_charts cfg
                   (Some transit_positions) (Some (chart_planets natal))
                   (Some []) ASTRO_MAX_ASPECTS (Some 0%Z) in
        if negb (status r =? ASTRO_OK)%Z
        then mkBuilt (status r) [] num_transits
        else
          let out := select_loop (fun _ => true) (transit_of_aspect time)
                       (stored r) max_transits [] in
          mkBuilt ASTRO_OK out (Some (count_of out))
  | _, _, _, _ => mkBuilt ASTRO_ERROR_NULL_POINTER [] num_transits
  end.

End Ephemeris.

(** [planet >= ASTRO_JUPITER && planet <= ASTRO_PLUTO] *)
Definition is_outer_planet (p : AstroPlanet) : bool :=
  ((5 <=? p) && (p <=? 9))%Z.

Definition calc_transit_strength (transit : AstroTransit) : double :=
  let strength := 50%Q in
  let strength :=
    if is_outer_planet (transiting_planet transit)
    then (strength + 20)%Q else strength in
  let strength :=
    if negb (transit_is_exact transit =? 0)%Z
    then (strength + 20)%Q else strength in
  let strength :=
    if aspect_type_eqb (transit_aspect_type transit) ASTRO_ASPECT_CONJUNCTION
       || aspect_type_eqb (transit_aspect_type transit) ASTRO_ASPECT_OPPOSITION
       || aspect_type_eqb (transit_aspect_type transit) ASTRO_ASPECT_SQUARE
    then (strength + 10)%Q else strength in
  let strength := (strength * (1 - transit_orb transit / 10))%Q in
  if dlt strength 0 then 0
  else if dlt 100 strength then 100 else strength.

(** The loop of [astro_transits_get_most_important] from index 1 on. *)
Fixpoint most_important_scan (rest : list AstroTransit)
  (most_important : AstroTransit) (max_strength : double) : AstroTransit :=
  match rest with
  | [] => most_important
  | t :: rest' =>
      let strength := calc_transit_strength t in
      if dlt max_strength strength
      then most_important_scan rest' t strength
      else most_important_scan rest' most_important max_strength
  end.

(** [astro_transits_get_most_important]: the transit the returned pointer
    designates, [None] for NULL.  ([num_transits == 0] is the empty list.) *)
Definition astro_transits_get_most_important
  (transits : option (list AstroTransit)) : option AstroTransit :=
  match transits with
  | None => None
  | Some [] => None
  | Some (t0 :: rest) =>
      Some (most_important_scan rest t0 (calc_transit_strength t0))
  end.

Definition astro_transits_filter_by_planet
  (all_transits : option (list AstroTransit)) (p : AstroPlanet)
  (filtered : option (list AstroTransit)) (max_filtered : Z)
  (num_filtered : option Z) : built AstroTransit :=
  match all_transits, filtered, num_filtered with
  | Some all, Some _, Some _ =>
      let out := select_loop (fun t => (transiting_planet t =? p)%Z)
                   (fun t => t) all max_filtered [] in
      mkBuilt ASTRO_OK out (Some (count_of out))
  | _, _, _ => mkBuilt ASTRO_ERROR_NULL_POINTER [] num_filtered
  end.

Definition astro_transits_filter_by_aspect
  (all_transits : option (list AstroTransit)) (t : AstroAspectType)
  (filtered : option (list AstroTransit)) (max_filtered : Z)
  (num_filtered : option Z) : built AstroTransit :=
  match all_transits, filtered, num_filtered with
  | Some all, Some _, Some _ =>
      let out := select_loop
                   (fun x => aspect_type_eqb (transit_aspect_type x) t)
                   (fun x => x) all max_filtered [] in
      mkBuilt ASTRO_OK out (Some (count_of out))
  | _, _, _ => mkBuilt ASTRO_ERROR_NULL_POINTER [] num_filtered
  end.

End AstroTransits.

Export AstroTransits.


(** ** mythic_transits.c *)

Module MythicTransits.

(** The fields of [MythicTransit] that hold numbers; the name, the two
    Sabian symbol pointers, the theme and the interpretation text are left
    out (nothing below reads them, and a swap moves the whole record). *)
Record MythicTransit : Set := mkMythicTransit {
  mt_natal_planet : AstroPlanet;
  mt_natal_longitude : double;
  mt_transit_planet : AstroPlanet;
  mt_transit_longitude : double;
  mt_aspect_type : AstroAspectType;
  mt_orb : double;
  mt_is_exact : Z;
  mt_is_applying : Z;
  importance : double
}.

Definition calculate_transit_importance (transit : MythicTransit) : double :=
  let score := 50%Q in
  let score :=
    if (5 <=? mt_transit_planet transit)%Z then (score + 20)%Q else score in
  let score :=
    if (7 <=? mt_transit_planet transit)%Z then (score + 15)%Q else score in
  let score :=
    if negb (mt_is_exact transit =? 0)%Z then (score + 20)%Q
    else (score - mt_orb transit * 2)%Q in
  let score :=
    if ((mt_natal_planet transit =? 0) || (mt_natal_planet transit =? 1))%Z
    then (score + 15)%Q else score in
  let score :=
    if aspect_type_eqb (mt_aspect_type transit) ASTRO_ASPECT_CONJUNCTION
       || aspect_type_eqb (mt_aspect_type transit) ASTRO_ASPECT_OPPOSITION
       || aspect_type_eqb (mt_aspect_type transit) ASTRO_ASPECT_SQUARE
    then (score + 10)%Q else score in
  let score := if dlt score 0 then 0%Q else score in
  if dlt 100 score then 100%Q else score.

(** The inner loop of the sort in [calculate_mythic_transits],
    [for (j = 0; j < k; j++) if (t[j].importance < t[j+1].importance) swap],
    on the array from index [j] on; [k] counts the comparisons left. *)
Fixpoint bubble_pass (k : nat) (transits : list MythicTransit)
  : list MythicTransit :=
  match k, transits with
  | S k', x :: y :: rest =>
      if dlt (importance x) (importance y)
      then y :: bubble_pass k' (x :: rest)
      else x :: bubble_pass k' (y :: rest)
  | _, _ => transits
  end.

(** The outer loop, [for (i = 0; i < n - 1; i++)] with [k = n - i - 1]
    comparisons in pass [i]; [passes] counts the passes left, which is also
    the number of comparisons of the next pass. *)
Fixpoint bubble_passes (passes : nat) (transits : list MythicTransit)
  : list MythicTransit :=
  match passes with
  | O => transits
  | S passes' => bubble_passes passes' (bubble_pass passes transits)
  end.

(** "Sort by importance": the array [report->transits[0 .. num_transits-1]]
    after the two loops. *)
Definition sort_by_importance (transits : list MythicTransit)
  : list MythicTransit :=
  bubble_passes (List.length transits - 1) transits.

(** "Select top 10": the transits the pointers [top_transits[i]] designate. *)
Definition top_transits (sorted : list MythicTransit) : list MythicTransit :=
  firstn (if (List.length sorted <? 10)%nat then List.length sorted else 10%nat)
    sorted.

End MythicTransits.

Export MythicTransits.

(** ** Vocabulary for the rest of the engine *)

(** The record a pair of bodies yields, if any: the one-element list of the
    aspect stored for the pair, or the empty list. *)
Definition detected (cfg : configs) (a b : AstroPlanetPosition)
  : list AstroAspect :=
  store_aspect cfg a b [].

(** The aspects of one body with each body of a list, in list order. *)
Definition aspects_with (cfg : configs) (a : AstroPlanetPosition)
  (js : list AstroPlanetPosition) : list AstroAspect :=
  flat_map (detected cfg a) js.

(** The aspects of all pairs of a list, each body with the ones after it. *)
Fixpoint all_pairs (cfg : configs) (ps : list AstroPlanetPosition)
  : list AstroAspect :=
  match ps with
  | [] => []
  | a :: rest => aspects_with cfg a rest ++ all_pairs cfg rest
  end.

(** The aspects of each body of [firsts] with each body of [seconds]. *)
Definition cross_pairs (cfg : configs) (firsts seconds : list AstroPlanetPosition)
  : list AstroAspect :=
  flat_map (fun t => aspects_with cfg t seconds) firsts.

(** All default orbs of a table are positive. *)
Definition positive_orbs (cfg : configs) : Prop :=
  Forall (fun c => (0 < default_orb c)%Q) cfg.

(** What is left of the capacity, as a number of entries. *)
Definition room (A : Type) (max : Z) (out : list A) : nat :=
  Z.to_nat (max - count_of out).


(** What the three scans establish before they store a record.
    - Grand Trine [p1; p2; p3]: a trine stored as (p1, p2) and a trine with
      [p3] at one end and [p1] or [p2] at the other.
    - T-Square [p1; p2; c]: an opposition stored as (p1, p2) and a square
      stored as (p1, c) or (p2, c), with [c] different from both.
    - Stellium: at least three bodies in one sign; with [ids] their
      identifiers in the order of the body list (the first ASTRO_MAX_PLANETS
      of them), the participants are the first six of [ids], the count field
      holds the seventh of [ids] if there is one and the length of [ids]
      otherwise, and the element field holds the eighth of [ids] if there is
      one. *)
Definition found_as_coded (positions : list AstroPlanetPosition)
  (aspects : list AstroAspect) (p : AstroPattern) : Prop :=
  match pattern_type p with
  | ASTRO_PATTERN_GRAND_TRINE =>
      exists ai aj p3,
        In ai aspects /\ In aj aspects /\
        aspect_type ai = ASTRO_ASPECT_TRINE /\
        aspect_type aj = ASTRO_ASPECT_TRINE /\
        planets p = [planet1 ai; planet2 ai; p3] /\
        (0 <= p3)%Z /\
        (((planet1 aj = planet1 ai \/ planet1 aj = planet2 ai) /\ planet2 aj = p3)
         \/
         ((planet2 aj = planet1 ai \/ planet2 aj = planet2 ai) /\ planet1 aj = p3))
  | ASTRO_PATTERN_T_SQUARE =>
      exists ai aj,
        In ai aspects /\ In aj aspects /\
        aspect_type ai = ASTRO_ASPECT_OPPOSITION /\
        aspect_type aj = ASTRO_ASPECT_SQUARE /\
        planets p = [planet1 ai; planet2 ai; planet2 aj] /\
        (planet1 aj = planet1 ai \/ planet1 aj = planet2 ai) /\
        planet2 aj <> planet1 ai /\ planet2 aj <> planet2 ai
  | ASTRO_PATTERN_STELLIUM =>
      exists s,
        (0 <= s < 12)%Z /\
        let ids :=
          map planet
            (firstn (Z.to_nat ASTRO_MAX_PLANETS)
               (filter (fun x => (sign x =? s)%Z) positions)) in
        (3 <= List.length ids)%nat /\
        planets p = firstn 6 ids /\
        num_planets p
        = match nth_error ids 6 with
          | Some id => id
          | None => Z.of_nat (List.length ids)
          end /\
        element p = nth_error ids 7
  | _ => False
  end.

(** The records of one family. *)
Definition of_family (t : AstroPatternType) (p : AstroPattern) : Prop :=
  pattern_type p = t.


(** [f] keeps what is stored and adds records satisfying [Q] only. *)
Definition appends_only (A : Type) (Q : A -> Prop) (f : list A -> list A)
  : Prop :=
  forall out, exists more, f out = out ++ more /\ Forall Q more.

(** A record of family [t] that rests on what the scan of that family
    tests. *)
Definition sound_record (positions : list AstroPlanetPosition)
  (aspects : list AstroAspect) (t : AstroPatternType) (p : AstroPattern)
  : Prop :=
  of_family t p /\ found_as_coded positions aspects p.


(** Equality of elements and of modalities, as the C comparison of the
    enumerators. *)
Definition element_eqb (a b : AstroElement) : bool :=
  (element_value a =? element_value b)%Z.
Definition modality_eqb (a b : AstroModality) : bool :=
  (modality_value a =? modality_value b)%Z.

(** The number of bodies whose sign has a given element, a given modality. *)
Definition bodies_of_element (ps : list AstroPlanetPosition) (e : AstroElement)
  : Z :=
  count_of (filter (fun x => element_eqb (astro_core_get_sign_element (sign x)) e) ps).
Definition bodies_of_modality (ps : list AstroPlanetPosition) (m : AstroModality)
  : Z :=
  count_of (filter (fun x => modality_eqb (astro_core_get_sign_modality (sign x)) m) ps).

(** The count a balance record holds for an element, for a modality. *)
Definition element_count (b : AstroElementBalance) (e : AstroElement) : Z :=
  match e with
  | ASTRO_ELEMENT_FIRE => fire_count b
  | ASTRO_ELEMENT_EARTH => earth_count b
  | ASTRO_ELEMENT_AIR => air_count b
  | ASTRO_ELEMENT_WATER => water_count b
  end.
Definition modality_count (b : AstroModalityBalance) (m : AstroModality) : Z :=
  match m with
  | ASTRO_MODALITY_CARDINAL => cardinal_count b
  | ASTRO_MODALITY_FIXED => fixed_count b
  | ASTRO_MODALITY_MUTABLE => mutable_count b
  end.

(** Non-increasing importance. *)
Definition at_least_as_important (x y : MythicTransit) : Prop :=
  (importance y <= importance x)%Q.

(** * Properties *)

(** ** Comparisons on doubles *)

Lemma dle_true (x y : double) : dle x y = true <-> (x <= y)%Q.
Proof. apply Qle_bool_iff. Qed.

Lemma dle_false (x y : double) : dle x y = false <-> (y < x)%Q.
Proof.
  unfold dle. split; intro H.
  - apply Qnot_le_lt. intro Hle. apply Qle_bool_iff in Hle. congruence.
  - destruct (Qle_bool x y) eqn:E; [|reflexivity].
    apply Qle_bool_iff in E. exfalso. apply (Qlt_not_le _ _ H E).
Qed.

Lemma dlt_true (x y : double) : dlt x y = true <-> (x < y)%Q.
Proof. unfold dlt. rewrite negb_true_iff. apply dle_false. Qed.

Lemma dlt_false (x y : double) : dlt x y = false <-> (y <= x)%Q.
Proof. unfold dlt. rewrite negb_false_iff. apply dle_true. Qed.

(** Case analysis on a comparison, with the order facts in the context. *)
Ltac case_dlt x y H :=
  destruct (dlt x y) eqn:H; [apply dlt_true in H | apply dlt_false in H].
Ltac case_dle x y H :=
  destruct (dle x y) eqn:H; [apply dle_true in H | apply dle_false in H].

(** ** Aspect types *)

Lemma aspect_value_inj (a b : AstroAspectType) :
  aspect_value a = aspect_value b -> a = b.
Proof. destruct a, b; simpl; intro H; first [reflexivity | discriminate H]. Qed.

Lemma aspect_type_eqb_eq (a b : AstroAspectType) :
  aspect_type_eqb a b = true <-> a = b.
Proof.
  unfold aspect_type_eqb. rewrite Z.eqb_eq. split.
  - apply aspect_value_inj.
  - intros ->. reflexivity.
Qed.

Lemma aspect_type_eqb_refl (a : AstroAspectType) : aspect_type_eqb a a = true.
Proof. apply aspect_type_eqb_eq. reflexivity. Qed.

Lemma aspect_type_eqb_neq (a b : AstroAspectType) :
  aspect_type_eqb a b = false <-> a <> b.
Proof.
  split.
  - intros H E. apply aspect_type_eqb_eq in E. congruence.
  - intro N. destruct (aspect_type_eqb a b) eqn:E; [|reflexivity].
    apply aspect_type_eqb_eq in E. contradiction.
Qed.

(** ** Angular distance *)

Section AngularDistance.

Variables a b : double.

Lemma angular_distance_sym :
  astro_core_angular_distance a b = astro_core_angular_distance b a.
Proof.
  unfold astro_core_angular_distance, fabs.
  rewrite (Qabs_Qminus b a). reflexivity.
Qed.

Lemma angular_distance_le_180 : (astro_core_angular_distance a b <= 180)%Q.
Proof.
  unfold astro_core_angular_distance, fabs.
  case_dlt 180%Q (Qabs (b - a)) H; lra.
Qed.

Lemma angular_distance_nonneg_iff :
  (0 <= astro_core_angular_distance a b)%Q <-> (Qabs (b - a) <= 360)%Q.
Proof.
  unfold astro_core_angular_distance, fabs.
  pose proof (Qabs_nonneg (b - a)) as Hd.
  case_dlt 180%Q (Qabs (b - a)) H; split; intro; lra.
Qed.

End AngularDistance.

(** Longitudes in the canonical range are at most a full turn apart. *)
Lemma canonical_longitudes_close (a b : double) :
  (0 <= a < 360)%Q -> (0 <= b < 360)%Q -> (Qabs (b - a) <= 360)%Q.
Proof.
  intros Ha Hb. apply Qabs_Qle_condition. lra.
Qed.

(** The function folds once and does not normalise its arguments: the
    result is at most 180 for all doubles, and it is non-negative exactly
    when the two are at most a full turn apart. *)
Lemma angular_distance_range_iff (a b : double) :
  (0 <= astro_core_angular_distance a b <= 180)%Q <-> (Qabs (b - a) <= 360)%Q.
Proof.
  pose proof (angular_distance_le_180 a b) as Hle.
  pose proof (angular_distance_nonneg_iff a b) as Hiff.
  split.
  - intros [H0 _]. apply Hiff. exact H0.
  - intro H. split; [apply Hiff; exact H | exact Hle].
Qed.

(** Two doubles more than a full turn apart (not both longitudes). *)
Lemma angular_distance_beyond_full_turn :
  astro_core_angular_distance 0 1000 = (-640)%Q.
Proof. reflexivity. Qed.

(** C10: for all longitudes [a] and [b], that is degrees in [0,360), the
    angular distance of [a] and [b] equals that of [b] and [a] and lies in
    [0,180].  It is the absolute difference of the two when that is at most
    180, and 360 minus the absolute difference otherwise. *)
Theorem C10_angular_distance_longitudes (a b : double) :
  (0 <= a < 360)%Q -> (0 <= b < 360)%Q ->
  astro_core_angular_distance a b = astro_core_angular_distance b a /\
  (0 <= astro_core_angular_distance a b <= 180)%Q /\
  ((Qabs (b - a) <= 180)%Q ->
   astro_core_angular_distance a b = Qabs (b - a)) /\
  ((180 < Qabs (b - a))%Q ->
   astro_core_angular_distance a b = (360 - Qabs (b - a))%Q).
Proof.
  intros Ha Hb.
  split; [apply angular_distance_sym|]. split.
  - apply angular_distance_range_iff.
    apply canonical_longitudes_close; assumption.
  - unfold astro_core_angular_distance, fabs.
    case_dlt 180%Q (Qabs (b - a)) H; split; intro H'; try reflexivity;
      exfalso; lra.
Qed.

Lemma C10_angular_distance_longitudes_witness :
  astro_core_angular_distance 10 350 = astro_core_angular_distance 350 10 /\
  (0 <= astro_core_angular_distance 10 350 <= 180)%Q /\
  astro_core_angular_distance 10 350 = 20%Q.
Proof.
  destruct (@C10_angular_distance_longitudes 10 350) as (Hsym & Hrange & _).
  - split; reflexivity || discriminate.
  - split; reflexivity || discriminate.
  - split; [exact Hsym|]. split; [exact Hrange|]. reflexivity.
Defined.

(** ** The orb table *)

Lemma set_orb_types (cfg : configs) (t : AstroAspectType) (o : double) :
  map cfg_aspect_type (astro_aspects_set_orb cfg t o) = map cfg_aspect_type cfg.
Proof.
  induction cfg as [|c rest IH]; simpl; [reflexivity|].
  destruct (aspect_type_eqb (cfg_aspect_type c) t); simpl; congruence.
Qed.

Lemma set_orb_tight (cfg : configs) (t : AstroAspectType) (o : double) :
  map tight_orb (astro_aspects_set_orb cfg t o) = map tight_orb cfg.
Proof.
  induction cfg as [|c rest IH]; simpl; [reflexivity|].
  destruct (aspect_type_eqb (cfg_aspect_type c) t); simpl; congruence.
Qed.

(** Every table the process can hold lists the eleven families in the
    registration order, with the built-in tight orbs. *)
Lemma reachable_types (cfg : configs) :
  reachable cfg -> map cfg_aspect_type cfg = registration_order.
Proof.
  induction 1 as [|cfg t o _ IH|cfg _ _]; try reflexivity.
  rewrite set_orb_types. exact IH.
Qed.

Lemma reachable_tight (cfg : configs) :
  reachable cfg -> map tight_orb cfg = map tight_orb g_aspect_configs.
Proof.
  induction 1 as [|cfg t o _ IH|cfg _ _]; try reflexivity.
  rewrite set_orb_tight. exact IH.
Qed.

Lemma registration_order_NoDup : NoDup registration_order.
Proof.
  unfold registration_order.
  repeat (constructor; [simpl; intuition discriminate|]). constructor.
Qed.

Lemma get_aspect_config_type (cfg : configs) (t : AstroAspectType)
  (c : AstroAspectConfig) :
  get_aspect_config cfg t = Some c -> cfg_aspect_type c = t /\ In c cfg.
Proof.
  induction cfg as [|c0 rest IH]; simpl; [discriminate|].
  destruct (aspect_type_eqb (cfg_aspect_type c0) t) eqn:E.
  - intro H. injection H as <-. apply aspect_type_eqb_eq in E. auto.
  - intro H. destruct (IH H). auto.
Qed.

(** In a table without repeated families, looking a family up returns the
    one entry of that family. *)
Lemma get_aspect_config_at (pre post : configs) (c : AstroAspectConfig) :
  NoDup (map cfg_aspect_type (pre ++ c :: post)) ->
  get_aspect_config (pre ++ c :: post) (cfg_aspect_type c) = Some c.
Proof.
  induction pre as [|c0 pre IH]; simpl; intro ND.
  - rewrite aspect_type_eqb_refl. reflexivity.
  - inversion ND as [|x l Hnotin ND']; subst.
    destruct (aspect_type_eqb (cfg_aspect_type c0) (cfg_aspect_type c)) eqn:E.
    + apply aspect_type_eqb_eq in E. exfalso. apply Hnotin.
      rewrite E, map_app. apply in_or_app. right. left. reflexivity.
    + apply IH. exact ND'.
Qed.

Lemma get_orb_set_orb (cfg : configs) (t : AstroAspectType) (o : double) :
  In t (map cfg_aspect_type cfg) ->
  astro_aspects_get_orb (astro_aspects_set_orb cfg t o) t = o.
Proof.
  unfold astro_aspects_get_orb.
  induction cfg as [|c rest IH]; simpl; [contradiction|].
  intros Hin. destruct (aspect_type_eqb (cfg_aspect_type c) t) eqn:E; simpl.
  - rewrite E. reflexivity.
  - rewrite E. apply IH. destruct Hin as [Hc|Hin]; [|exact Hin].
    apply aspect_type_eqb_neq in E. contradiction.
Qed.

(** ** The aspect detector *)

(** The scan returns the first qualifying entry of the table, whatever the
    table. *)
Lemma check_aspect_scan_first (angular_dist : double) (cfg : configs) :
  match check_aspect_scan angular_dist cfg with
  | Some (ty, d) =>
      exists pre c post,
        cfg = pre ++ c :: post /\
        Forall (fun c' => ~ within_orb angular_dist c') pre /\
        within_orb angular_dist c /\
        ty = cfg_aspect_type c /\ d = orb_diff angular_dist c
  | None => Forall (fun c' => ~ within_orb angular_dist c') cfg
  end.
Proof.
  induction cfg as [|c rest IH]; simpl; [constructor|].
  case_dle (orb_diff angular_dist c) (default_orb c) H.
  - exists [], c, rest. repeat split; auto.
  - assert (Hc : ~ within_orb angular_dist c).
    { unfold within_orb. intro Hw. apply (Qlt_not_le _ _ H Hw). }
    destruct (check_aspect_scan angular_dist rest) as [[ty d]|].
    + destruct IH as (pre & c1 & post & -> & Hpre & Hw & Hty & Hd).
      exists (c :: pre), c1, post. repeat split; auto.
    + constructor; assumption.
Qed.

(** The entry whose type the scan returned exists in the table, so the
    unchecked dereference in [astro_aspects_calc_aspect] is safe. *)
Lemma check_found_config (cfg : configs) (lon1 lon2 : double)
  (ty : AstroAspectType) (d : double) :
  astro_aspects_check_aspect cfg lon1 lon2 = Some (ty, d) ->
  exists c, get_aspect_config cfg ty = Some c.
Proof.
  unfold astro_aspects_check_aspect.
  generalize (astro_core_angular_distance lon1 lon2) as dist. intro dist.
  induction cfg as [|c rest IH]; simpl; [discriminate|].
  destruct (dle (orb_diff dist c) (default_orb c)).
  - intro H. injection H as <- _. rewrite aspect_type_eqb_refl. eauto.
  - intro H. destruct (aspect_type_eqb (cfg_aspect_type c) ty); eauto.
Qed.

(** C6: on every table the process can hold, the eleven families stand in
    the registration order Conjunction, Opposition, Trine, Square, Sextile,
    Quincunx, Semisextile, Semisquare, Sesquiquadrate, Quintile, Biquintile,
    with the target angles 0, 180, 120, 90, 60, 150, 30, 45, 135, 72, 144.
    For two longitudes whose absolute difference is [sep], the angular
    distance [dist] is [sep] when that is at most 180 and 360 - [sep]
    otherwise, and [astro_aspects_check_aspect] returns the first entry, in
    that order, whose target angle differs from [dist] by at most the entry's
    current default orb: all entries before it are further from [dist] than
    their orb, entries after it play no part.  The orb it returns with the
    family is the absolute difference between [dist] and the target angle.
    It reports no match exactly when no entry qualifies. *)
Theorem C6_check_aspect_first_match (cfg : configs) (lon1 lon2 : double) :
  reachable cfg ->
  map (fun c => (cfg_aspect_type c, aspect_value (cfg_aspect_type c))) cfg
  = [ (ASTRO_ASPECT_CONJUNCTION, 0); (ASTRO_ASPECT_OPPOSITION, 180);
      (ASTRO_ASPECT_TRINE, 120); (ASTRO_ASPECT_SQUARE, 90);
      (ASTRO_ASPECT_SEXTILE, 60); (ASTRO_ASPECT_QUINCUNX, 150);
      (ASTRO_ASPECT_SEMISEXTILE, 30); (ASTRO_ASPECT_SEMISQUARE, 45);
      (ASTRO_ASPECT_SESQUIQUADRATE, 135); (ASTRO_ASPECT_QUINTILE, 72);
      (ASTRO_ASPECT_BIQUINTILE, 144) ]%Z /\
  let sep := Qabs (lon2 - lon1) in
  let dist := astro_core_angular_distance lon1 lon2 in
  let target := fun c : AstroAspectConfig =>
                  inject_Z (aspect_value (cfg_aspect_type c)) in
  ((sep <= 180)%Q -> dist = sep) /\
  ((180 < sep)%Q -> dist = (360 - sep)%Q) /\
  match astro_aspects_check_aspect cfg lon1 lon2 with
  | Some (ty, d) =>
      exists pre c post,
        cfg = pre ++ c :: post /\
        Forall (fun c' => ~ (Qabs (dist - target c') <= default_orb c')%Q) pre /\
        (Qabs (dist - target c) <= default_orb c)%Q /\
        ty = cfg_aspect_type c /\
        d = Qabs (dist - target c) /\
        default_orb c = astro_aspects_get_orb cfg ty
  | None =>
      Forall (fun c' => ~ (Qabs (dist - target c') <= default_orb c')%Q) cfg
  end.
Proof.
  intro Hreach. pose proof (reachable_types Hreach) as Htypes.
  split.
  { rewrite <- (map_map cfg_aspect_type (fun t => (t, aspect_value t))).
    rewrite Htypes. reflexivity. }
  intros sep dist target.
  split.
  { intro Hsep. unfold dist, astro_core_angular_distance, fabs. fold sep.
    case_dlt 180%Q sep H; [exfalso; lra|reflexivity]. }
  split.
  { intro Hsep. unfold dist, astro_core_angular_distance, fabs. fold sep.
    case_dlt 180%Q sep H; [reflexivity|exfalso; lra]. }
  unfold astro_aspects_check_aspect. fold dist.
  pose proof (check_aspect_scan_first dist cfg) as Hscan.
  destruct (check_aspect_scan dist cfg) as [[ty d]|]; [|exact Hscan].
  destruct Hscan as (pre & c & post & Hcfg & Hpre & Hw & Hty & Hd).
  exists pre, c, post.
  split; [exact Hcfg|]. split; [exact Hpre|]. split; [exact Hw|].
  split; [exact Hty|]. split; [exact Hd|].
  unfold astro_aspects_get_orb. subst ty. rewrite Hcfg.
  rewrite get_aspect_config_at; [reflexivity|].
  rewrite <- Hcfg, Htypes. apply registration_order_NoDup.
Qed.

Lemma C6_check_aspect_witness :
  astro_aspects_check_aspect
    (astro_aspects_set_orb g_aspect_configs ASTRO_ASPECT_CONJUNCTION 40) 0 30
  = Some (ASTRO_ASPECT_CONJUNCTION, 30%Q) /\
  map cfg_aspect_type
    (astro_aspects_set_orb g_aspect_configs ASTRO_ASPECT_CONJUNCTION 40)
  = registration_order /\
  match astro_aspects_check_aspect
          (astro_aspects_set_orb g_aspect_configs ASTRO_ASPECT_CONJUNCTION 40)
          0 30 with
  | Some (ty, d) => d = Qabs (30 - inject_Z (aspect_value ty))
  | None => False
  end.
Proof.
  split; [reflexivity|]. split; [reflexivity|].
  destruct (@C6_check_aspect_first_match
              (astro_aspects_set_orb g_aspect_configs
                 ASTRO_ASPECT_CONJUNCTION 40) 0 30
              (reach_set_orb ASTRO_ASPECT_CONJUNCTION 40 reach_init))
    as (_ & _ & _ & H).
  cbv zeta in H.
  destruct (astro_aspects_check_aspect
              (astro_aspects_set_orb g_aspect_configs
                 ASTRO_ASPECT_CONJUNCTION 40) 0 30) as [[ty d]|] eqn:E.
  - destruct H as (pre & c & post & _ & _ & _ & Hty & Hd & _).
    rewrite Hd, Hty. reflexivity.
  - discriminate E.
Defined.

(** On a table the process can hold, the entry that the scan matched is the
    entry a lookup of its family returns. *)
Lemma check_aspect_matched_entry (cfg : configs) (lon1 lon2 : double)
  (ty : AstroAspectType) (d : double) :
  reachable cfg ->
  astro_aspects_check_aspect cfg lon1 lon2 = Some (ty, d) ->
  exists c,
    get_aspect_config cfg ty = Some c /\
    d = orb_diff (astro_core_angular_distance lon1 lon2) c /\
    (d <= default_orb c)%Q.
Proof.
  intros Hreach Hcheck.
  unfold astro_aspects_check_aspect in Hcheck.
  pose proof (check_aspect_scan_first
                (astro_core_angular_distance lon1 lon2) cfg) as Hscan.
  rewrite Hcheck in Hscan.
  destruct Hscan as (pre & c & post & Hcfg & _ & Hw & Hty & Hd).
  exists c. subst ty d. repeat split; [|exact Hw].
  rewrite Hcfg. apply get_aspect_config_at.
  rewrite <- Hcfg, (reachable_types Hreach). apply registration_order_NoDup.
Qed.

(** What a successful call stores does not depend on what the record held
    before. *)
Lemma calc_aspect_ok_any_buffer (cfg : configs) (p1 p2 : AstroPlanetPosition)
  (a0 a0' a : AstroAspect) :
  astro_aspects_calc_aspect cfg (Some p1) (Some p2) (Some a0) = (ASTRO_OK, Some a) ->
  astro_aspects_calc_aspect cfg (Some p1) (Some p2) (Some a0') = (ASTRO_OK, Some a).
Proof.
  unfold astro_aspects_calc_aspect.
  destruct (planet p1 =? planet p2)%Z; [discriminate|].
  destruct (astro_aspects_check_aspect cfg (longitude p1) (longitude p2))
    as [[ty d]|]; [|discriminate].
  simpl. intro H. exact H.
Qed.



(** C8: two body records with the same identifier make
    [astro_aspects_calc_aspect] return ASTRO_ERROR_INVALID_PLANET whatever
    their longitudes (and leave the output record alone); that code differs
    from ASTRO_ERROR_NULL_POINTER, which a NULL argument gives, from
    ASTRO_ERROR_CALCULATION, which two different bodies with no family within
    orb give, and from ASTRO_OK. *)
Theorem C8_no_self_aspect (cfg : configs) (p1 p2 : AstroPlanetPosition)
  (a0 : AstroAspect) :
  planet p1 = planet p2 ->
  astro_aspects_calc_aspect cfg (Some p1) (Some p2) (Some a0)
  = (ASTRO_ERROR_INVALID_PLANET, Some a0) /\
  ASTRO_ERROR_INVALID_PLANET <> ASTRO_ERROR_NULL_POINTER /\
  ASTRO_ERROR_INVALID_PLANET <> ASTRO_ERROR_CALCULATION /\
  ASTRO_ERROR_INVALID_PLANET <> ASTRO_OK /\
  (forall pos1 pos2 aspect,
     pos1 = None \/ pos2 = None \/ aspect = None ->
     astro_aspects_calc_aspect cfg pos1 pos2 aspect
     = (ASTRO_ERROR_NULL_POINTER, aspect)) /\
  (forall q1 q2 b0,
     planet q1 <> planet q2 ->
     astro_aspects_check_aspect cfg (longitude q1) (longitude q2) = None ->
     astro_aspects_calc_aspect cfg (Some q1) (Some q2) (Some b0)
     = (ASTRO_ERROR_CALCULATION, Some b0)).
Proof.
  intro Hsame. unfold astro_aspects_calc_aspect.
  split; [rewrite Hsame, Z.eqb_refl; reflexivity|].
  repeat (split; [discriminate|]). split.
  - intros pos1 pos2 aspect [->|[->| ->]];
      [| destruct pos1 | destruct pos1; [destruct pos2|]]; reflexivity.
  - intros q1 q2 b0 Hne Hnone.
    apply Z.eqb_neq in Hne. rewrite Hne, Hnone. reflexivity.
Qed.

Lemma C8_no_self_aspect_witness :
  astro_aspects_calc_aspect g_aspect_configs
    (Some (mkPosition 3%Z 10 1 0%Z "Venus"%string))
    (Some (mkPosition 3%Z 130 0 4%Z "Venus"%string))
    (Some aspect_uninit)
  = (ASTRO_ERROR_INVALID_PLANET, Some aspect_uninit).
Proof.
  apply (@C8_no_self_aspect g_aspect_configs
           (mkPosition 3%Z 10 1 0%Z "Venus"%string)
           (mkPosition 3%Z 130 0 4%Z "Venus"%string) aspect_uninit).
  reflexivity.
Defined.



(** ** The aspect set builders *)

Lemma count_of_app (A : Type) (out : list A) (x : A) :
  count_of (out ++ [x]) = (count_of out + 1)%Z.
Proof. unfold count_of. rewrite length_app. simpl. lia. Qed.

Lemma store_aspect_count (cfg : configs) (a b : AstroPlanetPosition)
  (out : list AstroAspect) :
  (count_of out <= count_of (store_aspect cfg a b out) <= count_of out + 1)%Z.
Proof.
  unfold store_aspect.
  destruct (astro_aspects_calc_aspect cfg (Some a) (Some b) (Some aspect_uninit))
    as [code [asp|]]; [|lia].
  destruct (code =? ASTRO_OK)%Z; [rewrite count_of_app|]; lia.
Qed.

Lemma aspects_inner_bounded (cfg : configs) (a : AstroPlanetPosition)
  (js : list AstroPlanetPosition) (max_aspects : Z) :
  forall out,
    (count_of out <= max_aspects)%Z ->
    (count_of (aspects_inner cfg a js max_aspects out) <= max_aspects)%Z.
Proof.
  induction js as [|b js IH]; simpl; intros out Hout; [exact Hout|].
  destruct (Z.ltb_spec (count_of out) max_aspects) as [Hlt|Hge]; [|exact Hout].
  apply IH. pose proof (store_aspect_count cfg a b out). lia.
Qed.

Lemma calc_all_loop_bounded (cfg : configs) (max_aspects : Z)
  (positions : list AstroPlanetPosition) :
  forall out,
    (count_of out <= max_aspects)%Z ->
    (count_of (calc_all_loop cfg positions max_aspects out) <= max_aspects)%Z.
Proof.
  induction positions as [|a rest IH]; simpl; intros out Hout; [exact Hout|].
  destruct (count_of out <? max_aspects)%Z; [|exact Hout].
  apply IH. apply aspects_inner_bounded. exact Hout.
Qed.

Lemma between_charts_loop_bounded (cfg : configs) (max_aspects : Z)
  (natal transit : list AstroPlanetPosition) :
  forall out,
    (count_of out <= max_aspects)%Z ->
    (count_of (between_charts_loop cfg natal transit max_aspects out)
     <= max_aspects)%Z.
Proof.
  induction transit as [|t rest IH]; simpl; intros out Hout; [exact Hout|].
  destruct (count_of out <? max_aspects)%Z; [|exact Hout].
  apply IH. apply aspects_inner_bounded. exact Hout.
Qed.

(** The two aspect set builders keep to the capacity they are given and
    report success. *)
Lemma calc_all_within_capacity (cfg : configs)
  (positions : list AstroPlanetPosition) (buf : list AstroAspect)
  (max_aspects n0 : Z) :
  (0 <= max_aspects)%Z ->
  let r := astro_aspects_calc_all cfg (Some positions) (Some buf) max_aspects
             (Some n0) in
  status r = ASTRO_OK /\
  num_stored r = Some (count_of (stored r)) /\
  (count_of (stored r) <= max_aspects)%Z.
Proof.
  intros Hmax. simpl. repeat split.
  apply calc_all_loop_bounded. exact Hmax.
Qed.

Lemma calc_between_charts_within_capacity (cfg : configs)
  (natal transit : list AstroPlanetPosition) (buf : list AstroAspect)
  (max_aspects n0 : Z) :
  (0 <= max_aspects)%Z ->
  let r := astro_aspects_calc_between_charts cfg (Some natal) (Some transit)
             (Some buf) max_aspects (Some n0) in
  status r = ASTRO_OK /\
  num_stored r = Some (count_of (stored r)) /\
  (count_of (stored r) <= max_aspects)%Z.
Proof.
  intros Hmax. simpl. repeat split.
  apply between_charts_loop_bounded. exact Hmax.
Qed.

(** ** The pattern detector *)

(** The search for the third side of the triangle always succeeds: the
    second trine of the pair, which joins the third body to the shared one,
    satisfies its condition. *)
Lemma third_side_always_found (aspects : list AstroAspect)
  (ai aj : AstroAspect) :
  In aj aspects ->
  is_trine aj = true ->
  (planet1 aj = planet1 ai \/ planet1 aj = planet2 ai \/
   planet2 aj = planet1 ai \/ planet2 aj = planet2 ai) ->
  existsb
    (third_side (planet1 ai) (planet2 ai)
       (third_planet_of (planet1 ai) (planet2 ai) (planet1 aj) (planet2 aj)))
    aspects = true.
Proof.
  intros Hin Htrine Hshare. apply existsb_exists. exists aj.
  split; [exact Hin|].
  unfold third_side, third_planet_of. rewrite Htrine. simpl.
  repeat match goal with
         | |- context [(?x =? ?y)%Z] => destruct (Z.eqb_spec x y)
         end; simpl; solve [reflexivity | congruence | tauto].
Qed.

(** Likewise the search for the second square of a T-Square: the square that
    made the body a candidate satisfies its condition. *)
Lemma square_to_pair_always_found (aspects : list AstroAspect)
  (ai aj : AstroAspect) :
  In aj aspects ->
  is_square aj = true ->
  (planet1 aj = planet1 ai \/ planet1 aj = planet2 ai) ->
  existsb (square_to_pair (planet1 ai) (planet2 ai) (planet2 aj)) aspects = true.
Proof.
  intros Hin Hsq Hend. apply existsb_exists. exists aj.
  split; [exact Hin|].
  unfold square_to_pair. rewrite Hsq. simpl.
  repeat match goal with
         | |- context [(?x =? ?y)%Z] => destruct (Z.eqb_spec x y)
         end; simpl; solve [reflexivity | congruence | tauto].
Qed.

(** So two trines that share a body are enough for a Grand Trine record. *)
Lemma grand_trine_step_two_edges (positions : list AstroPlanetPosition)
  (aspects : list AstroAspect) (ai aj : AstroAspect) (out : list AstroPattern) :
  In aj aspects ->
  is_trine aj = true ->
  (planet1 aj = planet1 ai \/ planet1 aj = planet2 ai \/
   planet2 aj = planet1 ai \/ planet2 aj = planet2 ai) ->
  let third_planet :=
    third_planet_of (planet1 ai) (planet2 ai) (planet1 aj) (planet2 aj) in
  (0 <= third_planet)%Z ->
  grand_trine_step positions aspects ai aj out
  = out ++ [grand_trine_pattern positions (planet1 ai) (planet2 ai) third_planet].
Proof.
  intros Hin Htrine Hshare third_planet Hthird.
  unfold grand_trine_step. rewrite Htrine. fold third_planet.
  apply Z.leb_le in Hthird. rewrite Hthird.
  unfold third_planet. rewrite third_side_always_found by assumption.
  reflexivity.
Qed.

(** And an opposition with one square from either end is enough for a
    T-Square record. *)
Lemma t_square_step_one_square (positions : list AstroPlanetPosition)
  (aspects : list AstroAspect) (ai aj : AstroAspect) (out : list AstroPattern) :
  In aj aspects ->
  is_square aj = true ->
  (planet1 aj = planet1 ai \/ planet1 aj = planet2 ai) ->
  planet2 aj <> planet1 ai ->
  planet2 aj <> planet2 ai ->
  t_square_step positions aspects ai aj out
  = out ++ [t_square_pattern positions (planet1 ai) (planet2 ai) (planet2 aj)].
Proof.
  intros Hin Hsq Hend N1 N2.
  unfold t_square_step. rewrite Hsq.
  rewrite square_to_pair_always_found by assumption.
  apply Z.eqb_neq in N1. apply Z.eqb_neq in N2. rewrite N1, N2. simpl.
  repeat match goal with
         | |- context [(?x =? ?y)%Z] => destruct (Z.eqb_spec x y)
         end; simpl; solve [reflexivity | congruence | tauto].
Qed.

(** *** Participants of the stored patterns *)

Lemma Forall_snoc (A : Type) (P : A -> Prop) (l : list A) (x : A) :
  Forall P l -> P x -> Forall P (l ++ [x]).
Proof.
  intros Hl Hx. apply Forall_app. split; [exact Hl|]. constructor; [exact Hx|constructor].
Qed.

Lemma grand_trine_step_ok positions aspects ai aj out :
  Forall participants_ok out ->
  Forall participants_ok (grand_trine_step positions aspects ai aj out).
Proof.
  intro Hout. unfold grand_trine_step.
  destruct (is_trine aj); [|exact Hout].
  destruct (0 <=? _)%Z; [|exact Hout].
  destruct (existsb _ aspects); [|exact Hout].
  apply Forall_snoc; [exact Hout|]. split; reflexivity.
Qed.

Lemma grand_trine_inner_ok positions aspects ai js :
  forall out,
    Forall participants_ok out ->
    Forall participants_ok (grand_trine_inner positions aspects ai js out).
Proof.
  induction js as [|aj js IH]; simpl; intros out Hout; [exact Hout|].
  apply IH. apply grand_trine_step_ok. exact Hout.
Qed.

Lemma grand_trine_loop_ok positions aspects max_patterns from_i :
  forall out,
    Forall participants_ok out ->
    Forall participants_ok
      (grand_trine_loop positions aspects from_i max_patterns out).
Proof.
  induction from_i as [|ai rest IH]; simpl; intros out Hout; [exact Hout|].
  destruct (count_of out <? max_patterns)%Z; [|exact Hout].
  apply IH. destruct (is_trine ai); [|exact Hout].
  apply grand_trine_inner_ok. exact Hout.
Qed.

Lemma t_square_step_ok positions aspects ai aj out :
  Forall participants_ok out ->
  Forall participants_ok (t_square_step positions aspects ai aj out).
Proof.
  intro Hout. unfold t_square_step.
  destruct (is_square aj); [|exact Hout].
  match goal with |- context [if ?c then _ else _] => destruct c end;
    [|exact Hout].
  destruct (existsb _ aspects); [|exact Hout].
  apply Forall_snoc; [exact Hout|]. split; reflexivity.
Qed.

Lemma t_square_inner_ok positions aspects ai js :
  forall out,
    Forall participants_ok out ->
    Forall participants_ok (t_square_inner positions aspects ai js out).
Proof.
  induction js as [|aj js IH]; simpl; intros out Hout; [exact Hout|].
  apply IH. apply t_square_step_ok. exact Hout.
Qed.

Lemma t_square_loop_ok positions aspects max_patterns from_i :
  forall out,
    Forall participants_ok out ->
    Forall participants_ok
      (t_square_loop positions aspects from_i max_patterns out).
Proof.
  induction from_i as [|ai rest IH]; simpl; intros out Hout; [exact Hout|].
  destruct (count_of out <? max_patterns)%Z; [|exact Hout].
  apply IH. destruct (is_opposition ai); [|exact Hout].
  apply t_square_inner_ok. exact Hout.
Qed.

Lemma collect_in_sign_bounded (s : Z) (from_i : list AstroPlanetPosition) :
  forall i acc,
    (count_of acc <= ASTRO_MAX_PLANETS)%Z ->
    (count_of (collect_in_sign s from_i i acc) <= ASTRO_MAX_PLANETS)%Z.
Proof.
  induction from_i as [|p rest IH]; simpl; intros i acc Hacc; [exact Hacc|].
  destruct (Z.ltb_spec (count_of acc) ASTRO_MAX_PLANETS) as [Hlt|Hge];
    [|exact Hacc].
  apply IH. destruct (sign p =? s)%Z; [rewrite count_of_app|]; lia.
Qed.

(** From index 8 on, the participant loop changes no field of the record. *)
Lemma store_participants_beyond (ids : list AstroPlanet) :
  forall i p, (8 <= i)%nat -> store_participants ids i p = p.
Proof.
  induction ids as [|id rest IH]; simpl; intros i p Hi; [reflexivity|].
  rewrite IH by lia. unfold store_participant.
  destruct (Nat.ltb_spec i 6); [lia|].
  destruct (Nat.eqb_spec i 6); [lia|].
  destruct (Nat.eqb_spec i 7); [lia|]. reflexivity.
Qed.

(** What the participant loop leaves in a record whose slots were empty:
    the first six identifiers in the slots, the seventh in the count field,
    the eighth in the element field. *)
Lemma store_participants_fields (ids : list AstroPlanet) (p : AstroPattern) :
  planets p = [] ->
  let r := store_participants ids 0 p in
  pattern_type r = pattern_type p /\
  planets r = firstn 6 ids /\
  num_planets r
  = match nth_error ids 6 with Some id => id | None => num_planets p end /\
  element r
  = match nth_error ids 7 with Some id => Some id | None => element p end /\
  description r = description p.
Proof.
  destruct p as [ty pl n e d]. simpl. intros ->.
  destruct ids as [|a [|b [|c [|d' [|e' [|f [|g [|h rest]]]]]]]];
    try (repeat split; reflexivity).
  cbn [store_participants]. rewrite store_participants_beyond by lia.
  repeat split; reflexivity.
Qed.

Lemma stellium_step_ok positions s out :
  Forall participants_ok out ->
  Forall participants_ok (stellium_step positions s out).
Proof.
  intro Hout. unfold stellium_step. cbv zeta.
  destruct (Z.leb_spec 3 (count_of (collect_in_sign s positions 0 []))) as [H3|H3];
    [|exact Hout].
  apply Forall_snoc; [exact Hout|].
  match goal with
  | |- context [store_participants ?ids 0 ?p0] =>
      destruct (@store_participants_fields ids p0 eq_refl)
        as (Hty & Hpl & _)
  end.
  unfold participants_ok. cbn [pattern_type planets]. rewrite Hty, Hpl.
  cbn [pattern_type]. rewrite length_firstn, length_map.
  unfold count_of in H3. unfold PATTERN_SLOTS. lia.
Qed.

Lemma stellium_loop_ok positions max_patterns signs :
  forall out,
    Forall participants_ok out ->
    Forall participants_ok (stellium_loop positions signs max_patterns out).
Proof.
  induction signs as [|s rest IH]; simpl; intros out Hout; [exact Hout|].
  destruct (count_of out <? max_patterns)%Z; [|exact Hout].
  apply IH. apply stellium_step_ok. exact Hout.
Qed.

(** Every stored pattern is a Grand Trine or a T-Square of three bodies or a
    Stellium with three to six participant slots. *)
Lemma find_patterns_participants (positions : list AstroPlanetPosition)
  (aspects : list AstroAspect) (max_patterns : Z) :
  Forall participants_ok (find_patterns_scans positions aspects max_patterns).
Proof.
  unfold find_patterns_scans.
  apply stellium_loop_ok, t_square_loop_ok, grand_trine_loop_ok. constructor.
Qed.

(** *** The claims on the pattern detector, at concrete charts *)

(** C1: the code departs from the claim.  In the chart Sun 0, Moon 113,
    Mercury 247 the aspect set holds the trines Sun-Moon and Sun-Mercury and
    no trine between Moon and Mercury (they form a sesquiquadrate), yet the
    detector stores a Grand Trine over the three bodies. *)
Theorem C1_grand_trine_without_third_edge :
  let aspects := aspects_of chart_two_trines in
  map edge aspects
  = [ (0, 1, ASTRO_ASPECT_TRINE); (0, 2, ASTRO_ASPECT_TRINE);
      (1, 2, ASTRO_ASPECT_SESQUIQUADRATE) ]%Z /\
  (forall a, In a aspects -> ~ connects ASTRO_ASPECT_TRINE 1 2 a) /\
  map shape (stored (patterns_of chart_two_trines aspects 10))
  = [ (ASTRO_PATTERN_GRAND_TRINE, [0; 1; 2], 3) ]%Z.
Proof.
  split; [reflexivity|]. split; [|reflexivity].
  intros a Hin [Hty Hends].
  cbv in Hin.
  repeat (destruct Hin as [<-|Hin];
          [simpl in Hty, Hends;
           first [discriminate Hty
                 | destruct Hends as [[H1 H2]|[H1 H2]];
                   first [discriminate H1 | discriminate H2]]|]).
  exact Hin.
Qed.

(** C2: the code departs from the claim.  In the chart Sun 0, Moon 175,
    Mercury 95 the aspect set holds the opposition Sun-Moon and the square
    Sun-Mercury and nothing between Moon and Mercury, yet the detector stores
    a T-Square with Mercury as its apex. *)
Theorem C2_t_square_with_one_square :
  let aspects := aspects_of chart_one_square in
  map edge aspects
  = [ (0, 1, ASTRO_ASPECT_OPPOSITION); (0, 2, ASTRO_ASPECT_SQUARE) ]%Z /\
  (forall a, In a aspects -> ~ connects ASTRO_ASPECT_SQUARE 1 2 a) /\
  map shape (stored (patterns_of chart_one_square aspects 10))
  = [ (ASTRO_PATTERN_T_SQUARE, [0; 1; 2], 3) ]%Z.
Proof.
  split; [reflexivity|]. split; [|reflexivity].
  intros a Hin [Hty Hends].
  cbv in Hin.
  repeat (destruct Hin as [<-|Hin];
          [simpl in Hty, Hends;
           first [discriminate Hty
                 | destruct Hends as [[H1 H2]|[H1 H2]];
                   first [discriminate H1 | discriminate H2]]|]).
  exact Hin.
Qed.

(** C4: the code departs from the claim in the pattern detector.  With the
    chart Sun 0, Moon 120, Mercury 240, its three trines and a capacity of
    one pattern, the detector stores two patterns (the second one past the
    capacity), reports the count 2 and returns ASTRO_OK. *)
Theorem C4_find_patterns_exceeds_capacity :
  let r := patterns_of chart_grand_trine (aspects_of chart_grand_trine) 1 in
  status r = ASTRO_OK /\
  num_stored r = Some 2%Z /\
  map shape (stored r)
  = [ (ASTRO_PATTERN_GRAND_TRINE, [0; 1; 2], 3);
      (ASTRO_PATTERN_GRAND_TRINE, [0; 1; 2], 3) ]%Z /\
  (1 < count_of (stored r))%Z.
Proof. repeat split. Qed.

(** C5: the code departs from the claim for the Stellium.  In the chart of
    the ten planets with the Sun, the Moon, Mercury, Venus, Mars, Jupiter and
    Pluto in Aries, seven bodies are in one sign.  The detector stores the
    count 7 and then seven participants into the six slots of the record; the
    seventh store falls on the count field.  The one record it leaves is a
    Stellium with the six participants Sun to Jupiter and the participant
    count 9, the identifier of Pluto: above 6, and not the number of
    participants. *)
Theorem C5_stellium_count_overwritten :
  let r := patterns_of chart_pluto_seventh_in_aries [] 10 in
  status r = ASTRO_OK /\
  map shape (stored r)
  = [ (ASTRO_PATTERN_STELLIUM, [0; 1; 2; 3; 4; 5], 9) ]%Z /\
  Forall (fun p =>
            (PATTERN_SLOTS < num_planets p)%Z /\
            num_planets p <> Z.of_nat (List.length (planets p)))
    (stored r).
Proof.
  split; [reflexivity|]. split; [reflexivity|].
  constructor; [|constructor]. split; [reflexivity|discriminate].
Qed.

(** *** The grand trine scenario *)

(** A pair of different bodies whose longitudes match a family adds one
    record, between those two bodies and of that family. *)
Lemma store_aspect_match (cfg : configs) (a b : AstroPlanetPosition)
  (ty : AstroAspectType) (d : double) :
  planet a <> planet b ->
  astro_aspects_check_aspect cfg (longitude a) (longitude b) = Some (ty, d) ->
  exists asp,
    edge asp = (planet a, planet b, ty) /\
    forall out, store_aspect cfg a b out = out ++ [asp].
Proof.
  intros Hne Hcheck. apply Z.eqb_neq in Hne.
  unfold store_aspect, astro_aspects_calc_aspect. rewrite Hne, Hcheck.
  eexists. split; [|intro out; reflexivity]. reflexivity.
Qed.

Lemma third_planet_shared_first (p1 p2 x : AstroPlanet) :
  third_planet_of p1 p2 p1 x = x.
Proof. unfold third_planet_of. rewrite Z.eqb_refl. reflexivity. Qed.

Lemma third_planet_shared_second (p1 p2 x : AstroPlanet) :
  third_planet_of p1 p2 p2 x = x.
Proof.
  unfold third_planet_of. rewrite Z.eqb_refl, orb_true_r. reflexivity.
Qed.

Lemma third_planet_shared_last (p1 p2 x : AstroPlanet) :
  x <> p1 -> x <> p2 -> third_planet_of p1 p2 x p2 = x.
Proof.
  intros N1 N2. apply Z.eqb_neq in N1. apply Z.eqb_neq in N2.
  unfold third_planet_of. rewrite N1, N2, Z.eqb_refl, orb_true_r. reflexivity.
Qed.

Lemma t_square_loop_no_opposition positions aspects max_patterns from_i :
  Forall (fun a => is_opposition a = false) from_i ->
  forall out, t_square_loop positions aspects from_i max_patterns out = out.
Proof.
  induction 1 as [|ai rest Hai _ IH]; simpl; intro out; [reflexivity|].
  rewrite Hai, IH. destruct (count_of out <? max_patterns)%Z; reflexivity.
Qed.

(** The sign scan keeps what is stored and adds Stellium records only. *)
Lemma stellium_loop_appends positions max_patterns signs :
  forall out,
    exists more,
      stellium_loop positions signs max_patterns out = out ++ more /\
      Forall (fun p => pattern_type p = ASTRO_PATTERN_STELLIUM) more.
Proof.
  induction signs as [|s rest IH]; simpl; intro out.
  - exists []. rewrite app_nil_r. split; [reflexivity|constructor].
  - destruct (count_of out <? max_patterns)%Z.
    + destruct (IH (stellium_step positions s out)) as (more & -> & Hmore).
      unfold stellium_step. cbv zeta.
      destruct (3 <=? count_of (collect_in_sign s positions 0 []))%Z.
      * eexists (_ :: more). rewrite <- app_assoc. split; [reflexivity|].
        constructor; [|exact Hmore]. cbn [pattern_type].
        match goal with
        | |- context [store_participants ?ids 0 ?p0] =>
            destruct (@store_participants_fields ids p0 eq_refl) as (Hty & _)
        end.
        rewrite Hty. reflexivity.
      * exists more. split; [reflexivity|exact Hmore].
    + exists []. rewrite app_nil_r. split; [reflexivity|constructor].
Qed.

Lemma filter_grand_trine_stelliums (more : list AstroPattern) :
  Forall (fun p => pattern_type p = ASTRO_PATTERN_STELLIUM) more ->
  filter is_grand_trine more = [].
Proof.
  induction 1 as [|p more Hp _ IH]; simpl; [reflexivity|].
  unfold is_grand_trine at 1. rewrite Hp. exact IH.
Qed.

(** C3 as stated fails: on the chart Sun 0, Moon 120, Mercury 240 the aspect
    set is the three trines, and the detector stores three Grand Trine
    records over the three bodies, not one. *)
Lemma C3_three_grand_trine_records :
  let aspects := aspects_of chart_grand_trine in
  let found := filter is_grand_trine
                 (stored (patterns_of chart_grand_trine aspects 10)) in
  map edge aspects
  = [ (0, 1, ASTRO_ASPECT_TRINE); (0, 2, ASTRO_ASPECT_TRINE);
      (1, 2, ASTRO_ASPECT_TRINE) ]%Z /\
  map shape found
  = [ (ASTRO_PATTERN_GRAND_TRINE, [0; 1; 2], 3);
      (ASTRO_PATTERN_GRAND_TRINE, [0; 1; 2], 3);
      (ASTRO_PATTERN_GRAND_TRINE, [0; 2; 1], 3) ]%Z /\
  List.length found <> 1%nat.
Proof.
  split; [reflexivity|]. split; [reflexivity|]. discriminate.
Qed.

(** One iteration of each guarded loop, when the guard holds. *)
Lemma aspects_inner_cons cfg a b js max_aspects out :
  (count_of out < max_aspects)%Z ->
  aspects_inner cfg a (b :: js) max_aspects out
  = aspects_inner cfg a js max_aspects (store_aspect cfg a b out).
Proof. intro H. apply Z.ltb_lt in H. simpl. rewrite H. reflexivity. Qed.

Lemma calc_all_loop_cons cfg a rest max_aspects out :
  (count_of out < max_aspects)%Z ->
  calc_all_loop cfg (a :: rest) max_aspects out
  = calc_all_loop cfg rest max_aspects (aspects_inner cfg a rest max_aspects out).
Proof. intro H. apply Z.ltb_lt in H. simpl. rewrite H. reflexivity. Qed.

Lemma calc_all_loop_last cfg a max_aspects out :
  calc_all_loop cfg [a] max_aspects out = out.
Proof. simpl. destruct (count_of out <? max_aspects)%Z; reflexivity. Qed.

Lemma grand_trine_loop_cons positions aspects ai rest max_patterns out :
  (count_of out < max_patterns)%Z ->
  is_trine ai = true ->
  grand_trine_loop positions aspects (ai :: rest) max_patterns out
  = grand_trine_loop positions aspects rest max_patterns
      (grand_trine_inner positions aspects ai rest out).
Proof.
  intros H Ht. apply Z.ltb_lt in H. simpl. rewrite H, Ht. reflexivity.
Qed.

Lemma grand_trine_loop_last positions aspects ai max_patterns out :
  grand_trine_loop positions aspects [ai] max_patterns out = out.
Proof.
  simpl. destruct (count_of out <? max_patterns)%Z, (is_trine ai); reflexivity.
Qed.

(** C3, amended: for three bodies with pairwise different identifiers at
    the longitudes 0, 120 and 240 (any speeds, signs and names), under the
    built-in orbs and with room for three entries in each output array,
    [astro_aspects_calc_all] stores exactly three aspects, all trines, one
    per pair of bodies; on them [astro_aspects_find_patterns] stores exactly
    three Grand Trine records, one per pair of trines, each over those three
    bodies. *)
Theorem C3_grand_trine_scenario (ida idb idc : AstroPlanet) (sa sb sc : double)
  (ga gb gc : AstroSign) (na nb nc : string) (max_aspects max_patterns : Z) :
  valid_planet ida -> valid_planet idb -> valid_planet idc ->
  ida <> idb -> ida <> idc -> idb <> idc ->
  (3 <= max_aspects)%Z -> (3 <= max_patterns)%Z ->
  let chart := [ mkPosition ida 0 sa ga na; mkPosition idb 120 sb gb nb;
                 mkPosition idc 240 sc gc nc ] in
  let r := astro_aspects_calc_all g_aspect_configs (Some chart) (Some [])
             max_aspects (Some 0%Z) in
  let q := astro_aspects_find_patterns (Some chart) (Some (stored r))
             (Some []) max_patterns (Some 0%Z) in
  status r = ASTRO_OK /\
  num_stored r = Some 3%Z /\
  map edge (stored r)
  = [ (ida, idb, ASTRO_ASPECT_TRINE); (ida, idc, ASTRO_ASPECT_TRINE);
      (idb, idc, ASTRO_ASPECT_TRINE) ] /\
  status q = ASTRO_OK /\
  map shape (filter is_grand_trine (stored q))
  = [ (ASTRO_PATTERN_GRAND_TRINE, [ida; idb; idc], 3%Z);
      (ASTRO_PATTERN_GRAND_TRINE, [ida; idb; idc], 3%Z);
      (ASTRO_PATTERN_GRAND_TRINE, [ida; idc; idb], 3%Z) ].
Proof.
  intros Va Vb Vc Nab Nac Nbc Hma Hmp chart r q.
  set (pa := mkPosition ida 0 sa ga na) in *.
  set (pb := mkPosition idb 120 sb gb nb) in *.
  set (pc := mkPosition idc 240 sc gc nc) in *.
  destruct (@store_aspect_match g_aspect_configs pa pb ASTRO_ASPECT_TRINE 0 Nab)
    as (a1 & He1 & S1); [vm_compute; reflexivity|].
  destruct (@store_aspect_match g_aspect_configs pa pc ASTRO_ASPECT_TRINE 0 Nac)
    as (a2 & He2 & S2); [vm_compute; reflexivity|].
  destruct (@store_aspect_match g_aspect_configs pb pc ASTRO_ASPECT_TRINE 0 Nbc)
    as (a3 & He3 & S3); [vm_compute; reflexivity|].
  assert (Hr : stored r = [a1; a2; a3]).
  { unfold r, astro_aspects_calc_all, chart. cbn [stored].
    rewrite calc_all_loop_cons by (unfold count_of; simpl; lia).
    rewrite aspects_inner_cons by (unfold count_of; simpl; lia).
    rewrite S1.
    rewrite aspects_inner_cons by (unfold count_of; simpl; lia).
    rewrite S2. cbn [aspects_inner].
    rewrite calc_all_loop_cons by (unfold count_of; simpl; lia).
    rewrite aspects_inner_cons by (unfold count_of; simpl; lia).
    rewrite S3. cbn [aspects_inner].
    rewrite calc_all_loop_last. reflexivity. }
  split; [reflexivity|].
  split; [unfold r, astro_aspects_calc_all in *; cbn [stored num_stored] in *;
          rewrite Hr; reflexivity|].
  split; [rewrite Hr; simpl; rewrite He1, He2, He3; reflexivity|].
  split; [reflexivity|].
  unfold q, astro_aspects_find_patterns. cbn [stored]. rewrite Hr.
  clear S1 S2 S3 Hr r q.
  destruct a1 as [x1 y1 t1 o1 d1 ap1 ex1 n1].
  destruct a2 as [x2 y2 t2 o2 d2 ap2 ex2 n2].
  destruct a3 as [x3 y3 t3 o3 d3 ap3 ex3 n3].
  cbn in He1, He2, He3.
  injection He1 as -> -> ->. injection He2 as -> -> ->.
  injection He3 as -> -> ->.
  set (a1 := mkAspect ida idb ASTRO_ASPECT_TRINE o1 d1 ap1 ex1 n1).
  set (a2 := mkAspect ida idc ASTRO_ASPECT_TRINE o2 d2 ap2 ex2 n2).
  set (a3 := mkAspect idb idc ASTRO_ASPECT_TRINE o3 d3 ap3 ex3 n3).
  set (aspects := [a1; a2; a3]).
  assert (G : grand_trine_loop chart aspects aspects max_patterns []
              = [ grand_trine_pattern chart ida idb idc;
                  grand_trine_pattern chart ida idb idc;
                  grand_trine_pattern chart ida idc idb ]).
  { unfold aspects at 2.
    rewrite grand_trine_loop_cons by (reflexivity || (unfold count_of; simpl; lia)).
    cbn [grand_trine_inner].
    rewrite (@grand_trine_step_two_edges chart aspects a1 a2);
      [ | simpl; tauto | reflexivity | simpl; tauto
        | cbn [planet1 planet2 a1 a2]; rewrite third_planet_shared_first;
          apply Vc ].
    rewrite (@grand_trine_step_two_edges chart aspects a1 a3);
      [ | simpl; tauto | reflexivity | simpl; tauto
        | cbn [planet1 planet2 a1 a3]; rewrite third_planet_shared_second;
          apply Vc ].
    rewrite grand_trine_loop_cons by (reflexivity || (unfold count_of; simpl; lia)).
    cbn [grand_trine_inner].
    rewrite (@grand_trine_step_two_edges chart aspects a2 a3);
      [ | simpl; tauto | reflexivity | simpl; tauto
        | cbn [planet1 planet2 a2 a3];
          rewrite third_planet_shared_last by congruence; apply Vb ].
    rewrite grand_trine_loop_last.
    cbn [planet1 planet2 a1 a2 a3].
    rewrite third_planet_shared_first, third_planet_shared_second.
    rewrite third_planet_shared_last by congruence.
    reflexivity. }
  unfold find_patterns_scans. rewrite G.
  rewrite t_square_loop_no_opposition
    by (repeat constructor).
  destruct (stellium_loop_appends chart max_patterns all_signs
              [ grand_trine_pattern chart ida idb idc;
                grand_trine_pattern chart ida idb idc;
                grand_trine_pattern chart ida idc idb ])
    as (more & -> & Hmore).
  rewrite filter_app, (filter_grand_trine_stelliums Hmore). reflexivity.
Qed.

Lemma C3_grand_trine_scenario_witness :
  map shape
    (filter is_grand_trine
       (stored (patterns_of chart_grand_trine (aspects_of chart_grand_trine) 3)))
  = [ (ASTRO_PATTERN_GRAND_TRINE, [0; 1; 2], 3);
      (ASTRO_PATTERN_GRAND_TRINE, [0; 1; 2], 3);
      (ASTRO_PATTERN_GRAND_TRINE, [0; 2; 1], 3) ]%Z.
Proof.
  assert (V : forall p : AstroPlanet, (0 <= p <= 2)%Z -> valid_planet p)
    by (unfold valid_planet; lia).
  refine (proj2 (proj2 (proj2 (proj2
    (@C3_grand_trine_scenario 0%Z 1%Z 2%Z 1 13 (3 # 2) 0%Z 4%Z 8%Z
       "Sun" "Moon" "Mercury" 50%Z 3%Z _ _ _ _ _ _ _ _)))));
    try (apply V; lia); lia.
Defined.

(** * Properties of the rest of the engine *)

(** ** The aspect set builders as truncated enumerations *)

Lemma store_aspect_detected (cfg : configs) (a b : AstroPlanetPosition)
  (out : list AstroAspect) :
  store_aspect cfg a b out = out ++ detected cfg a b.
Proof.
  unfold detected, store_aspect.
  destruct (astro_aspects_calc_aspect cfg (Some a) (Some b) (Some aspect_uninit))
    as [code [asp|]]; [|rewrite app_nil_r; reflexivity].
  destruct (code =? ASTRO_OK)%Z; [reflexivity|rewrite app_nil_r; reflexivity].
Qed.

Lemma detected_length (cfg : configs) (a b : AstroPlanetPosition) :
  (List.length (detected cfg a b) <= 1)%nat.
Proof.
  unfold detected, store_aspect.
  destruct (astro_aspects_calc_aspect cfg (Some a) (Some b) (Some aspect_uninit))
    as [code [asp|]]; [|simpl; lia].
  destruct (code =? ASTRO_OK)%Z; simpl; lia.
Qed.

Lemma room_app (A : Type) (max : Z) (out more : list A) :
  room max (out ++ more) = (room max out - List.length more)%nat.
Proof. unfold room, count_of. rewrite length_app. lia. Qed.

Lemma room_full (A : Type) (max : Z) (out : list A) :
  (count_of out <? max)%Z = false -> room max out = 0%nat.
Proof. intro H. apply Z.ltb_ge in H. unfold room. lia. Qed.

Lemma room_left (A : Type) (max : Z) (out : list A) :
  (count_of out <? max)%Z = true -> (0 < room max out)%nat.
Proof. intro H. apply Z.ltb_lt in H. unfold room. lia. Qed.

Lemma firstn_app_length (A : Type) (n : nat) (l1 l2 : list A) :
  firstn n l1 ++ firstn (n - List.length (firstn n l1)) l2 = firstn n (l1 ++ l2).
Proof.
  rewrite firstn_app, length_firstn.
  destruct (Nat.le_gt_cases (List.length l1) n) as [Hle|Hgt].
  - rewrite Nat.min_r by lia. reflexivity.
  - rewrite Nat.min_l by lia. replace (n - n)%nat with 0%nat by lia.
    replace (n - List.length l1)%nat with 0%nat by lia. reflexivity.
Qed.

Lemma aspects_inner_prefix (cfg : configs) (a : AstroPlanetPosition)
  (max_aspects : Z) (js : list AstroPlanetPosition) :
  forall out,
    aspects_inner cfg a js max_aspects out
    = out ++ firstn (room max_aspects out) (aspects_with cfg a js).
Proof.
  induction js as [|b js IH]; simpl; intro out.
  - rewrite firstn_nil, app_nil_r. reflexivity.
  - destruct (count_of out <? max_aspects)%Z eqn:G.
    + rewrite IH, store_aspect_detected, room_app, <- app_assoc. f_equal.
      pose proof (detected_length cfg a b) as Hlen.
      pose proof (room_left _ _ G) as Hroom.
      unfold aspects_with at 2. simpl. fold (aspects_with cfg a js).
      rewrite firstn_app.
      rewrite (@firstn_all2 _ (room max_aspects out) (detected cfg a b))
        by lia.
      reflexivity.
    + rewrite (room_full _ _ G). rewrite app_nil_r. reflexivity.
Qed.

Lemma calc_all_loop_prefix (cfg : configs) (max_aspects : Z)
  (ps : list AstroPlanetPosition) :
  forall out,
    calc_all_loop cfg ps max_aspects out
    = out ++ firstn (room max_aspects out) (all_pairs cfg ps).
Proof.
  induction ps as [|a rest IH]; simpl; intro out.
  - rewrite firstn_nil, app_nil_r. reflexivity.
  - destruct (count_of out <? max_aspects)%Z eqn:G.
    + rewrite IH, aspects_inner_prefix, room_app, <- app_assoc. f_equal.
      apply firstn_app_length.
    + rewrite (room_full _ _ G). rewrite app_nil_r. reflexivity.
Qed.

Lemma between_charts_loop_prefix (cfg : configs) (max_aspects : Z)
  (natal transit : list AstroPlanetPosition) :
  forall out,
    between_charts_loop cfg natal transit max_aspects out
    = out ++ firstn (room max_aspects out) (cross_pairs cfg transit natal).
Proof.
  induction transit as [|t rest IH]; simpl; intro out.
  - rewrite firstn_nil, app_nil_r. reflexivity.
  - destruct (count_of out <? max_aspects)%Z eqn:G.
    + rewrite IH, aspects_inner_prefix, room_app, <- app_assoc. f_equal.
      apply firstn_app_length.
    + rewrite (room_full _ _ G). rewrite app_nil_r. reflexivity.
Qed.

Lemma calc_all_stored_prefix (cfg : configs)
  (positions : list AstroPlanetPosition) (buf : list AstroAspect)
  (max_aspects n0 : Z) :
  stored (astro_aspects_calc_all cfg (Some positions) (Some buf) max_aspects
            (Some n0))
  = firstn (Z.to_nat max_aspects) (all_pairs cfg positions).
Proof.
  simpl. rewrite calc_all_loop_prefix. unfold room, count_of. simpl.
  rewrite Z.sub_0_r. reflexivity.
Qed.

(** X1: [astro_aspects_calc_all] returns ASTRO_OK and stores the first
    [max_aspects] entries of the enumeration of all pairs (each body with the
    ones after it, in list order): truncation keeps a prefix, in order, and a
    capacity of zero or less stores nothing; the count it reports is the
    number of entries stored. *)
Theorem calc_all_is_truncated_enumeration (cfg : configs)
  (positions : list AstroPlanetPosition) (buf : list AstroAspect)
  (max_aspects n0 : Z) :
  let r := astro_aspects_calc_all cfg (Some positions) (Some buf) max_aspects
             (Some n0) in
  status r = ASTRO_OK /\
  num_stored r = Some (count_of (stored r)) /\
  stored r = firstn (Z.to_nat max_aspects) (all_pairs cfg positions).
Proof.
  intro r. split; [reflexivity|]. split; [reflexivity|].
  apply calc_all_stored_prefix.
Qed.

Lemma calc_between_charts_stored_prefix (cfg : configs)
  (natal transit : list AstroPlanetPosition) (buf : list AstroAspect)
  (max_aspects n0 : Z) :
  stored (astro_aspects_calc_between_charts cfg (Some natal) (Some transit)
            (Some buf) max_aspects (Some n0))
  = firstn (Z.to_nat max_aspects) (cross_pairs cfg transit natal).
Proof.
  simpl. rewrite between_charts_loop_prefix. unfold room, count_of. simpl.
  rewrite Z.sub_0_r. reflexivity.
Qed.

(** X2: [astro_aspects_calc_between_charts] returns ASTRO_OK and stores the
    first [max_aspects] entries of the enumeration that pairs each body of
    its second array, in order, with each body of its first array, the body
    of the second array being the first body of the aspect; the count it
    reports is the number of entries stored. *)
Theorem calc_between_charts_is_truncated_enumeration (cfg : configs)
  (natal transit : list AstroPlanetPosition) (buf : list AstroAspect)
  (max_aspects n0 : Z) :
  let r := astro_aspects_calc_between_charts cfg (Some natal) (Some transit)
             (Some buf) max_aspects (Some n0) in
  status r = ASTRO_OK /\
  num_stored r = Some (count_of (stored r)) /\
  stored r = firstn (Z.to_nat max_aspects) (cross_pairs cfg transit natal).
Proof.
  intro r. split; [reflexivity|]. split; [reflexivity|].
  apply calc_between_charts_stored_prefix.
Qed.

(** What a successful call tells about its arguments and its record. *)
Lemma calc_aspect_ok_inv (cfg : configs) (a b : AstroPlanetPosition)
  (a0 asp : AstroAspect) :
  astro_aspects_calc_aspect cfg (Some a) (Some b) (Some a0) = (ASTRO_OK, Some asp) ->
  planet a <> planet b /\
  planet1 asp = planet a /\ planet2 asp = planet b /\
  astro_aspects_check_aspect cfg (longitude a) (longitude b)
  = Some (aspect_type asp, difference asp).
Proof.
  unfold astro_aspects_calc_aspect.
  destruct (Z.eqb_spec (planet a) (planet b)) as [E|N]; [discriminate|].
  destruct (astro_aspects_check_aspect cfg (longitude a) (longitude b))
    as [[ty d]|]; [|discriminate].
  intro H. injection H as <-. simpl. auto.
Qed.

Lemma detected_In (cfg : configs) (a b : AstroPlanetPosition)
  (asp : AstroAspect) :
  In asp (detected cfg a b) <->
  astro_aspects_calc_aspect cfg (Some a) (Some b) (Some aspect_uninit)
  = (ASTRO_OK, Some asp).
Proof.
  unfold detected, store_aspect.
  destruct (astro_aspects_calc_aspect cfg (Some a) (Some b) (Some aspect_uninit))
    as [code [x|]] eqn:E.
  - destruct (Z.eqb_spec code ASTRO_OK) as [->|N]; simpl.
    + split; [intros [->|[]]; reflexivity | intro H; left; congruence].
    + split; [intros [] | intro H; exfalso; congruence].
  - simpl. split; [intros [] | discriminate].
Qed.

(** A pair of different bodies whose longitudes match a family does yield a
    record. *)
Lemma detected_match (cfg : configs) (a b : AstroPlanetPosition)
  (ty : AstroAspectType) (d : double) :
  planet a <> planet b ->
  astro_aspects_check_aspect cfg (longitude a) (longitude b) = Some (ty, d) ->
  exists asp,
    In asp (detected cfg a b) /\
    edge asp = (planet a, planet b, ty) /\ difference asp = d.
Proof.
  intros Hne Hcheck. apply Z.eqb_neq in Hne.
  unfold detected, store_aspect, astro_aspects_calc_aspect.
  rewrite Hne, Hcheck. simpl. eexists. split; [left; reflexivity|].
  split; reflexivity.
Qed.

Lemma aspects_with_In (cfg : configs) (a : AstroPlanetPosition)
  (js : list AstroPlanetPosition) (asp : AstroAspect) :
  In asp (aspects_with cfg a js) <->
  exists l2 y l3, js = l2 ++ y :: l3 /\ In asp (detected cfg a y).
Proof.
  unfold aspects_with. rewrite in_flat_map. split.
  - intros (y & Hy & Hin). apply in_split in Hy. destruct Hy as (l2 & l3 & ->).
    eauto.
  - intros (l2 & y & l3 & -> & Hin). exists y. split; [|exact Hin].
    apply in_or_app. right. left. reflexivity.
Qed.

Lemma all_pairs_In (cfg : configs) (ps : list AstroPlanetPosition)
  (asp : AstroAspect) :
  In asp (all_pairs cfg ps) <->
  exists l1 x l2 y l3,
    ps = l1 ++ x :: l2 ++ y :: l3 /\ In asp (detected cfg x y).
Proof.
  induction ps as [|a rest IH]; simpl.
  - split; [intros [] | intros (l1 & x & l2 & y & l3 & H & _)].
    destruct l1; discriminate H.
  - rewrite in_app_iff, aspects_with_In, IH. split.
    + intros [(l2 & y & l3 & -> & Hin) | (l1 & x & l2 & y & l3 & -> & Hin)].
      * exists [], a, l2, y, l3. auto.
      * exists (a :: l1), x, l2, y, l3. auto.
    + intros (l1 & x & l2 & y & l3 & Heq & Hin).
      destruct l1 as [|a' l1]; simpl in Heq; injection Heq as -> ->.
      * left. eauto.
      * right. exists l1, x, l2, y, l3. auto.
Qed.

Lemma aspects_with_length (cfg : configs) (a : AstroPlanetPosition)
  (js : list AstroPlanetPosition) :
  (List.length (aspects_with cfg a js) <= List.length js)%nat.
Proof.
  induction js as [|b js IH]; simpl; [lia|].
  rewrite length_app. pose proof (detected_length cfg a b). lia.
Qed.

Lemma all_pairs_length (cfg : configs) (ps : list AstroPlanetPosition) :
  (2 * Z.of_nat (List.length (all_pairs cfg ps))
   <= Z.of_nat (List.length ps) * (Z.of_nat (List.length ps) - 1))%Z.
Proof.
  induction ps as [|a rest IH]; simpl List.length; [simpl; lia|].
  simpl all_pairs. rewrite length_app.
  pose proof (aspects_with_length cfg a rest). nia.
Qed.

Lemma In_firstn (A : Type) (n : nat) (l : list A) (x : A) :
  In x (firstn n l) -> In x l.
Proof.
  intro H. rewrite <- (firstn_skipn n l). apply in_or_app. left. exact H.
Qed.

Lemma firstn_length_le (A : Type) (n : nat) (l : list A) :
  (List.length (firstn n l) <= List.length l)%nat.
Proof. rewrite length_firstn. lia. Qed.

(** X3: every aspect [astro_aspects_calc_all] stores joins two bodies of the
    list with different identifiers, the first one standing before the
    second in the list, and carries the family and the difference
    [astro_aspects_check_aspect] gives for their longitudes; the number of
    aspects stored is at most n (n - 1) / 2 for n bodies (none for fewer than
    two bodies). *)
Theorem calc_all_stores_pairs (cfg : configs)
  (positions : list AstroPlanetPosition) (buf : list AstroAspect)
  (max_aspects n0 : Z) :
  let r := astro_aspects_calc_all cfg (Some positions) (Some buf) max_aspects
             (Some n0) in
  (forall asp, In asp (stored r) ->
     exists l1 x l2 y l3,
       positions = l1 ++ x :: l2 ++ y :: l3 /\
       planet x <> planet y /\
       planet1 asp = planet x /\ planet2 asp = planet y /\
       astro_aspects_check_aspect cfg (longitude x) (longitude y)
       = Some (aspect_type asp, difference asp)) /\
  (2 * count_of (stored r)
   <= Z.of_nat (List.length positions) * (Z.of_nat (List.length positions) - 1))%Z.
Proof.
  intro r. unfold r. rewrite calc_all_stored_prefix. split.
  - intros asp Hin. apply In_firstn in Hin. apply all_pairs_In in Hin.
    destruct Hin as (l1 & x & l2 & y & l3 & Hps & Hin).
    apply detected_In, calc_aspect_ok_inv in Hin.
    exists l1, x, l2, y, l3. tauto.
  - pose proof (all_pairs_length cfg positions) as Hlen.
    unfold count_of.
    pose proof (firstn_length_le (Z.to_nat max_aspects) (all_pairs cfg positions)).
    lia.
Qed.

(** X4: with a capacity of at least n (n - 1) / 2 for n bodies,
    [astro_aspects_calc_all] misses no pair: for any two bodies of the list
    with different identifiers whose longitudes match a family, it stores an
    aspect between them of that family, the earlier body first. *)
Theorem calc_all_complete (cfg : configs)
  (positions : list AstroPlanetPosition) (buf : list AstroAspect)
  (max_aspects n0 : Z) (l1 l2 l3 : list AstroPlanetPosition)
  (x y : AstroPlanetPosition) (ty : AstroAspectType) (d : double) :
  (Z.of_nat (List.length positions) * (Z.of_nat (List.length positions) - 1)
   <= 2 * max_aspects)%Z ->
  positions = l1 ++ x :: l2 ++ y :: l3 ->
  planet x <> planet y ->
  astro_aspects_check_aspect cfg (longitude x) (longitude y) = Some (ty, d) ->
  exists asp,
    In asp (stored (astro_aspects_calc_all cfg (Some positions) (Some buf)
                      max_aspects (Some n0))) /\
    edge asp = (planet x, planet y, ty) /\ difference asp = d.
Proof.
  intros Hcap Hps Hne Hcheck.
  rewrite calc_all_stored_prefix.
  rewrite firstn_all2
    by (pose proof (all_pairs_length cfg positions); lia).
  destruct (detected_match cfg x y Hne Hcheck) as (asp & Hin & He & Hd).
  exists asp. split; [|auto].
  apply all_pairs_In. exists l1, x, l2, y, l3. auto.
Qed.

Lemma calc_all_complete_witness :
  exists asp,
    In asp (aspects_of chart_two_trines) /\
    edge asp = (1, 2, ASTRO_ASPECT_SESQUIQUADRATE)%Z /\ difference asp = 1%Q.
Proof.
  apply (@calc_all_complete g_aspect_configs chart_two_trines [] 50 0
           [body 0 0 1 0 "Sun"] [] [] (body 1 113 13 3 "Moon")
           (body 2 247 (3 # 2) 8 "Mercury") ASTRO_ASPECT_SESQUIQUADRATE 1%Q);
    solve [reflexivity | discriminate | simpl; lia].
Defined.

(** ** The orb table, continued *)

Lemma registration_order_complete (t : AstroAspectType) :
  In t registration_order.
Proof. destruct t; simpl; tauto. Qed.

Lemma get_aspect_config_set_orb_other (cfg : configs) (t t' : AstroAspectType)
  (o : double) :
  t' <> t ->
  get_aspect_config (astro_aspects_set_orb cfg t o) t' = get_aspect_config cfg t'.
Proof.
  intro Hne. induction cfg as [|c rest IH]; simpl; [reflexivity|].
  destruct (aspect_type_eqb (cfg_aspect_type c) t) eqn:E; simpl.
  - apply aspect_type_eqb_eq in E.
    assert (N : aspect_type_eqb (cfg_aspect_type c) t' = false)
      by (apply aspect_type_eqb_neq; congruence).
    rewrite N. reflexivity.
  - destruct (aspect_type_eqb (cfg_aspect_type c) t'); [reflexivity|exact IH].
Qed.

(** X5: on every table the process can hold, [astro_aspects_get_orb] after
    [astro_aspects_set_orb] of the same family returns the orb just set, the
    default orbs of the other families and all tight orbs are untouched, and
    after [astro_aspects_reset_orbs] every family has its built-in orb
    again. *)
Theorem set_orb_get_orb (cfg : configs) (t t' : AstroAspectType) (o : double) :
  reachable cfg ->
  astro_aspects_get_orb (astro_aspects_set_orb cfg t o) t = o /\
  (t' <> t ->
   astro_aspects_get_orb (astro_aspects_set_orb cfg t o) t'
   = astro_aspects_get_orb cfg t') /\
  map tight_orb (astro_aspects_set_orb cfg t o) = map tight_orb cfg /\
  astro_aspects_get_orb
    (astro_aspects_reset_orbs (astro_aspects_set_orb cfg t o)) t'
  = astro_aspects_get_orb g_aspect_configs t'.
Proof.
  intro Hreach. split; [|split; [|split]].
  - apply get_orb_set_orb. rewrite (reachable_types Hreach).
    apply registration_order_complete.
  - intro Hne. unfold astro_aspects_get_orb.
    rewrite get_aspect_config_set_orb_other by exact Hne. reflexivity.
  - apply set_orb_tight.
  - reflexivity.
Qed.

Lemma set_orb_get_orb_witness :
  astro_aspects_get_orb
    (astro_aspects_set_orb g_aspect_configs ASTRO_ASPECT_SEXTILE 4)
    ASTRO_ASPECT_SEXTILE = 4%Q.
Proof.
  apply (@set_orb_get_orb g_aspect_configs ASTRO_ASPECT_SEXTILE
           ASTRO_ASPECT_TRINE 4 reach_init).
Defined.



(** ** The detector and the order of its arguments *)

Lemma check_aspect_sym (cfg : configs) (lon1 lon2 : double) :
  astro_aspects_check_aspect cfg lon1 lon2
  = astro_aspects_check_aspect cfg lon2 lon1.
Proof.
  unfold astro_aspects_check_aspect. rewrite angular_distance_sym. reflexivity.
Qed.

(** X7: exchanging the two bodies does not change what
    [astro_aspects_calc_aspect] finds: the status code is the same, and on
    success the two records have the bodies exchanged and the same family,
    angular distance, difference and exactness flag. *)
Theorem calc_aspect_swap (cfg : configs) (p1 p2 : AstroPlanetPosition)
  (a0 : AstroAspect) :
  fst (astro_aspects_calc_aspect cfg (Some p1) (Some p2) (Some a0))
  = fst (astro_aspects_calc_aspect cfg (Some p2) (Some p1) (Some a0)) /\
  forall asp,
    astro_aspects_calc_aspect cfg (Some p1) (Some p2) (Some a0)
    = (ASTRO_OK, Some asp) ->
    exists asp',
      astro_aspects_calc_aspect cfg (Some p2) (Some p1) (Some a0)
      = (ASTRO_OK, Some asp') /\
      planet1 asp' = planet2 asp /\ planet2 asp' = planet1 asp /\
      aspect_type asp' = aspect_type asp /\ orb asp' = orb asp /\
      difference asp' = difference asp /\ is_exact asp' = is_exact asp.
Proof.
  unfold astro_aspects_calc_aspect.
  rewrite (Z.eqb_sym (planet p2) (planet p1)).
  rewrite (check_aspect_sym cfg (longitude p2) (longitude p1)).
  rewrite (angular_distance_sym (longitude p2) (longitude p1)).
  destruct (planet p1 =? planet p2)%Z; [split; [reflexivity|discriminate]|].
  destruct (astro_aspects_check_aspect cfg (longitude p1) (longitude p2))
    as [[ty d]|]; [|split; [reflexivity|discriminate]].
  split; [reflexivity|].
  intros asp H. injection H as <-. eexists. split; [reflexivity|].
  simpl. repeat split; reflexivity.
Qed.

Lemma speed_diff_swap (s1 s2 : double) :
  dlt (fabs (s1 - s2)) (1 # 100) = dlt (fabs (s2 - s1)) (1 # 100).
Proof. unfold fabs. rewrite (Qabs_Qminus s1 s2). reflexivity. Qed.

(** X8: the applying/separating answer depends on the order of the two
    bodies.  Exchanging them keeps a stationary answer stationary; otherwise
    it turns applying into separating and back when the angular distance
    differs from the target angle, and when the distance equals the target
    both orders answer separating. *)
Theorem is_applying_swap (p1 p2 : AstroPlanetPosition) (a : AstroAspect) :
  let r := astro_aspects_is_applying (Some p1) (Some p2) (Some a) in
  let r' := astro_aspects_is_applying (Some p2) (Some p1) (Some a) in
  let current := astro_core_angular_distance (longitude p1) (longitude p2) in
  let target := inject_Z (aspect_value (aspect_type a)) in
  (r = (-1)%Z <-> r' = (-1)%Z) /\
  (r <> (-1)%Z -> ~ (current == target)%Q -> (r + r' = 1)%Z) /\
  (r <> (-1)%Z -> (current == target)%Q -> r = 0%Z /\ r' = 0%Z).
Proof.
  intros r r' current target.
  unfold r, r', astro_aspects_is_applying.
  rewrite (angular_distance_sym (longitude p2) (longitude p1)).
  fold current target.
  rewrite (speed_diff_swap (longitude_speed p2) (longitude_speed p1)).
  case_dlt (fabs (longitude_speed p1 - longitude_speed p2)) (1 # 100)%Q Hs.
  - repeat split; intros; congruence.
  - assert (Hnz : ~ (longitude_speed p1 - longitude_speed p2 == 0)%Q).
    { intro E. unfold fabs in Hs. rewrite E in Hs. revert Hs.
      apply Qlt_not_le. reflexivity. }
    case_dlt 0%Q (longitude_speed p1 - longitude_speed p2)%Q H12;
      case_dlt 0%Q (longitude_speed p2 - longitude_speed p1)%Q H21;
      try (exfalso; lra);
      case_dlt current target Hct; case_dlt target current Htc;
      try (exfalso; lra);
      (split; [split; discriminate|]); split; intros _ Hc;
      solve [reflexivity | split; reflexivity | exfalso; lra
            | exfalso; apply Hc; lra].
Qed.

(** ** Strength and synastry score *)

Lemma quotient_unit_range (d o : double) :
  (0 <= d)%Q -> (d <= o)%Q -> (0 < o)%Q ->
  (0 <= d / o <= 1)%Q /\ ((d / o == 0)%Q <-> (d == 0)%Q).
Proof.
  intros Hd Hdo Ho.
  assert (Hno : ~ (o == 0)%Q) by (intro E; rewrite E in Ho; discriminate Ho).
  split; [split|split].
  - apply Qle_shift_div_l; [exact Ho|]. lra.
  - apply Qle_shift_div_r; [exact Ho|]. lra.
  - intro E. rewrite <- (Qmult_div_r d o Hno), E. ring.
  - intro E. rewrite E. unfold Qdiv. ring.
Qed.

(** X9: for every aspect [astro_aspects_calc_aspect] produces on a table
    the process can hold whose default orbs are positive,
    [astro_aspects_get_strength] is 1 - difference / default orb of the
    family, without clipping, and lies between 0 and 1. *)
Theorem detected_strength_range (cfg : configs) (p1 p2 : AstroPlanetPosition)
  (a0 asp : AstroAspect) :
  reachable cfg -> positive_orbs cfg ->
  astro_aspects_calc_aspect cfg (Some p1) (Some p2) (Some a0)
  = (ASTRO_OK, Some asp) ->
  let s := astro_aspects_get_strength cfg (Some asp) in
  s = (1 - difference asp / astro_aspects_get_orb cfg (aspect_type asp))%Q /\
  (0 <= s <= 1)%Q.
Proof.
  intros Hreach Hpos Hok s.
  destruct (calc_aspect_ok_inv _ _ _ _ Hok) as (_ & _ & _ & Hcheck).
  destruct (check_aspect_matched_entry _ _ Hreach Hcheck) as (c & Hc & Hd & Hle).
  assert (Ho : (0 < default_orb c)%Q).
  { unfold positive_orbs in Hpos. rewrite Forall_forall in Hpos.
    apply Hpos. apply (get_aspect_config_type _ _ Hc). }
  assert (Hd0 : (0 <= difference asp)%Q).
  { rewrite Hd. unfold orb_diff, fabs. apply Qabs_nonneg. }
  destruct (quotient_unit_range Hd0 Hle Ho) as [[Hq0 Hq1] Hqz].
  unfold s, astro_aspects_get_strength, astro_aspects_get_orb. rewrite Hc.
  case_dlt (1 - difference asp / default_orb c)%Q 0%Q Hneg; [exfalso; lra|].
  split; [reflexivity|]. lra.
Qed.

Lemma builtin_positive_orbs : positive_orbs g_aspect_configs.
Proof. unfold positive_orbs, g_aspect_configs. repeat constructor. Qed.

Lemma detected_strength_range_witness :
  exists asp,
    In asp (aspects_of chart_two_trines) /\
    astro_aspects_get_strength g_aspect_configs (Some asp) = (1 - 7 / 8)%Q.
Proof.
  eexists. split; [left; reflexivity|].
  refine (proj1 (@detected_strength_range g_aspect_configs
                   (body 0 0 1 0 "Sun") (body 1 113 13 3 "Moon")
                   aspect_uninit _ reach_init builtin_positive_orbs eq_refl)).
Defined.

Lemma synastry_score_nil (cfg : configs) (score : double) :
  synastry_score cfg [] score = score.
Proof. reflexivity. Qed.

(** X10: on a table with positive default orbs (a zero orb would leave a
    strength undefined in C), [astro_chart_calc_synastry] on two charts
    returns ASTRO_OK with the first 50 aspects of each body of the second
    chart with each body of the first, and a compatibility score between 0
    and 100, which is 50 when there is no aspect between the charts. *)
Theorem synastry_score_range (cfg : configs) (c1 c2 : AstroChart)
  (s0 : AstroSynastry) :
  positive_orbs cfg ->
  exists s,
    astro_chart_calc_synastry cfg (Some c1) (Some c2) (Some s0)
    = (ASTRO_OK, Some s) /\
    syn_aspects s
    = firstn 50 (cross_pairs cfg (chart_planets c2) (chart_planets c1)) /\
    (0 <= compatibility_score s <= 100)%Q /\
    (syn_aspects s = [] -> compatibility_score s = 50%Q).
Proof.
  intros _. unfold astro_chart_calc_synastry.
  set (r := astro_aspects_calc_between_charts cfg (Some (chart_planets c1))
              (Some (chart_planets c2)) (Some []) ASTRO_MAX_ASPECTS (Some 0%Z)).
  assert (Hst : status r = ASTRO_OK) by reflexivity.
  assert (Hsto : stored r
                 = firstn 50 (cross_pairs cfg (chart_planets c2) (chart_planets c1)))
    by apply calc_between_charts_stored_prefix.
  rewrite Hst. simpl negb. cbv iota.
  eexists. split; [reflexivity|]. cbn [syn_aspects compatibility_score].
  split; [exact Hsto|]. split.
  - case_dlt (synastry_score cfg (stored r) 50) 0%Q H0.
    + case_dlt 100%Q 0%Q H1; lra.
    + case_dlt 100%Q (synastry_score cfg (stored r) 50) H1; lra.
  - intros ->. reflexivity.
Qed.

Lemma synastry_score_range_witness :
  exists s,
    astro_chart_calc_synastry g_aspect_configs
      (Some (mkChart chart_grand_trine [])) (Some (mkChart chart_one_square []))
      (Some (mkSynastry (mkChart [] []) (mkChart [] []) [] 0))
    = (ASTRO_OK, Some s) /\
    (0 <= compatibility_score s <= 100)%Q.
Proof.
  destruct (@synastry_score_range g_aspect_configs
              (mkChart chart_grand_trine []) (mkChart chart_one_square [])
              (mkSynastry (mkChart [] []) (mkChart [] []) [] 0)
              builtin_positive_orbs) as (s & H1 & _ & H3 & _).
  exists s. split; assumption.
Defined.

(** ** The pattern detector, continued *)

(** *** No capacity, no record *)

Lemma grand_trine_loop_full positions aspects from_i max_patterns out :
  (max_patterns <= count_of out)%Z ->
  grand_trine_loop positions aspects from_i max_patterns out = out.
Proof.
  intro H. apply Z.ltb_ge in H. destruct from_i; simpl; [reflexivity|].
  rewrite H. reflexivity.
Qed.

Lemma t_square_loop_full positions aspects from_i max_patterns out :
  (max_patterns <= count_of out)%Z ->
  t_square_loop positions aspects from_i max_patterns out = out.
Proof.
  intro H. apply Z.ltb_ge in H. destruct from_i; simpl; [reflexivity|].
  rewrite H. reflexivity.
Qed.

Lemma stellium_loop_full positions signs max_patterns out :
  (max_patterns <= count_of out)%Z ->
  stellium_loop positions signs max_patterns out = out.
Proof.
  intro H. apply Z.ltb_ge in H. destruct signs; simpl; [reflexivity|].
  rewrite H. reflexivity.
Qed.

(** X11: with a capacity of zero or less [astro_aspects_find_patterns]
    stores nothing, reports the count 0 and returns ASTRO_OK, whatever the
    bodies and aspects. *)
Theorem find_patterns_no_capacity (positions : list AstroPlanetPosition)
  (aspects : list AstroAspect) (buf : list AstroPattern)
  (max_patterns n0 : Z) :
  (max_patterns <= 0)%Z ->
  astro_aspects_find_patterns (Some positions) (Some aspects) (Some buf)
    max_patterns (Some n0)
  = mkBuilt ASTRO_OK [] (Some 0%Z).
Proof.
  intro H. unfold astro_aspects_find_patterns, find_patterns_scans.
  rewrite grand_trine_loop_full by exact H.
  rewrite t_square_loop_full by exact H.
  rewrite stellium_loop_full by exact H.
  reflexivity.
Qed.

Lemma find_patterns_no_capacity_witness :
  stored (patterns_of chart_grand_trine (aspects_of chart_grand_trine) 0) = [].
Proof.
  unfold patterns_of.
  rewrite (@find_patterns_no_capacity chart_grand_trine
             (aspects_of chart_grand_trine) [] 0 0); [reflexivity|lia].
Defined.

(** *** The Stellium scan keeps to the capacity *)

Lemma stellium_step_count positions s out :
  (count_of (stellium_step positions s out) <= count_of out + 1)%Z.
Proof.
  unfold stellium_step.
  destruct (3 <=? count_of (collect_in_sign s positions 0 []))%Z;
    [rewrite count_of_app|]; lia.
Qed.

Lemma stellium_loop_bounded positions max_patterns signs :
  forall out,
    (count_of out <= max_patterns)%Z ->
    (count_of (stellium_loop positions signs max_patterns out) <= max_patterns)%Z.
Proof.
  induction signs as [|s rest IH]; simpl; intros out Hout; [exact Hout|].
  destruct (Z.ltb_spec (count_of out) max_patterns) as [Hlt|Hge]; [|exact Hout].
  apply IH. pose proof (stellium_step_count positions s out). lia.
Qed.

Lemma grand_trine_loop_no_trine positions aspects max_patterns from_i :
  Forall (fun a => is_trine a = false) from_i ->
  forall out, grand_trine_loop positions aspects from_i max_patterns out = out.
Proof.
  induction 1 as [|ai rest Hai _ IH]; simpl; intro out; [reflexivity|].
  rewrite Hai, IH. destruct (count_of out <? max_patterns)%Z; reflexivity.
Qed.

(** X12: when the aspect set holds no trine and no opposition (an empty set
    for instance), [astro_aspects_find_patterns] stores Stellium records
    only and never more than the capacity. *)
Theorem find_patterns_stelliums_within_capacity
  (positions : list AstroPlanetPosition) (aspects : list AstroAspect)
  (buf : list AstroPattern) (max_patterns n0 : Z) :
  (0 <= max_patterns)%Z ->
  Forall (fun a => aspect_type a <> ASTRO_ASPECT_TRINE /\
                   aspect_type a <> ASTRO_ASPECT_OPPOSITION) aspects ->
  let r := astro_aspects_find_patterns (Some positions) (Some aspects)
             (Some buf) max_patterns (Some n0) in
  status r = ASTRO_OK /\
  (count_of (stored r) <= max_patterns)%Z /\
  Forall (of_family ASTRO_PATTERN_STELLIUM) (stored r).
Proof.
  intros Hmax Hasp r. unfold r, astro_aspects_find_patterns. cbn [status stored].
  unfold find_patterns_scans.
  rewrite grand_trine_loop_no_trine.
  2:{ eapply Forall_impl; [|exact Hasp]. intros a [Ht _].
      apply aspect_type_eqb_neq. exact Ht. }
  rewrite t_square_loop_no_opposition.
  2:{ eapply Forall_impl; [|exact Hasp]. intros a [_ Ho].
      apply aspect_type_eqb_neq. exact Ho. }
  split; [reflexivity|]. split.
  - apply stellium_loop_bounded. exact Hmax.
  - destruct (stellium_loop_appends positions max_patterns all_signs [])
      as (more & -> & Hmore). exact Hmore.
Qed.

Lemma find_patterns_stelliums_witness :
  (count_of (stored (patterns_of chart_seven_in_aries [] 1)) <= 1)%Z.
Proof.
  apply (@find_patterns_stelliums_within_capacity chart_seven_in_aries [] [] 1 0);
    [lia | constructor].
Defined.

(** *** What every stored record rests on *)

Section AppendsOnly.

Variable A : Type.
Variable Q : A -> Prop.

Lemma appends_keep : appends_only Q (fun out => out).
Proof. intro out. exists []. rewrite app_nil_r. split; [reflexivity|constructor]. Qed.

Lemma appends_one (x : A) : Q x -> appends_only Q (fun out => out ++ [x]).
Proof. intros Hx out. exists [x]. split; [reflexivity|]. constructor; [exact Hx|constructor]. Qed.

Lemma appends_then (f g : list A -> list A) :
  appends_only Q f -> appends_only Q g -> appends_only Q (fun out => g (f out)).
Proof.
  intros Hf Hg out. destruct (Hf out) as (m1 & E1 & H1).
  destruct (Hg (f out)) as (m2 & E2 & H2).
  exists (m1 ++ m2). rewrite E2, E1, app_assoc. split; [reflexivity|].
  apply Forall_app. split; assumption.
Qed.

Lemma appends_guard (b : list A -> bool) (f g : list A -> list A) :
  appends_only Q f -> appends_only Q g ->
  appends_only Q (fun out => if b out then f out else g out).
Proof.
  intros Hf Hg out. destruct (b out); [apply Hf|apply Hg].
Qed.

Lemma appends_ext (f g : list A -> list A) :
  (forall out, f out = g out) -> appends_only Q f -> appends_only Q g.
Proof.
  intros E Hf out. destruct (Hf out) as (m & Em & Hm). exists m.
  rewrite <- E. auto.
Qed.

End AppendsOnly.

Section FoundAsCoded.

Variable positions : list AstroPlanetPosition.
Variable aspects : list AstroAspect.

Lemma third_planet_cases (p1 p2 p3a p3b : AstroPlanet) :
  (0 <= third_planet_of p1 p2 p3a p3b)%Z ->
  ((p3a = p1 \/ p3a = p2) /\ p3b = third_planet_of p1 p2 p3a p3b) \/
  ((p3b = p1 \/ p3b = p2) /\ p3a = third_planet_of p1 p2 p3a p3b).
Proof.
  unfold third_planet_of.
  destruct (Z.eqb_spec p3a p1); [left; auto|].
  destruct (Z.eqb_spec p3a p2); [left; auto|].
  destruct (Z.eqb_spec p3b p1); [right; auto|].
  destruct (Z.eqb_spec p3b p2); [right; auto|].
  simpl. lia.
Qed.

Lemma grand_trine_step_sound (ai aj : AstroAspect) :
  In ai aspects -> In aj aspects -> is_trine ai = true ->
  appends_only (sound_record positions aspects ASTRO_PATTERN_GRAND_TRINE)
    (grand_trine_step positions aspects ai aj).
Proof.
  intros Hi Hj Hti. unfold grand_trine_step.
  destruct (is_trine aj) eqn:Htj; [|apply appends_keep].
  destruct (Z.leb_spec 0
              (third_planet_of (planet1 ai) (planet2 ai) (planet1 aj) (planet2 aj)))
    as [H3|H3]; [|apply appends_keep].
  destruct (existsb _ aspects); [|apply appends_keep].
  apply appends_one. split; [reflexivity|].
  unfold found_as_coded. cbn [pattern_type grand_trine_pattern].
  exists ai, aj, (third_planet_of (planet1 ai) (planet2 ai) (planet1 aj) (planet2 aj)).
  apply aspect_type_eqb_eq in Hti. apply aspect_type_eqb_eq in Htj.
  repeat split; try assumption.
  destruct (third_planet_cases _ _ _ _ H3) as [[H E]|[H E]];
    [left|right]; split; auto.
Qed.

Lemma grand_trine_inner_sound (ai : AstroAspect) (js : list AstroAspect) :
  In ai aspects -> incl js aspects -> is_trine ai = true ->
  appends_only (sound_record positions aspects ASTRO_PATTERN_GRAND_TRINE)
    (grand_trine_inner positions aspects ai js).
Proof.
  intros Hi Hjs Hti. induction js as [|aj js IH]; simpl.
  - apply appends_keep.
  - apply (appends_then (f := grand_trine_step positions aspects ai aj)).
    + apply grand_trine_step_sound; auto. apply Hjs. left. reflexivity.
    + apply IH. intros x Hx. apply Hjs. right. exact Hx.
Qed.

Lemma grand_trine_loop_sound (max_patterns : Z) (from_i : list AstroAspect) :
  incl from_i aspects ->
  appends_only (sound_record positions aspects ASTRO_PATTERN_GRAND_TRINE)
    (grand_trine_loop positions aspects from_i max_patterns).
Proof.
  induction from_i as [|ai rest IH]; simpl; intro Hincl.
  - apply appends_keep.
  - assert (Hrest : incl rest aspects)
      by (intros x Hx; apply Hincl; right; exact Hx).
    apply (appends_guard (fun out => (count_of out <? max_patterns)%Z));
      [|apply appends_keep].
    apply (appends_then
             (f := fun out => if is_trine ai
                              then grand_trine_inner positions aspects ai rest out
                              else out));
      [|apply IH; exact Hrest].
    destruct (is_trine ai) eqn:Hti; [|apply appends_keep].
    apply grand_trine_inner_sound; auto. apply Hincl. left. reflexivity.
Qed.

Lemma t_square_step_sound (ai aj : AstroAspect) :
  In ai aspects -> In aj aspects -> is_opposition ai = true ->
  appends_only (sound_record positions aspects ASTRO_PATTERN_T_SQUARE)
    (t_square_step positions aspects ai aj).
Proof.
  intros Hi Hj Hoi. unfold t_square_step.
  destruct (is_square aj) eqn:Hsj; [|apply appends_keep].
  destruct (Z.eqb_spec (planet1 aj) (planet1 ai)) as [E1|N1];
    destruct (Z.eqb_spec (planet1 aj) (planet2 ai)) as [E2|N2];
    destruct (Z.eqb_spec (planet2 aj) (planet1 ai)) as [E3|N3];
    destruct (Z.eqb_spec (planet2 aj) (planet2 ai)) as [E4|N4];
    simpl; try apply appends_keep;
    (destruct (existsb _ aspects); [|apply appends_keep]);
    apply appends_one; (split; [reflexivity|]);
    unfold found_as_coded; cbn [pattern_type t_square_pattern];
    exists ai, aj;
    apply aspect_type_eqb_eq in Hoi; apply aspect_type_eqb_eq in Hsj;
    repeat split; auto.
Qed.

Lemma t_square_inner_sound (ai : AstroAspect) (js : list AstroAspect) :
  In ai aspects -> incl js aspects -> is_opposition ai = true ->
  appends_only (sound_record positions aspects ASTRO_PATTERN_T_SQUARE)
    (t_square_inner positions aspects ai js).
Proof.
  intros Hi Hjs Hoi. induction js as [|aj js IH]; simpl.
  - apply appends_keep.
  - apply (appends_then (f := t_square_step positions aspects ai aj)).
    + apply t_square_step_sound; auto. apply Hjs. left. reflexivity.
    + apply IH. intros x Hx. apply Hjs. right. exact Hx.
Qed.

Lemma t_square_loop_sound (max_patterns : Z) (from_i : list AstroAspect) :
  incl from_i aspects ->
  appends_only (sound_record positions aspects ASTRO_PATTERN_T_SQUARE)
    (t_square_loop positions aspects from_i max_patterns).
Proof.
  induction from_i as [|ai rest IH]; simpl; intro Hincl.
  - apply appends_keep.
  - assert (Hrest : incl rest aspects)
      by (intros x Hx; apply Hincl; right; exact Hx).
    apply (appends_guard (fun out => (count_of out <? max_patterns)%Z));
      [|apply appends_keep].
    apply (appends_then
             (f := fun out => if is_opposition ai
                              then t_square_inner positions aspects ai aspects out
                              else out));
      [|apply IH; exact Hrest].
    destruct (is_opposition ai) eqn:Hoi; [|apply appends_keep].
    apply t_square_inner_sound; auto.
    + apply Hincl. left. reflexivity.
    + apply incl_refl.
Qed.

End FoundAsCoded.

(** *** The participants of a Stellium *)

Lemma planet_at_middle (pre rest : list AstroPlanetPosition)
  (p : AstroPlanetPosition) :
  planet_at (pre ++ p :: rest) (Z.of_nat (List.length pre)) = planet p.
Proof.
  unfold planet_at. rewrite Nat2Z.id.
  rewrite nth_error_app2 by lia. rewrite Nat.sub_diag. reflexivity.
Qed.

Lemma collect_in_sign_planets (s : Z) (from_i : list AstroPlanetPosition) :
  forall pre acc,
    map (planet_at (pre ++ from_i))
      (collect_in_sign s from_i (Z.of_nat (List.length pre)) acc)
    = map (planet_at (pre ++ from_i)) acc ++
      map planet
        (firstn (Z.to_nat ASTRO_MAX_PLANETS - List.length acc)
           (filter (fun x => (sign x =? s)%Z) from_i)).
Proof.
  induction from_i as [|p rest IH]; intros pre acc.
  - simpl. rewrite firstn_nil. simpl. rewrite !app_nil_r. reflexivity.
  - cbn [collect_in_sign filter].
    destruct (Z.ltb_spec (count_of acc) ASTRO_MAX_PLANETS) as [Hlt|Hge].
    + replace (Z.of_nat (List.length pre) + 1)%Z
        with (Z.of_nat (List.length (pre ++ [p])))
        by (rewrite length_app; simpl; lia).
      replace (pre ++ p :: rest) with ((pre ++ [p]) ++ rest)
        by (rewrite <- app_assoc; reflexivity).
      rewrite IH.
      replace ((pre ++ [p]) ++ rest) with (pre ++ p :: rest)
        by (rewrite <- app_assoc; reflexivity).
      destruct (sign p =? s)%Z.
      * rewrite map_app, <- app_assoc. f_equal. cbn [map app].
        rewrite planet_at_middle.
        unfold count_of in Hlt. rewrite length_app. cbn [List.length].
        destruct (Z.to_nat ASTRO_MAX_PLANETS - List.length acc)%nat as [|k] eqn:Ek;
          [lia|].
        cbn [firstn map]. do 3 f_equal. lia.
      * reflexivity.
    + unfold count_of in Hge.
      replace (Z.to_nat ASTRO_MAX_PLANETS - List.length acc)%nat with 0%nat by lia.
      cbn [firstn map]. rewrite app_nil_r. reflexivity.
Qed.

Lemma stellium_step_sound (positions : list AstroPlanetPosition)
  (aspects : list AstroAspect) (s : Z) :
  (0 <= s < 12)%Z ->
  appends_only (sound_record positions aspects ASTRO_PATTERN_STELLIUM)
    (stellium_step positions s).
Proof.
  intro Hs. unfold stellium_step. cbv zeta.
  destruct (Z.leb_spec 3 (count_of (collect_in_sign s positions 0 []))) as [H3|H3];
    [|apply appends_keep].
  apply appends_one.
  match goal with
  | |- context [store_participants ?ids 0 ?p0] =>
      destruct (@store_participants_fields ids p0 eq_refl)
        as (Hty & Hpl & Hnum & Hel & _)
  end.
  cbn [pattern_type num_planets element] in Hty, Hnum, Hel.
  pose proof (collect_in_sign_planets s positions [] []) as Hids.
  cbn [app List.length map] in Hids. rewrite Nat.sub_0_r in Hids.
  change (Z.of_nat 0) with 0%Z in Hids.
  unfold count_of in H3.
  split; [exact Hty|].
  unfold found_as_coded. cbn [pattern_type planets num_planets element].
  rewrite Hty. exists s. split; [exact Hs|]. cbv zeta. rewrite <- Hids.
  split; [rewrite length_map; lia|]. split; [exact Hpl|]. split.
  - rewrite Hnum, length_map. reflexivity.
  - rewrite Hel. destruct (nth_error _ 7); reflexivity.
Qed.

Lemma stellium_loop_sound (positions : list AstroPlanetPosition)
  (aspects : list AstroAspect) (max_patterns : Z) (signs : list Z) :
  Forall (fun s => 0 <= s < 12)%Z signs ->
  appends_only (sound_record positions aspects ASTRO_PATTERN_STELLIUM)
    (stellium_loop positions signs max_patterns).
Proof.
  induction 1 as [|s rest Hs _ IH]; simpl.
  - apply appends_keep.
  - apply (appends_guard (fun out => (count_of out <? max_patterns)%Z));
      [|apply appends_keep].
    apply (appends_then (f := stellium_step positions s));
      [apply stellium_step_sound; exact Hs | exact IH].
Qed.

(** The three scans store three blocks, each of its own family and resting
    on what its scan tests. *)
Lemma find_patterns_blocks (positions : list AstroPlanetPosition)
  (aspects : list AstroAspect) (max_patterns : Z) :
  exists g t s,
    find_patterns_scans positions aspects max_patterns = g ++ t ++ s /\
    Forall (sound_record positions aspects ASTRO_PATTERN_GRAND_TRINE) g /\
    Forall (sound_record positions aspects ASTRO_PATTERN_T_SQUARE) t /\
    Forall (sound_record positions aspects ASTRO_PATTERN_STELLIUM) s.
Proof.
  unfold find_patterns_scans.
  destruct (@grand_trine_loop_sound positions aspects max_patterns aspects
              (incl_refl _) []) as (g & -> & Hg).
  destruct (@t_square_loop_sound positions aspects max_patterns aspects
              (incl_refl _) ([] ++ g)) as (t & -> & Ht).
  destruct (@stellium_loop_sound positions aspects max_patterns all_signs)
    with (out := ([] ++ g) ++ t) as (s & -> & Hs).
  { unfold all_signs. repeat (constructor; [lia|]). constructor. }
  exists g, t, s. simpl. rewrite <- app_assoc. auto.
Qed.

(** X13: the records [astro_aspects_find_patterns] stores come in three
    blocks, in this order: the Grand Trines, then the T-Squares, then the
    Stelliums; no other family is ever stored. *)
Theorem find_patterns_family_order (positions : list AstroPlanetPosition)
  (aspects : list AstroAspect) (buf : list AstroPattern)
  (max_patterns n0 : Z) :
  exists g t s,
    stored (astro_aspects_find_patterns (Some positions) (Some aspects)
              (Some buf) max_patterns (Some n0)) = g ++ t ++ s /\
    Forall (of_family ASTRO_PATTERN_GRAND_TRINE) g /\
    Forall (of_family ASTRO_PATTERN_T_SQUARE) t /\
    Forall (of_family ASTRO_PATTERN_STELLIUM) s.
Proof.
  destruct (find_patterns_blocks positions aspects max_patterns)
    as (g & t & s & E & Hg & Ht & Hs).
  exists g, t, s. cbn [astro_aspects_find_patterns stored].
  split; [exact E|].
  repeat split; (eapply Forall_impl; [|eassumption]); intros p [H _]; exact H.
Qed.

Lemma find_patterns_found_as_coded (positions : list AstroPlanetPosition)
  (aspects : list AstroAspect) (max_patterns : Z) (p : AstroPattern) :
  In p (find_patterns_scans positions aspects max_patterns) ->
  found_as_coded positions aspects p.
Proof.
  destruct (find_patterns_blocks positions aspects max_patterns)
    as (g & t & s & -> & Hg & Ht & Hs).
  rewrite Forall_forall in Hg, Ht, Hs.
  rewrite !in_app_iff. intros [H|[H|H]];
    [apply Hg in H | apply Ht in H | apply Hs in H]; apply H.
Qed.

(** X14: every Grand Trine record [astro_aspects_find_patterns] stores has
    three participants [p1; p2; p3] such that the aspect set holds a trine
    stored as (p1, p2) and a trine with [p3] at one end and [p1] or [p2] at
    the other.  (Nothing is established about the remaining side.) *)
Theorem grand_trine_record_rests_on_two_trines
  (positions : list AstroPlanetPosition) (aspects : list AstroAspect)
  (buf : list AstroPattern) (max_patterns n0 : Z) (p : AstroPattern) :
  In p (stored (astro_aspects_find_patterns (Some positions) (Some aspects)
                  (Some buf) max_patterns (Some n0))) ->
  pattern_type p = ASTRO_PATTERN_GRAND_TRINE ->
  exists ai aj p3,
    In ai aspects /\ In aj aspects /\
    aspect_type ai = ASTRO_ASPECT_TRINE /\
    aspect_type aj = ASTRO_ASPECT_TRINE /\
    planets p = [planet1 ai; planet2 ai; p3] /\
    num_planets p = 3%Z /\
    (0 <= p3)%Z /\
    (((planet1 aj = planet1 ai \/ planet1 aj = planet2 ai) /\ planet2 aj = p3) \/
     ((planet2 aj = planet1 ai \/ planet2 aj = planet2 ai) /\ planet1 aj = p3)).
Proof.
  cbn [astro_aspects_find_patterns stored]. intros Hin Hty.
  pose proof (find_patterns_found_as_coded _ _ _ _ Hin) as H.
  pose proof (find_patterns_participants positions aspects max_patterns) as Hok.
  rewrite Forall_forall in Hok. pose proof (Hok p Hin) as Hnum.
  unfold participants_ok in Hnum.
  unfold found_as_coded in H. rewrite Hty in H, Hnum.
  destruct H as (ai & aj & p3 & H). exists ai, aj, p3. tauto.
Qed.

(** X15: every T-Square record [astro_aspects_find_patterns] stores has
    three participants [p1; p2; c] such that the aspect set holds an
    opposition stored as (p1, p2) and a square stored as (p1, c) or (p2, c),
    the apex [c] being different from [p1] and [p2].  (Nothing is established
    about a square to the other end.) *)
Theorem t_square_record_rests_on_one_square
  (positions : list AstroPlanetPosition) (aspects : list AstroAspect)
  (buf : list AstroPattern) (max_patterns n0 : Z) (p : AstroPattern) :
  In p (stored (astro_aspects_find_patterns (Some positions) (Some aspects)
                  (Some buf) max_patterns (Some n0))) ->
  pattern_type p = ASTRO_PATTERN_T_SQUARE ->
  exists ai aj,
    In ai aspects /\ In aj aspects /\
    aspect_type ai = ASTRO_ASPECT_OPPOSITION /\
    aspect_type aj = ASTRO_ASPECT_SQUARE /\
    planets p = [planet1 ai; planet2 ai; planet2 aj] /\
    num_planets p = 3%Z /\
    (planet1 aj = planet1 ai \/ planet1 aj = planet2 ai) /\
    planet2 aj <> planet1 ai /\ planet2 aj <> planet2 ai.
Proof.
  cbn [astro_aspects_find_patterns stored]. intros Hin Hty.
  pose proof (find_patterns_found_as_coded _ _ _ _ Hin) as H.
  pose proof (find_patterns_participants positions aspects max_patterns) as Hok.
  rewrite Forall_forall in Hok. pose proof (Hok p Hin) as Hnum.
  unfold participants_ok in Hnum.
  unfold found_as_coded in H. rewrite Hty in H, Hnum.
  destruct H as (ai & aj & H). exists ai, aj. tauto.
Qed.

(** X16: every Stellium record [astro_aspects_find_patterns] stores belongs
    to one of the twelve signs, in which at least three bodies stand.  With
    [ids] the identifiers of the bodies whose sign field is that sign, in the
    order of the body list (the first ASTRO_MAX_PLANETS of them), the
    participants of the record are the first six of [ids]; its participant
    count is the seventh of [ids] when there are seven or more, and the
    length of [ids] otherwise.  So with at most six bodies in the sign the
    record lists them all and counts them, and with more it lists six and
    its count is the identifier of the seventh. *)
Theorem stellium_record_lists_sign (positions : list AstroPlanetPosition)
  (aspects : list AstroAspect) (buf : list AstroPattern)
  (max_patterns n0 : Z) (p : AstroPattern) :
  In p (stored (astro_aspects_find_patterns (Some positions) (Some aspects)
                  (Some buf) max_patterns (Some n0))) ->
  pattern_type p = ASTRO_PATTERN_STELLIUM ->
  exists s,
    (0 <= s < 12)%Z /\
    let ids :=
      map planet
        (firstn (Z.to_nat ASTRO_MAX_PLANETS)
           (filter (fun x => (sign x =? s)%Z) positions)) in
    (3 <= List.length ids)%nat /\
    planets p = firstn (Z.to_nat PATTERN_SLOTS) ids /\
    num_planets p
    = match nth_error ids (Z.to_nat PATTERN_SLOTS) with
      | Some id => id
      | None => Z.of_nat (List.length ids)
      end /\
    ((List.length ids <= Z.to_nat PATTERN_SLOTS)%nat ->
     planets p = ids /\ num_planets p = Z.of_nat (List.length (planets p))).
Proof.
  cbn [astro_aspects_find_patterns stored]. intros Hin Hty.
  pose proof (find_patterns_found_as_coded _ _ _ _ Hin) as H.
  unfold found_as_coded in H. rewrite Hty in H.
  destruct H as (s & Hs & H). exists s. split; [exact Hs|].
  cbv zeta in H |- *. change (Z.to_nat PATTERN_SLOTS) with 6%nat.
  destruct H as (H3 & Hpl & Hnum & _).
  split; [exact H3|]. split; [exact Hpl|]. split; [exact Hnum|].
  intro H6. rewrite Hpl, Hnum.
  rewrite (@firstn_all2 _ 6) by exact H6. split; [reflexivity|].
  destruct (nth_error _ 6) eqn:E; [|reflexivity].
  assert (nth_error
            (map planet
               (firstn (Z.to_nat ASTRO_MAX_PLANETS)
                  (filter (fun x => (sign x =? s)%Z) positions))) 6 <> None)
    as Hn by (rewrite E; discriminate).
  apply nth_error_Some in Hn. lia.
Qed.

(** ** Chart queries and analysis *)

Lemma select_loop_prefix (A B : Type) (test : A -> bool) (conv : A -> B)
  (max : Z) (items : list A) :
  forall out,
    select_loop test conv items max out
    = out ++ firstn (room max out) (map conv (filter test items)).
Proof.
  induction items as [|x rest IH]; simpl; intro out.
  - rewrite firstn_nil, app_nil_r. reflexivity.
  - destruct (count_of out <? max)%Z eqn:G.
    + rewrite IH. destruct (test x); [|reflexivity].
      rewrite room_app, <- app_assoc. f_equal. cbn [map List.length app].
      pose proof (room_left _ _ G) as Hroom.
      destruct (room max out) as [|k]; [lia|].
      cbn [firstn]. f_equal. f_equal. lia.
    + rewrite (room_full _ _ G). rewrite app_nil_r. reflexivity.
Qed.

Lemma select_loop_from_empty (A B : Type) (test : A -> bool) (conv : A -> B)
  (max : Z) (items : list A) :
  select_loop test conv items max []
  = firstn (Z.to_nat max) (map conv (filter test items)).
Proof.
  rewrite select_loop_prefix. unfold room, count_of. simpl.
  rewrite Z.sub_0_r. reflexivity.
Qed.

(** X17: [astro_chart_get_planet] returns the first body of the chart with
    the identifier asked for, and NULL exactly when no body of the chart
    carries it. *)
Theorem chart_get_planet_first (c : AstroChart) (p : AstroPlanet) :
  match astro_chart_get_planet (Some c) p with
  | Some x =>
      exists pre post,
        chart_planets c = pre ++ x :: post /\ planet x = p /\
        Forall (fun y => planet y <> p) pre
  | None => Forall (fun y => planet y <> p) (chart_planets c)
  end.
Proof.
  unfold astro_chart_get_planet.
  induction (chart_planets c) as [|x rest IH]; simpl; [constructor|].
  destruct (Z.eqb_spec (planet x) p) as [E|N].
  - exists [], rest. repeat split; auto.
  - destruct (get_planet_scan rest p) as [y|].
    + destruct IH as (pre & post & -> & Hy & Hpre).
      exists (x :: pre), post. repeat split; auto.
    + constructor; assumption.
Qed.

(** X18: [astro_chart_get_planet_aspects] returns, in the order of the
    chart, the aspects that have the planet at either end, cut to the first
    [max_aspects] of them; [astro_chart_get_planets_in_sign] does the same
    for the bodies of a sign. *)
Theorem chart_selections (c : AstroChart) (p : AstroPlanet) (s : AstroSign)
  (abuf : list AstroAspect) (pbuf : list AstroPlanetPosition) (max n0 : Z) :
  stored (astro_chart_get_planet_aspects (Some c) p (Some abuf) max (Some n0))
  = firstn (Z.to_nat max)
      (filter (fun a => ((planet1 a =? p) || (planet2 a =? p))%Z)
         (chart_aspects c)) /\
  stored (astro_chart_get_planets_in_sign (Some c) s (Some pbuf) max (Some n0))
  = firstn (Z.to_nat max)
      (filter (fun x => (sign x =? s)%Z) (chart_planets c)).
Proof.
  unfold astro_chart_get_planet_aspects, astro_chart_get_planets_in_sign.
  cbn [stored]. rewrite !select_loop_from_empty, !map_id. split; reflexivity.
Qed.

Lemma element_eqb_eq (a b : AstroElement) : element_eqb a b = true <-> a = b.
Proof. destruct a, b; simpl; split; intro H; (reflexivity || discriminate H). Qed.

Lemma modality_eqb_eq (a b : AstroModality) : modality_eqb a b = true <-> a = b.
Proof. destruct a, b; simpl; split; intro H; (reflexivity || discriminate H). Qed.

Lemma count_elements_spec (ps : list AstroPlanetPosition) :
  forall b e,
    element_count (count_elements ps b) e
    = (element_count b e + bodies_of_element ps e)%Z.
Proof.
  unfold bodies_of_element, count_of.
  induction ps as [|x rest IH]; intros b e; cbn -[Z.of_nat Z.add]; [lia|].
  rewrite IH.
  destruct (astro_core_get_sign_element (sign x)), e; cbn -[Z.of_nat Z.add]; lia.
Qed.

Lemma count_modalities_spec (ps : list AstroPlanetPosition) :
  forall b m,
    modality_count (count_modalities ps b) m
    = (modality_count b m + bodies_of_modality ps m)%Z.
Proof.
  unfold bodies_of_modality, count_of.
  induction ps as [|x rest IH]; intros b m; cbn -[Z.of_nat Z.add]; [lia|].
  rewrite IH.
  destruct (astro_core_get_sign_modality (sign x)), m; cbn -[Z.of_nat Z.add]; lia.
Qed.

Lemma elements_partition (ps : list AstroPlanetPosition) :
  (bodies_of_element ps ASTRO_ELEMENT_FIRE +
   bodies_of_element ps ASTRO_ELEMENT_EARTH +
   bodies_of_element ps ASTRO_ELEMENT_AIR +
   bodies_of_element ps ASTRO_ELEMENT_WATER = count_of ps)%Z.
Proof.
  unfold bodies_of_element, count_of.
  induction ps as [|x rest IH]; cbn -[Z.of_nat Z.add]; [reflexivity|].
  destruct (astro_core_get_sign_element (sign x)); cbn -[Z.of_nat Z.add] in *; lia.
Qed.

Lemma modalities_partition (ps : list AstroPlanetPosition) :
  (bodies_of_modality ps ASTRO_MODALITY_CARDINAL +
   bodies_of_modality ps ASTRO_MODALITY_FIXED +
   bodies_of_modality ps ASTRO_MODALITY_MUTABLE = count_of ps)%Z.
Proof.
  unfold bodies_of_modality, count_of.
  induction ps as [|x rest IH]; cbn -[Z.of_nat Z.add]; [reflexivity|].
  destruct (astro_core_get_sign_modality (sign x)); cbn -[Z.of_nat Z.add] in *; lia.
Qed.

(** X19: [astro_chart_analyze_elements] returns ASTRO_OK with, for each
    element, the number of bodies whose sign has that element (a sign outside
    0..11 counts as Fire), so that the four counts add up to the number of
    bodies; the dominant element has the largest count, and among elements
    with the largest count it is the first in the order Fire, Earth, Air,
    Water. *)
Theorem analyze_elements_counts (c : AstroChart) (b0 : AstroElementBalance) :
  exists b,
    astro_chart_analyze_elements (Some c) (Some b0) = (ASTRO_OK, Some b) /\
    (forall e, element_count b e = bodies_of_element (chart_planets c) e) /\
    (fire_count b + earth_count b + air_count b + water_count b
     = count_of (chart_planets c))%Z /\
    (forall e, element_count b e <= element_count b (dominant_element b))%Z /\
    (forall e, (element_value e < element_value (dominant_element b))%Z ->
               (element_count b e < element_count b (dominant_element b))%Z).
Proof.
  unfold astro_chart_analyze_elements.
  set (b := count_elements (chart_planets c)
              (mkElementBalance 0 0 0 0 ASTRO_ELEMENT_FIRE)).
  assert (Hcount : forall e, element_count b e
                             = bodies_of_element (chart_planets c) e).
  { intro e. unfold b. rewrite count_elements_spec. destruct e; reflexivity. }
  pose proof (elements_partition (chart_planets c)) as Hsum.
  rewrite <- !Hcount in Hsum. simpl in Hsum.
  destruct (Z.ltb_spec (fire_count b) (earth_count b)) as [H1|H1];
    cbv beta iota;
    match goal with
    | |- context [(?m <? air_count b)%Z] =>
        destruct (Z.ltb_spec m (air_count b)) as [H2|H2]
    end; cbv beta iota;
    match goal with
    | |- context [(?m <? water_count b)%Z] =>
        destruct (Z.ltb_spec m (water_count b)) as [H3|H3]
    end; cbv beta iota;
    (eexists; split; [reflexivity|]);
    (split; [intro e; rewrite <- Hcount; destruct e; reflexivity|]);
    (split; [exact Hsum|]);
    (split; intro e; destruct e; simpl; lia).
Qed.

(** X20: [astro_chart_analyze_modalities] returns ASTRO_OK with, for each
    modality, the number of bodies whose sign has that modality (a sign
    outside 0..11 counts as Cardinal), so that the three counts add up to the
    number of bodies; the dominant modality has the largest count, and among
    modalities with the largest count it is the first in the order Cardinal,
    Fixed, Mutable. *)
Theorem analyze_modalities_counts (c : AstroChart) (b0 : AstroModalityBalance) :
  exists b,
    astro_chart_analyze_modalities (Some c) (Some b0) = (ASTRO_OK, Some b) /\
    (forall m, modality_count b m = bodies_of_modality (chart_planets c) m) /\
    (cardinal_count b + fixed_count b + mutable_count b
     = count_of (chart_planets c))%Z /\
    (forall m, modality_count b m <= modality_count b (dominant_modality b))%Z /\
    (forall m, (modality_value m < modality_value (dominant_modality b))%Z ->
               (modality_count b m < modality_count b (dominant_modality b))%Z).
Proof.
  unfold astro_chart_analyze_modalities.
  set (b := count_modalities (chart_planets c)
              (mkModalityBalance 0 0 0 ASTRO_MODALITY_CARDINAL)).
  assert (Hcount : forall m, modality_count b m
                             = bodies_of_modality (chart_planets c) m).
  { intro m. unfold b. rewrite count_modalities_spec. destruct m; reflexivity. }
  pose proof (modalities_partition (chart_planets c)) as Hsum.
  rewrite <- !Hcount in Hsum. simpl in Hsum.
  destruct (Z.ltb_spec (cardinal_count b) (fixed_count b)) as [H1|H1];
    cbv beta iota;
    match goal with
    | |- context [(?m <? mutable_count b)%Z] =>
        destruct (Z.ltb_spec m (mutable_count b)) as [H2|H2]
    end; cbv beta iota;
    (eexists; split; [reflexivity|]);
    (split; [intro m; rewrite <- Hcount; destruct m; reflexivity|]);
    (split; [exact Hsum|]);
    (split; intro m; destruct m; simpl; lia).
Qed.

(** ** Signs, elements and modalities *)

Lemma sign_cases (s : AstroSign) :
  (0 <= s < 12)%Z ->
  (s = 0 \/ s = 1 \/ s = 2 \/ s = 3 \/ s = 4 \/ s = 5 \/ s = 6 \/ s = 7 \/
   s = 8 \/ s = 9 \/ s = 10 \/ s = 11)%Z.
Proof. lia. Qed.

(** X21: for the twelve signs the element is the sign number modulo 4 and
    the modality the sign number modulo 3, so that the pair (element,
    modality) identifies the sign; any other sign value is given Fire and
    Cardinal. *)
Theorem element_modality_identify_sign (s1 s2 : AstroSign) :
  ((0 <= s1 < 12)%Z ->
   element_value (astro_core_get_sign_element s1) = (s1 mod 4)%Z /\
   modality_value (astro_core_get_sign_modality s1) = (s1 mod 3)%Z) /\
  ((0 <= s1 < 12)%Z -> (0 <= s2 < 12)%Z ->
   astro_core_get_sign_element s1 = astro_core_get_sign_element s2 ->
   astro_core_get_sign_modality s1 = astro_core_get_sign_modality s2 ->
   s1 = s2) /\
  (~ (0 <= s1 < 12)%Z ->
   astro_core_get_sign_element s1 = ASTRO_ELEMENT_FIRE /\
   astro_core_get_sign_modality s1 = ASTRO_MODALITY_CARDINAL).
Proof.
  split; [|split].
  - intro H. apply sign_cases in H.
    repeat (destruct H as [->|H]; [split; reflexivity|]).
    subst. split; reflexivity.
  - intros H1 H2. apply sign_cases in H1. apply sign_cases in H2.
    repeat (destruct H1 as [->|H1]; [|]); subst;
      repeat (destruct H2 as [->|H2]; [|]); subst;
      simpl; intros He Hm;
      first [reflexivity | discriminate He | discriminate Hm].
  - intro H.
    destruct s1 as [|p|p]; [exfalso; lia| |split; reflexivity].
    do 4 (destruct p as [p|p|]; try (exfalso; lia); try (split; reflexivity)).
Qed.

(** ** Transits *)

Lemma cross_pairs_In (cfg : configs) (firsts seconds : list AstroPlanetPosition)
  (asp : AstroAspect) :
  In asp (cross_pairs cfg firsts seconds) <->
  exists t y, In t firsts /\ In y seconds /\ In asp (detected cfg t y).
Proof.
  unfold cross_pairs. rewrite in_flat_map. split.
  - intros (t & Ht & Hin). apply aspects_with_In in Hin.
    destruct Hin as (l2 & y & l3 & -> & Hin).
    exists t, y. repeat split; auto. apply in_or_app. right. left. reflexivity.
  - intros (t & y & Ht & Hy & Hin). exists t. split; [exact Ht|].
    apply aspects_with_In. apply in_split in Hy. destruct Hy as (l2 & l3 & ->).
    eauto.
Qed.

Lemma calc_between_charts_stores_pairs_aux (cfg : configs)
  (natal transit : list AstroPlanetPosition) (asp : AstroAspect) :
  In asp (stored (astro_aspects_calc_between_charts cfg (Some natal)
                    (Some transit) (Some []) ASTRO_MAX_ASPECTS (Some 0%Z))) ->
  exists t n,
    In t transit /\ In n natal /\
    planet1 asp = planet t /\ planet2 asp = planet n /\
    planet1 asp <> planet2 asp.
Proof.
  rewrite calc_between_charts_stored_prefix.
  intro Hin. apply In_firstn in Hin. apply cross_pairs_In in Hin.
  destruct Hin as (t & n & Ht & Hn & Hin).
  apply detected_In, calc_aspect_ok_inv in Hin.
  destruct Hin as (Hne & H1 & H2 & Hc).
  exists t, n. repeat split; auto. congruence.
Qed.

(** X22: every aspect [astro_aspects_calc_between_charts] stores has a body
    of its second array (the one named transit_positions) as its first body
    and a body of its first array (natal_positions) as its second body, the
    two with different identifiers: a body is never paired with the body of
    the same identifier in the other chart. *)
Theorem calc_between_charts_stores_pairs (cfg : configs)
  (natal transit : list AstroPlanetPosition) (buf : list AstroAspect)
  (max_aspects n0 : Z) (asp : AstroAspect) :
  In asp (stored (astro_aspects_calc_between_charts cfg (Some natal)
                    (Some transit) (Some buf) max_aspects (Some n0))) ->
  exists t n,
    In t transit /\ In n natal /\
    planet1 asp = planet t /\ planet2 asp = planet n /\
    planet1 asp <> planet2 asp /\
    astro_aspects_check_aspect cfg (longitude t) (longitude n)
    = Some (aspect_type asp, difference asp).
Proof.
  rewrite calc_between_charts_stored_prefix.
  intro Hin. apply In_firstn in Hin. apply cross_pairs_In in Hin.
  destruct Hin as (t & n & Ht & Hn & Hin).
  apply detected_In, calc_aspect_ok_inv in Hin.
  destruct Hin as (Hne & H1 & H2 & Hc).
  exists t, n. repeat split; auto. congruence.
Qed.

Lemma calc_between_charts_stores_pairs_witness :
  let asp :=
    nth 0 (stored (astro_aspects_calc_between_charts g_aspect_configs
                     (Some chart_grand_trine) (Some chart_one_square)
                     (Some []) 50 (Some 0%Z))) aspect_uninit in
  exists t n,
    In t chart_one_square /\ In n chart_grand_trine /\
    planet1 asp = planet t /\ planet2 asp = planet n /\
    planet1 asp <> planet2 asp /\
    astro_aspects_check_aspect g_aspect_configs (longitude t) (longitude n)
    = Some (aspect_type asp, difference asp).
Proof.
  intro asp.
  apply (@calc_between_charts_stores_pairs g_aspect_configs
           chart_grand_trine chart_one_square [] 50 0 asp).
  left. reflexivity.
Defined.

Section TransitsOfEphemeris.

Variable astro_core_calc_planets :
  AstroDateTime -> Z * list AstroPlanetPosition.

(** X23: [astro_transits_calc_current] passes an ephemeris failure on and
    stores nothing then; otherwise it returns ASTRO_OK with at most
    [max_transits] transits, and in every transit stored the field
    transiting_planet is the identifier of a body of the natal chart and the
    field natal_planet the identifier of a body the ephemeris returned for the
    transit time, the two identifiers being different (a body in aspect to
    its own natal place is never reported). *)
Theorem calc_current_roles (cfg : configs) (natal : AstroChart)
  (time : AstroDateTime) (buf : list AstroTransit) (max_transits n0 : Z) :
  let r := astro_transits_calc_current astro_core_calc_planets cfg
             (Some natal) (Some time) (Some buf) max_transits (Some n0) in
  let code := fst (astro_core_calc_planets time) in
  let transit_positions := snd (astro_core_calc_planets time) in
  (code <> ASTRO_OK -> r = mkBuilt code [] (Some n0)) /\
  (code = ASTRO_OK ->
   status r = ASTRO_OK /\
   num_stored r = Some (count_of (stored r)) /\
   (count_of (stored r) <= Z.max 0 max_transits)%Z /\
   forall t, In t (stored r) ->
     exists n tp,
       In n (chart_planets natal) /\ In tp transit_positions /\
       transiting_planet t = planet n /\ natal_planet t = planet tp /\
       transiting_planet t <> natal_planet t /\ event_time t = time).
Proof.
  intros r code transit_positions.
  unfold r, astro_transits_calc_current, code, transit_positions.
  destruct (astro_core_calc_planets time) as [result tpos]. cbn [fst snd].
  split.
  - intro Hne. apply Z.eqb_neq in Hne. rewrite Hne. reflexivity.
  - intros ->. cbn [Z.eqb ASTRO_OK negb].
    set (b := astro_aspects_calc_between_charts cfg (Some tpos)
                (Some (chart_planets natal)) (Some []) ASTRO_MAX_ASPECTS
                (Some 0%Z)).
    assert (Hb : status b = ASTRO_OK) by reflexivity.
    rewrite Hb. cbn [Z.eqb ASTRO_OK negb status stored num_stored].
    rewrite select_loop_from_empty. cbn [filter].
    replace (filter (fun _ => true) (stored b)) with (stored b)
      by (induction (stored b) as [|x l IHl]; simpl; [|rewrite <- IHl]; reflexivity).
    split; [reflexivity|]. split; [reflexivity|]. split.
    + unfold count_of.
      pose proof (firstn_le_length (Z.to_nat max_transits)
                    (map (transit_of_aspect time) (stored b))). lia.
    + intros t Hin. apply In_firstn in Hin. apply in_map_iff in Hin.
      destruct Hin as (asp & <- & Hasp).
      destruct (calc_between_charts_stores_pairs_aux cfg tpos
                  (chart_planets natal) asp Hasp)
        as (n & tp & Hn & Htp & H1 & H2 & Hne).
      exists n, tp. cbn [transit_of_aspect transiting_planet natal_planet event_time].
      repeat split; auto.
Qed.

End TransitsOfEphemeris.

Lemma scaled_nonpositive (base o : double) :
  (0 <= base)%Q -> (10 <= o)%Q -> (base * (1 - o / 10) <= 0)%Q.
Proof.
  intros Hb Ho.
  setoid_replace (base * (1 - o / 10))%Q with (- (base * (o / 10 - 1)))%Q by ring.
  assert (H1 : (1 <= o / 10)%Q) by (apply Qle_shift_div_l; [reflexivity|lra]).
  assert (H0 : (0 <= base * (o / 10 - 1))%Q)
    by (apply Qmult_le_0_compat; lra).
  lra.
Qed.

(** The sum of the bonuses, before the orb is taken into account. *)
Lemma transit_base_range (outer exact major : bool) :
  let s := 50%Q in
  let s := if outer then (s + 20)%Q else s in
  let s := if exact then (s + 20)%Q else s in
  let s := if major then (s + 10)%Q else s in
  (50 <= s <= 100)%Q.
Proof. destruct outer, exact, major; cbv zeta; split; lra. Qed.

(** X24: [calc_transit_strength] always lies between 0 and 100, and is 0
    for an orb of 10 degrees or more. *)
Theorem transit_strength_range (t : AstroTransit) :
  (0 <= calc_transit_strength t <= 100)%Q /\
  ((10 <= transit_orb t)%Q -> (calc_transit_strength t == 0)%Q).
Proof.
  unfold calc_transit_strength. cbv zeta.
  pose proof (transit_base_range
                (is_outer_planet (transiting_planet t))
                (negb (transit_is_exact t =? 0)%Z)
                (aspect_type_eqb (transit_aspect_type t) ASTRO_ASPECT_CONJUNCTION
                 || aspect_type_eqb (transit_aspect_type t) ASTRO_ASPECT_OPPOSITION
                 || aspect_type_eqb (transit_aspect_type t) ASTRO_ASPECT_SQUARE))
    as Hbase.
  cbv zeta in Hbase.
  match goal with
  | |- context [dlt (?b * (1 - transit_orb t / 10)) 0] => set (base := b) in *
  end.
  assert (Hlow : (10 <= transit_orb t)%Q ->
                 (base * (1 - transit_orb t / 10) <= 0)%Q)
    by (apply scaled_nonpositive; lra).
  case_dlt (base * (1 - transit_orb t / 10))%Q 0%Q Hneg.
  - split; [lra|]. intros _. reflexivity.
  - case_dlt 100%Q (base * (1 - transit_orb t / 10))%Q Hbig.
    + split; [lra|]. intro Horb. specialize (Hlow Horb). exfalso. lra.
    + split; [lra|]. intro Horb. specialize (Hlow Horb). lra.
Qed.

Lemma most_important_scan_spec (rest : list AstroTransit) :
  forall pre cur mid,
    Forall (fun y => (calc_transit_strength y < calc_transit_strength cur)%Q) pre ->
    Forall (fun y => (calc_transit_strength y <= calc_transit_strength cur)%Q) mid ->
    exists pre' post',
      pre ++ cur :: mid ++ rest
      = pre' ++ most_important_scan rest cur (calc_transit_strength cur) :: post' /\
      Forall (fun y => (calc_transit_strength y
                        < calc_transit_strength
                            (most_important_scan rest cur (calc_transit_strength cur)))%Q)
        pre' /\
      Forall (fun y => (calc_transit_strength y
                        <= calc_transit_strength
                             (most_important_scan rest cur (calc_transit_strength cur)))%Q)
        post'.
Proof.
  induction rest as [|t rest IH]; intros pre cur mid Hpre Hmid.
  - exists pre, mid. rewrite app_nil_r. simpl. auto.
  - cbn [most_important_scan]. cbv zeta.
    case_dlt (calc_transit_strength cur) (calc_transit_strength t) Hlt.
    + destruct (IH (pre ++ cur :: mid) t []) as (pre' & post' & E & H1 & H2).
      * apply Forall_app. split; [|constructor].
        -- eapply Forall_impl; [|exact Hpre]. simpl. intros y Hy. lra.
        -- exact Hlt.
        -- eapply Forall_impl; [|exact Hmid]. simpl. intros y Hy. lra.
      * constructor.
      * exists pre', post'. split; [|auto].
        rewrite <- E. rewrite <- !app_assoc. reflexivity.
    + destruct (IH pre cur (mid ++ [t])) as (pre' & post' & E & H1 & H2).
      * exact Hpre.
      * apply Forall_app. split; [exact Hmid|]. constructor; [exact Hlt|constructor].
      * exists pre', post'. split; [|auto].
        rewrite <- E. rewrite <- !app_assoc. reflexivity.
Qed.

(** X25: [astro_transits_get_most_important] returns NULL exactly for an
    empty array; otherwise it returns a transit of the array whose strength
    no transit exceeds, the first such one: every transit before it is
    strictly weaker. *)
Theorem most_important_is_first_maximum (transits : list AstroTransit) :
  match astro_transits_get_most_important (Some transits) with
  | None => transits = []
  | Some t =>
      exists pre post,
        transits = pre ++ t :: post /\
        Forall (fun y => (calc_transit_strength y < calc_transit_strength t)%Q) pre /\
        Forall (fun y => (calc_transit_strength y <= calc_transit_strength t)%Q) post
  end.
Proof.
  destruct transits as [|t0 rest]; cbn [astro_transits_get_most_important];
    [reflexivity|].
  destruct (@most_important_scan_spec rest [] t0 [] (Forall_nil _) (Forall_nil _))
    as (pre & post & E & H1 & H2).
  exists pre, post. auto.
Qed.

Lemma filter_filter_comm (A : Type) (f g : A -> bool) (l : list A) :
  filter f (filter g l) = filter g (filter f l).
Proof.
  induction l as [|x l IH]; simpl; [reflexivity|].
  destruct (f x) eqn:Ef, (g x) eqn:Eg; simpl; rewrite ?Ef, ?Eg, IH; reflexivity.
Qed.

Lemma filter_length_le (A : Type) (f : A -> bool) (l : list A) :
  (List.length (filter f l) <= List.length l)%nat.
Proof.
  induction l as [|x l IH]; simpl; [lia|]. destruct (f x); simpl; lia.
Qed.

(** X26: [astro_transits_filter_by_planet] and
    [astro_transits_filter_by_aspect] keep, in order, the transits of the
    planet (of the family), cut to the first [max_filtered] of them; with a
    capacity of at least the number of transits the two filters can be
    applied in either order with the same result. *)
Theorem transit_filters (all buf : list AstroTransit) (p : AstroPlanet)
  (ty : AstroAspectType) (max n0 : Z) :
  let by_planet l :=
    stored (astro_transits_filter_by_planet (Some l) p (Some buf) max (Some n0)) in
  let by_aspect l :=
    stored (astro_transits_filter_by_aspect (Some l) ty (Some buf) max (Some n0)) in
  by_planet all
  = firstn (Z.to_nat max) (filter (fun t => (transiting_planet t =? p)%Z) all) /\
  by_aspect all
  = firstn (Z.to_nat max)
      (filter (fun t => aspect_type_eqb (transit_aspect_type t) ty) all) /\
  ((count_of all <= max)%Z -> by_aspect (by_planet all) = by_planet (by_aspect all)).
Proof.
  intros by_planet by_aspect.
  assert (Hp : forall l, by_planet l
               = firstn (Z.to_nat max)
                   (filter (fun t => (transiting_planet t =? p)%Z) l)).
  { intro l. unfold by_planet, astro_transits_filter_by_planet. cbn [stored].
    rewrite select_loop_from_empty, map_id. reflexivity. }
  assert (Ha : forall l, by_aspect l
               = firstn (Z.to_nat max)
                   (filter (fun t => aspect_type_eqb (transit_aspect_type t) ty) l)).
  { intro l. unfold by_aspect, astro_transits_filter_by_aspect. cbn [stored].
    rewrite select_loop_from_empty, map_id. reflexivity. }
  split; [apply Hp|]. split; [apply Ha|].
  intro Hcap. unfold count_of in Hcap.
  rewrite (Hp all), (Ha all), Hp, Ha.
  assert (Hlen : forall (f : AstroTransit -> bool) l,
             (List.length l <= List.length all)%nat ->
             firstn (Z.to_nat max) (filter f l) = filter f l).
  { intros f l Hl. apply firstn_all2.
    pose proof (filter_length_le f l). lia. }
  rewrite (Hlen _ all) by lia. rewrite (Hlen _ all) by lia.
  rewrite Hlen by apply filter_length_le.
  rewrite Hlen by apply filter_length_le.
  apply filter_filter_comm.
Qed.

(** ** The sort of the mythic transit report *)

Lemma bubble_pass_perm (k : nat) :
  forall l, Permutation (bubble_pass k l) l.
Proof.
  induction k as [|k IH]; intro l; [destruct l; apply Permutation_refl|].
  destruct l as [|x [|y rest]]; simpl; try apply Permutation_refl.
  destruct (dlt (importance x) (importance y)).
  - eapply Permutation_trans; [apply perm_skip, IH|apply perm_swap].
  - apply perm_skip, IH.
Qed.

Lemma bubble_passes_perm (m : nat) :
  forall l, Permutation (bubble_passes m l) l.
Proof.
  induction m as [|m IH]; intro l; cbn [bubble_passes];
    [apply Permutation_refl|].
  eapply Permutation_trans; [apply IH|apply bubble_pass_perm].
Qed.

(** One pass with [k] comparisons moves a least important transit of the
    first [k + 1] to index [k] and leaves the rest of the array alone. *)
Lemma bubble_pass_split (k : nat) :
  forall l,
    (k < List.length l)%nat ->
    exists pre m,
      bubble_pass k l = pre ++ m :: skipn (S k) l /\
      Forall (fun x => at_least_as_important x m) pre /\
      Permutation (pre ++ [m]) (firstn (S k) l).
Proof.
  unfold at_least_as_important.
  induction k as [|k IH]; intros l Hlen.
  - destruct l as [|x rest]; [simpl in Hlen; lia|].
    exists [], x. simpl. repeat split; [constructor|apply Permutation_refl].
  - destruct l as [|x [|y rest]]; simpl in Hlen; try lia.
    cbn [bubble_pass].
    case_dlt (importance x) (importance y) Hxy.
    + destruct (IH (x :: rest)) as (pre & m & E & Hmin & Hperm);
        [simpl; lia|].
      assert (Hmx : (importance m <= importance x)%Q).
      { assert (Hin : In x (pre ++ [m])).
        { eapply Permutation_in; [apply Permutation_sym, Hperm|].
          simpl. left. reflexivity. }
        apply in_app_iff in Hin. destruct Hin as [Hin|[->|[]]].
        - rewrite Forall_forall in Hmin. apply Hmin. exact Hin.
        - apply Qle_refl. }
      exists (y :: pre), m. rewrite E. split; [reflexivity|]. split.
      * constructor; [lra|exact Hmin].
      * cbn [app firstn] in *.
        eapply Permutation_trans; [apply perm_skip, Hperm|apply perm_swap].
    + destruct (IH (y :: rest)) as (pre & m & E & Hmin & Hperm);
        [simpl; lia|].
      assert (Hmy : (importance m <= importance y)%Q).
      { assert (Hin : In y (pre ++ [m])).
        { eapply Permutation_in; [apply Permutation_sym, Hperm|].
          simpl. left. reflexivity. }
        apply in_app_iff in Hin. destruct Hin as [Hin|[->|[]]].
        - rewrite Forall_forall in Hmin. apply Hmin. exact Hin.
        - apply Qle_refl. }
      exists (x :: pre), m. rewrite E. split; [reflexivity|]. split.
      * constructor; [lra|exact Hmin].
      * cbn [app firstn] in *. apply perm_skip. exact Hperm.
Qed.

Lemma bubble_passes_sorted (m : nat) :
  forall front back,
    List.length front = S m ->
    StronglySorted at_least_as_important back ->
    (forall a b, In a front -> In b back -> at_least_as_important a b) ->
    StronglySorted at_least_as_important (bubble_passes m (front ++ back)).
Proof.
  induction m as [|m IH]; intros front back Hlen Hback Hcross.
  - destruct front as [|a [|a' front]]; simpl in Hlen; try lia.
    simpl. constructor; [exact Hback|].
    apply Forall_forall. intros b Hb. apply Hcross; [left; reflexivity|exact Hb].
  - cbn [bubble_passes].
    destruct (@bubble_pass_split (S m) (front ++ back))
      as (pre & mn & E & Hmin & Hperm);
      [rewrite length_app; lia|].
    assert (Hskip : skipn (S (S m)) (front ++ back) = back).
    { rewrite <- Hlen. rewrite skipn_app, skipn_all, Nat.sub_diag. reflexivity. }
    assert (Hfirst : firstn (S (S m)) (front ++ back) = front).
    { rewrite <- Hlen. rewrite firstn_app, firstn_all, Nat.sub_diag.
      simpl. apply app_nil_r. }
    rewrite Hskip in E. rewrite Hfirst in Hperm. rewrite E.
    assert (Hfront : forall x, In x (pre ++ [mn]) -> In x front)
      by (intros x Hx; eapply Permutation_in; [exact Hperm|exact Hx]).
    apply IH.
    + apply Permutation_length in Hperm. rewrite length_app in Hperm.
      simpl in Hperm. lia.
    + constructor; [exact Hback|]. apply Forall_forall. intros b Hb.
      apply Hcross; [|exact Hb]. apply Hfront. apply in_or_app. right.
      left. reflexivity.
    + intros a b Ha [<-|Hb].
      * rewrite Forall_forall in Hmin. apply Hmin. exact Ha.
      * apply Hcross; [|exact Hb]. apply Hfront. apply in_or_app. left. exact Ha.
Qed.

(** X27: the sort of [calculate_mythic_transits] leaves the transits in
    order of non-increasing importance, with the same transits as before
    (each as often as before); the top transits are the first ten of them, or
    all of them when there are fewer. *)
Theorem sort_by_importance_sorts (transits : list MythicTransit) :
  StronglySorted at_least_as_important (sort_by_importance transits) /\
  Permutation (sort_by_importance transits) transits /\
  top_transits (sort_by_importance transits)
  = firstn 10 (sort_by_importance transits).
Proof.
  unfold sort_by_importance. split; [|split].
  - destruct transits as [|x rest]; [constructor|].
    rewrite <- (app_nil_r (x :: rest)) at 2.
    apply bubble_passes_sorted.
    + simpl. lia.
    + constructor.
    + intros a b _ [].
  - apply bubble_passes_perm.
  - unfold top_transits.
    destruct (Nat.ltb_spec
                (List.length (bubble_passes (List.length transits - 1) transits)) 10)
      as [Hlt|Hge]; [|reflexivity].
    rewrite firstn_all. symmetry. apply firstn_all2. lia.
Qed.

(** ** Every pair of trines that share a body is reported *)

Lemma appends_In (A : Type) (Q : A -> Prop) (f : list A -> list A)
  (out : list A) (x : A) :
  appends_only Q f -> In x out -> In x (f out).
Proof.
  intros Hf Hin. destruct (Hf out) as (more & -> & _).
  apply in_or_app. left. exact Hin.
Qed.

Lemma grand_trine_step_count positions aspects ai aj out :
  (count_of (grand_trine_step positions aspects ai aj out) <= count_of out + 1)%Z.
Proof.
  unfold grand_trine_step.
  destruct (is_trine aj); [|lia].
  destruct (0 <=? _)%Z; [|lia].
  destruct (existsb _ aspects); [rewrite count_of_app|]; lia.
Qed.

Lemma grand_trine_inner_count positions aspects ai js :
  forall out,
    (count_of (grand_trine_inner positions aspects ai js out)
     <= count_of out + count_of js)%Z.
Proof.
  unfold count_of.
  induction js as [|aj js IH]; intro out; cbn [grand_trine_inner List.length].
  - lia.
  - pose proof (IH (grand_trine_step positions aspects ai aj out)).
    pose proof (grand_trine_step_count positions aspects ai aj out).
    unfold count_of in *. lia.
Qed.

Section GrandTrineComplete.

Variable positions : list AstroPlanetPosition.
Variable aspects : list AstroAspect.
Variable max_patterns : Z.

Lemma grand_trine_inner_keeps (ai : AstroAspect) (js : list AstroAspect)
  (out : list AstroPattern) (x : AstroPattern) :
  In x out -> In x (grand_trine_inner positions aspects ai js out).
Proof.
  revert out. induction js as [|aj js IH]; intros out Hin; simpl; [exact Hin|].
  apply IH. unfold grand_trine_step.
  destruct (is_trine aj); [|exact Hin].
  destruct (0 <=? _)%Z; [|exact Hin].
  destruct (existsb _ aspects); [|exact Hin].
  apply in_or_app. left. exact Hin.
Qed.

Lemma grand_trine_loop_keeps (from_i : list AstroAspect)
  (out : list AstroPattern) (x : AstroPattern) :
  In x out -> In x (grand_trine_loop positions aspects from_i max_patterns out).
Proof.
  revert out. induction from_i as [|ai rest IH]; intros out Hin; simpl;
    [exact Hin|].
  destruct (count_of out <? max_patterns)%Z; [|exact Hin].
  apply IH. destruct (is_trine ai); [|exact Hin].
  apply grand_trine_inner_keeps. exact Hin.
Qed.

Lemma grand_trine_inner_reports (ai aj : AstroAspect) (l2 l3 : list AstroAspect)
  (out : list AstroPattern) :
  In aj aspects ->
  is_trine aj = true ->
  (planet1 aj = planet1 ai \/ planet1 aj = planet2 ai \/
   planet2 aj = planet1 ai \/ planet2 aj = planet2 ai) ->
  (0 <= third_planet_of (planet1 ai) (planet2 ai) (planet1 aj) (planet2 aj))%Z ->
  In (grand_trine_pattern positions (planet1 ai) (planet2 ai)
        (third_planet_of (planet1 ai) (planet2 ai) (planet1 aj) (planet2 aj)))
     (grand_trine_inner positions aspects ai (l2 ++ aj :: l3) out).
Proof.
  intros Hin Htj Hshare H3. revert out.
  induction l2 as [|a l2 IH]; intro out; cbn [app grand_trine_inner].
  - apply grand_trine_inner_keeps.
    rewrite grand_trine_step_two_edges by assumption.
    apply in_or_app. right. left. reflexivity.
  - apply IH.
Qed.

Lemma grand_trine_loop_reports (ai aj : AstroAspect)
  (l1 l2 l3 : list AstroAspect) :
  forall out,
    (2 * count_of out
     + count_of (l1 ++ ai :: l2 ++ aj :: l3)
       * (count_of (l1 ++ ai :: l2 ++ aj :: l3) - 1)
     < 2 * max_patterns)%Z ->
    In aj aspects ->
    is_trine ai = true -> is_trine aj = true ->
    (planet1 aj = planet1 ai \/ planet1 aj = planet2 ai \/
     planet2 aj = planet1 ai \/ planet2 aj = planet2 ai) ->
    (0 <= third_planet_of (planet1 ai) (planet2 ai) (planet1 aj) (planet2 aj))%Z ->
    In (grand_trine_pattern positions (planet1 ai) (planet2 ai)
          (third_planet_of (planet1 ai) (planet2 ai) (planet1 aj) (planet2 aj)))
       (grand_trine_loop positions aspects (l1 ++ ai :: l2 ++ aj :: l3)
          max_patterns out).
Proof.
  induction l1 as [|a l1 IH]; intros out Hcap Hin Hti Htj Hshare H3.
  - cbn [app grand_trine_loop].
    assert (G : (count_of out <? max_patterns)%Z = true).
    { apply Z.ltb_lt. unfold count_of in *. cbn [app List.length] in Hcap.
      rewrite length_app in Hcap. cbn [List.length] in Hcap. nia. }
    rewrite G, Hti. apply grand_trine_loop_keeps.
    apply grand_trine_inner_reports; assumption.
  - cbn [app grand_trine_loop].
    assert (G : (count_of out <? max_patterns)%Z = true).
    { apply Z.ltb_lt. unfold count_of in *. cbn [app List.length] in Hcap. nia. }
    rewrite G. apply IH; try assumption.
    cbn [app] in Hcap.
    set (rest := l1 ++ ai :: l2 ++ aj :: l3) in *.
    assert (Hc : (count_of (if is_trine a
                            then grand_trine_inner positions aspects a rest out
                            else out)
                  <= count_of out + count_of rest)%Z).
    { destruct (is_trine a); [apply grand_trine_inner_count|].
      unfold count_of. lia. }
    unfold count_of in *. cbn [List.length] in Hcap.
    rewrite Nat2Z.inj_succ in Hcap.
    pose proof (Nat2Z.is_nonneg (List.length rest)) as Hn.
    pose proof (Nat2Z.is_nonneg (List.length out)) as Ho.
    nia.
Qed.

End GrandTrineComplete.

(** X28: with a capacity above n (n - 1) / 2 for n aspects,
    [astro_aspects_find_patterns] stores a Grand Trine record for every pair
    of trines of the aspect set in which the later one shares a body with
    the earlier one (and the body at its other end has a non-negative
    identifier): the participants are the two bodies of the earlier trine and
    that other body. *)
Theorem grand_trine_reported_for_two_trines
  (positions : list AstroPlanetPosition) (aspects : list AstroAspect)
  (buf : list AstroPattern) (max_patterns n0 : Z)
  (l1 l2 l3 : list AstroAspect) (ai aj : AstroAspect) :
  aspects = l1 ++ ai :: l2 ++ aj :: l3 ->
  (count_of aspects * (count_of aspects - 1) < 2 * max_patterns)%Z ->
  aspect_type ai = ASTRO_ASPECT_TRINE ->
  aspect_type aj = ASTRO_ASPECT_TRINE ->
  (planet1 aj = planet1 ai \/ planet1 aj = planet2 ai \/
   planet2 aj = planet1 ai \/ planet2 aj = planet2 ai) ->
  let p3 := third_planet_of (planet1 ai) (planet2 ai) (planet1 aj) (planet2 aj) in
  (0 <= p3)%Z ->
  exists p,
    In p (stored (astro_aspects_find_patterns (Some positions) (Some aspects)
                    (Some buf) max_patterns (Some n0))) /\
    shape p = (ASTRO_PATTERN_GRAND_TRINE, [planet1 ai; planet2 ai; p3], 3%Z).
Proof.
  intros Hasp Hcap Hti Htj Hshare p3 H3.
  exists (grand_trine_pattern positions (planet1 ai) (planet2 ai) p3).
  split; [|reflexivity].
  cbn [astro_aspects_find_patterns stored]. unfold find_patterns_scans.
  assert (Hstel : appends_only (fun _ : AstroPattern => True)
                    (stellium_loop positions all_signs max_patterns)).
  { intro out. destruct (stellium_loop_appends positions max_patterns all_signs out)
      as (more & E & _).
    exists more. split; [exact E|]. apply Forall_forall. auto. }
  assert (Htsq : appends_only
                   (sound_record positions aspects ASTRO_PATTERN_T_SQUARE)
                   (t_square_loop positions aspects aspects max_patterns))
    by (apply t_square_loop_sound, incl_refl).
  apply (appends_In _ _ Hstel). apply (appends_In _ _ Htsq).
  rewrite Hasp at 2. rewrite Hasp in Hcap.
  apply grand_trine_loop_reports; try assumption.
  - rewrite Hasp. apply in_or_app. right. right. apply in_or_app. right.
    left. reflexivity.
  - apply aspect_type_eqb_eq. exact Hti.
  - apply aspect_type_eqb_eq. exact Htj.
Qed.

Lemma grand_trine_reported_witness :
  exists p,
    In p (stored (patterns_of chart_two_trines (aspects_of chart_two_trines) 10)) /\
    shape p = (ASTRO_PATTERN_GRAND_TRINE, [0; 1; 2], 3)%Z.
Proof.
  apply (@grand_trine_reported_for_two_trines chart_two_trines
           (aspects_of chart_two_trines) [] 10 0 [] []
           (skipn 2 (aspects_of chart_two_trines))
           (nth 0 (aspects_of chart_two_trines) aspect_uninit)
           (nth 1 (aspects_of chart_two_trines) aspect_uninit));
    solve [reflexivity | left; reflexivity | vm_compute; discriminate].
Defined.

(** ** Instances of the statements on stored records *)

Lemma grand_trine_record_witness :
  let p := grand_trine_pattern chart_two_trines 0%Z 1%Z 2%Z in
  let aspects := aspects_of chart_two_trines in
  exists ai aj p3,
    In ai aspects /\ In aj aspects /\
    aspect_type ai = ASTRO_ASPECT_TRINE /\
    aspect_type aj = ASTRO_ASPECT_TRINE /\
    planets p = [planet1 ai; planet2 ai; p3] /\
    num_planets p = 3%Z /\
    (0 <= p3)%Z /\
    (((planet1 aj = planet1 ai \/ planet1 aj = planet2 ai) /\ planet2 aj = p3) \/
     ((planet2 aj = planet1 ai \/ planet2 aj = planet2 ai) /\ planet1 aj = p3)).
Proof.
  intros p aspects.
  refine (@grand_trine_record_rests_on_two_trines chart_two_trines aspects
            [] 10 0 p _ _); [vm_compute; left; reflexivity | reflexivity].
Defined.

Lemma t_square_record_witness :
  let p := t_square_pattern chart_one_square 0%Z 1%Z 2%Z in
  let aspects := aspects_of chart_one_square in
  exists ai aj,
    In ai aspects /\ In aj aspects /\
    aspect_type ai = ASTRO_ASPECT_OPPOSITION /\
    aspect_type aj = ASTRO_ASPECT_SQUARE /\
    planets p = [planet1 ai; planet2 ai; planet2 aj] /\
    num_planets p = 3%Z /\
    (planet1 aj = planet1 ai \/ planet1 aj = planet2 ai) /\
    planet2 aj <> planet1 ai /\ planet2 aj <> planet2 ai.
Proof.
  intros p aspects.
  refine (@t_square_record_rests_on_one_square chart_one_square aspects
            [] 10 0 p _ _); [vm_compute; left; reflexivity | reflexivity].
Defined.

Lemma stellium_record_witness :
  let p := nth 0 (stored (patterns_of chart_seven_in_aries [] 10))
             (mkPattern ASTRO_PATTERN_STELLIUM [] 0%Z None EmptyString) in
  exists s,
    (0 <= s < 12)%Z /\
    let ids :=
      map planet
        (firstn (Z.to_nat ASTRO_MAX_PLANETS)
           (filter (fun x => (sign x =? s)%Z) chart_seven_in_aries)) in
    (3 <= List.length ids)%nat /\
    planets p = firstn (Z.to_nat PATTERN_SLOTS) ids /\
    num_planets p
    = match nth_error ids (Z.to_nat PATTERN_SLOTS) with
      | Some id => id
      | None => Z.of_nat (List.length ids)
      end /\
    ((List.length ids <= Z.to_nat PATTERN_SLOTS)%nat ->
     planets p = ids /\ num_planets p = Z.of_nat (List.length (planets p))).
Proof.
  intro p.
  apply (@stellium_record_lists_sign chart_seven_in_aries [] [] 10 0 p);
    [left; reflexivity | reflexivity].
Defined.

(** ** Remaining wrappers *)

(** X29: the importance [calculate_transit_importance] assigns lies between
    0 and 100, and is at least 70 for a transit flagged exact. *)
Theorem transit_importance_range (t : MythicTransit) :
  (0 <= calculate_transit_importance t <= 100)%Q /\
  (mt_is_exact t <> 0%Z -> (70 <= calculate_transit_importance t)%Q).
Proof.
  unfold calculate_transit_importance. cbv zeta.
  destruct (Z.eqb_spec (mt_is_exact t) 0) as [E|N]; cbn [negb].
  - match goal with
    | |- context [dlt ?x 0] => set (score := x)
    end.
    split; [|intro H; contradiction].
    case_dlt score 0%Q H0.
    + case_dlt 100%Q 0%Q H1; lra.
    + case_dlt 100%Q score H1; lra.
  - match goal with
    | |- context [dlt ?x 0] => set (score := x)
    end.
    assert (Hs : (70 <= score)%Q).
    { unfold score.
      destruct (5 <=? mt_transit_planet t)%Z, (7 <=? mt_transit_planet t)%Z,
        ((mt_natal_planet t =? 0) || (mt_natal_planet t =? 1))%Z,
        (aspect_type_eqb (mt_aspect_type t) ASTRO_ASPECT_CONJUNCTION
         || aspect_type_eqb (mt_aspect_type t) ASTRO_ASPECT_OPPOSITION
         || aspect_type_eqb (mt_aspect_type t) ASTRO_ASPECT_SQUARE); lra. }
    case_dlt score 0%Q H0; [exfalso; lra|].
    case_dlt 100%Q score H1; split; intros; lra.
Qed.

(** X30: [astro_chart_update_aspects] returns ASTRO_OK, leaves the bodies of
    the chart alone and replaces its aspects by the first 50 aspects of all
    pairs of its bodies, whatever aspects the chart held before; updating a
    chart twice gives the same chart as updating it once. *)
Theorem update_aspects_idempotent (cfg : configs) (c : AstroChart) :
  exists c',
    astro_chart_update_aspects cfg (Some c) = (ASTRO_OK, Some c') /\
    chart_planets c' = chart_planets c /\
    chart_aspects c' = firstn 50 (all_pairs cfg (chart_planets c)) /\
    astro_chart_update_aspects cfg (Some c') = (ASTRO_OK, Some c').
Proof.
  unfold astro_chart_update_aspects.
  eexists. split; [reflexivity|]. cbn [chart_planets chart_aspects].
  split; [reflexivity|]. split; [apply calc_all_stored_prefix|].
  rewrite !calc_all_stored_prefix. reflexivity.
Qed.
